(** * Hybrid retrieval and conversational orchestration: a shallow embedding

    The development follows the JavaScript sources of the rental assistant:

    - [Js]            the fragment of JavaScript values and built-ins the
                      sources rely on (truthiness, [trim], [split],
                      [parseInt], [isNaN], [toString], [Array.prototype.sort]);
    - [Rental]        [src/models/rental.js]: [RentalModel.buildSearchQuery]
                      and the meaning of the queries it builds;
    - [VectorSearch]  [src/services/vector-search.service.js]:
                      [buildVectorSearchFilter] and [hybridSearch];
    - [Conversation]  [src/models/conversation.js]: [addMessage] and
                      [getConversationHistory] over a session store;
    - [Agent]         [src/agents/rental-rag-agent.js]:
                      [extractToolCallsFromResult], [extractSearchMetadata]
                      and [chat];
    - [Chat]          [src/controllers/chat.controller.js]:
                      [handleChatMessage];
    - [Listing]       [src/models/rental.js] and its controller: [findById]
                      and the pagination of [findMany];
    - [Lexical]       [traditionalSearch] and [getPropertyById] of the
                      service, and the details tool of the agent;
    - [Sessions]      [deleteConversation] of the session store;
    - [Streaming]     [handleStreamChat] and the history route.

    Definitions come first; the properties of the specification follow,
    and then further properties of the same code. *)

From Stdlib Require Import ZArith QArith Lqa Ascii DecimalString.
From stdpp Require Import gmap strings list fin_maps.

Set Warnings "-register-all".
Local Open Scope Z_scope.

(* ===================================================================== *)
(** * JavaScript values and built-ins                                     *)
(* ===================================================================== *)

Module Js.

(** A JavaScript number that reaches the code as an identifier, a price,
    a count or a limit: [NaN] or an integer value.  The numbers a text is
    read as are doubles (see [to_double]); the two infinities are left
    out, and so are the texts that are read as one, of more than 308
    digits. *)
Inductive JsNum :=
| NaN
| Num (z : Z).

(** Values found in parameter maps, tool arguments, queries and stored
    documents.  [VOid] is a driver [ObjectId], kept as its 24 lower-case
    hexadecimal digits. *)
Inductive JsVal :=
| VUndef
| VNull
| VBool (b : bool)
| VNum (n : JsNum)
| VStr (s : string)
| VOid (hex : string)
| VArr (items : list JsVal)
| VObj (fields : gmap string JsVal).

(** The outcome of code that may throw. *)
Inductive Result (A : Type) :=
| Ok (a : A)
| Throw (e : string).
Arguments Ok {A} a.
Arguments Throw {A} e.

Definition bind {A B} (r : Result A) (k : A → Result B) : Result B :=
  match r with
  | Ok a => k a
  | Throw e => Throw e
  end.

(** [if (v)], [v || d], [!v]. *)
Definition truthy (v : JsVal) : bool :=
  match v with
  | VUndef | VNull => false
  | VBool b => b
  | VNum NaN => false
  | VNum (Num z) => negb (z =? 0)
  | VStr s => negb (String.eqb s "")
  | VOid _ | VArr _ | VObj _ => true
  end.

Definition or_else (v d : JsVal) : JsVal := if truthy v then v else d.

(** [v === 'true'] *)
Definition is_string_true (v : JsVal) : bool :=
  match v with
  | VStr s => String.eqb s "true"
  | _ => false
  end.

(** A parameter with a default value: the default replaces [undefined]. *)
Definition or_default (d v : JsVal) : JsVal :=
  match v with
  | VUndef => d
  | _ => v
  end.

(** [o.k] on a plain object: [undefined] when the key is absent. *)
Definition prop (o : gmap string JsVal) (k : string) : JsVal :=
  default VUndef (o !! k).

(** [v?.k] and [v.k] on a value that is not [null] or [undefined]: only
    objects carry the keys the sources read. *)
Definition opt_prop (v : JsVal) (k : string) : JsVal :=
  match v with
  | VObj o => prop o k
  | _ => VUndef
  end.

(** ** Strings *)

Fixpoint trimStart (s : string) : string :=
  match s with
  | String c r => if Ascii.is_space c then trimStart r else s
  | EmptyString => EmptyString
  end.

Definition trim (s : string) : string :=
  String.rev (trimStart (String.rev (trimStart s))).

(** [s.split(sep)] for a one-character separator. *)
Fixpoint split_go (sep : ascii) (cur : string) (s : string) : list string :=
  match s with
  | EmptyString => [String.rev cur]
  | String c r =>
      if Ascii.eqb c sep then String.rev cur :: split_go sep EmptyString r
      else split_go sep (String c cur) r
  end.

Definition split (sep : ascii) (s : string) : list string :=
  split_go sep EmptyString s.

Fixpoint join (sep : string) (l : list string) : string :=
  match l with
  | [] => ""
  | [s] => s
  | s :: r => s +:+ sep +:+ join sep r
  end.

(** [hay.includes(needle)] *)
Fixpoint starts_with (needle hay : string) : bool :=
  match needle, hay with
  | EmptyString, _ => true
  | String a n, String b h => Ascii.eqb a b && starts_with n h
  | String _ _, EmptyString => false
  end.

Fixpoint includes (needle hay : string) : bool :=
  starts_with needle hay ||
  match hay with
  | EmptyString => false
  | String _ h => includes needle h
  end.

Definition hex_value (c : ascii) : option Z :=
  let n := Z.of_nat (nat_of_ascii c) in
  if (48 <=? n) && (n <=? 57) then Some (n - 48)
  else if (97 <=? n) && (n <=? 102) then Some (n - 87)
  else if (65 <=? n) && (n <=? 70) then Some (n - 55)
  else None.

Definition digit_value (radix : Z) (c : ascii) : option Z :=
  match hex_value c with
  | Some d => if d <? radix then Some d else None
  | None => None
  end.

Definition lower (c : ascii) : ascii :=
  let n := nat_of_ascii c in
  if (65 <=? n)%nat && (n <=? 90)%nat then ascii_of_nat (n + 32) else c.

Fixpoint toLowerCase (s : string) : string :=
  match s with
  | EmptyString => EmptyString
  | String c r => String (lower c) (toLowerCase r)
  end.

Fixpoint all_chars (p : ascii → bool) (s : string) : bool :=
  match s with
  | EmptyString => true
  | String c r => p c && all_chars p r
  end.

(** The longest prefix of digits of the radix, read as a number, with the
    count of digits read. *)
Fixpoint read_digits (radix : Z) (acc : Z) (count : nat) (s : string)
  : Z * nat * string :=
  match s with
  | EmptyString => (acc, count, s)
  | String c r =>
      match digit_value radix c with
      | Some d => read_digits radix (acc * radix + d) (S count) r
      | None => (acc, count, s)
      end
  end.

Definition strip_sign (s : string) : bool * string :=
  match s with
  | String "-"%char r => (true, r)
  | String "+"%char r => (false, r)
  | _ => (false, s)
  end.

Definition strip_hex_prefix (s : string) : option string :=
  match s with
  | String "0"%char (String "x"%char r)
  | String "0"%char (String "X"%char r) => Some r
  | _ => None
  end.

(** The double nearest to an integer.  An integer of at most 53 bits is a
    double; a longer one is rounded to its 53 leading bits, to the nearest
    double, and to the one with an even last bit when it lies half-way. *)
Definition to_double (z : Z) : Z :=
  let a := Z.abs z in
  let e := Z.log2 a - 52 in
  if e <=? 0 then z
  else
    let q := a / 2 ^ e in
    let r := a mod 2 ^ e in
    let half := 2 ^ (e - 1) in
    let q := if (half <? r) || ((r =? half) && Z.odd q) then q + 1 else q in
    Z.sgn z * (q * 2 ^ e).

(** The integer [parseInt(s)] reads, with no radix argument: leading white
    space, a sign, an optional [0x], then the longest run of digits;
    [None] when there is none. *)
Definition read_integer (s : string) : option Z :=
  let '(neg, body) := strip_sign (trimStart s) in
  let '(radix, digits) :=
    match strip_hex_prefix body with
    | Some r => (16, r)
    | None => (10, body)
    end in
  let '(n, count, _) := read_digits radix 0 0%nat digits in
  match count with
  | O => None
  | _ => Some (if neg then - n else n)
  end.

(** [parseInt(s)]: the integer read, as a double, or [NaN].  An integer
    too large for a double is read as [Infinity] by JavaScript, which
    the numbers of this development leave out (see [reads_finite]). *)
Definition parseInt (s : string) : JsNum :=
  match read_integer s with
  | None => NaN
  | Some z => Num (to_double z)
  end.

(** [String(n)] for a number, in decimal digits (the exponent notation of
    values from 10^21 on is left out). *)
Definition num_toString (n : JsNum) : string :=
  match n with
  | NaN => "NaN"
  | Num z => NilZero.string_of_int (Z.to_int z)
  end.

(** The grammar of [StringNumericLiteral] after trimming: [Number(s)] is
    [NaN] exactly when the text is not derived from it. *)
Definition is_prefixed_literal (s : string) : bool :=
  match s with
  | String "0"%char (String k r) =>
      let radix :=
        if Ascii.eqb (lower k) "x"%char then Some 16
        else if Ascii.eqb (lower k) "o"%char then Some 8
        else if Ascii.eqb (lower k) "b"%char then Some 2
        else None in
      match radix, r with
      | Some rd, String _ _ => all_chars (λ c, bool_decide (is_Some (digit_value rd c))) r
      | _, _ => false
      end
  | _ => false
  end.

Definition is_exponent (s : string) : bool :=
  match s with
  | EmptyString => true
  | String e r =>
      if Ascii.eqb (lower e) "e"%char then
        let '(_, r1) := strip_sign r in
        let '(_, count, rest) := read_digits 10 0 0%nat r1 in
        negb (Nat.eqb count 0) && String.eqb rest ""
      else false
  end.

Definition is_decimal_literal (s : string) : bool :=
  let '(_, body) := strip_sign s in
  if String.eqb body "Infinity" then true
  else
    let '(_, ints, r1) := read_digits 10 0 0%nat body in
    match r1 with
    | String "."%char r2 =>
        let '(_, fracs, r3) := read_digits 10 0 0%nat r2 in
        negb (Nat.eqb (ints + fracs) 0) && is_exponent r3
    | _ => negb (Nat.eqb ints 0) && is_exponent r1
    end.

(** [isNaN(s)] for a string [s], i.e. whether [Number(s)] is [NaN]. *)
Definition isNaN (s : string) : bool :=
  let t := trim s in
  negb (String.eqb t "" || is_prefixed_literal t || is_decimal_literal t).

(** [v.toString()]: throws on [null] and [undefined]. *)
Fixpoint toString (v : JsVal) : Result string :=
  match v with
  | VUndef => Throw "Cannot read properties of undefined (reading 'toString')"
  | VNull => Throw "Cannot read properties of null (reading 'toString')"
  | VBool b => Ok (if b then "true" else "false")
  | VNum n => Ok (num_toString n)
  | VStr s => Ok s
  | VOid hex => Ok hex
  | VArr items =>
      Ok (join "," (List.map (λ x, match toString x with
                                  | Ok s => s
                                  | Throw _ => ""
                                  end) items))
  | VObj _ => Ok "[object Object]"
  end.

(** Template-literal and [String(v)] conversion, which never throws. *)
Definition display (v : JsVal) : string :=
  match v with
  | VUndef => "undefined"
  | VNull => "null"
  | _ => match toString v with Ok s => s | Throw _ => "" end
  end.

(** Equality of scalars as the document store compares them. *)
Definition scalar_eqb (a b : JsVal) : bool :=
  match a, b with
  | VNull, VNull => true
  | VBool x, VBool y => Bool.eqb x y
  | VNum NaN, VNum NaN => true
  | VNum (Num x), VNum (Num y) => x =? y
  | VStr x, VStr y => String.eqb x y
  | VOid x, VOid y => String.eqb x y
  | _, _ => false
  end.

(** ** Arrays *)

(** [l.map(f)] for a callback that may throw. *)
Fixpoint mapM {A B} (f : A → Result B) (l : list A) : Result (list B) :=
  match l with
  | [] => Ok []
  | x :: r => bind (f x) (λ y, bind (mapM f r) (λ ys, Ok (y :: ys)))
  end.

(** [l.slice(0, stop)]: a negative [stop] counts from the end. *)
Definition slice0 {A} (stop : Z) (l : list A) : list A :=
  let len := Z.of_nat (length l) in
  let k := if stop <? 0 then Z.max (len + stop) 0 else Z.min stop len in
  take (Z.to_nat k) l.

(** [l.sort(cmp)]: the sort is stable, and [a] is placed before [b] when
    [cmp a b < 0].  An element is inserted after the ones that must come
    first and before every other one, so that elements the comparator does
    not separate keep their order. *)
Definition comes_first {A} (cmp : A → A → Q) (a b : A) : bool :=
  negb (Qle_bool 0 (cmp a b)).

Fixpoint sort_insert {A} (cmp : A → A → Q) (x : A) (l : list A) : list A :=
  match l with
  | [] => [x]
  | y :: r => if comes_first cmp y x then y :: sort_insert cmp x r else x :: l
  end.

Definition Array_sort {A} (cmp : A → A → Q) (l : list A) : list A :=
  foldr (sort_insert cmp) [] l.

(** [Math.ceil(n * 0.7)] and [Math.ceil(n * 0.3)], the shares of a limit,
    as the ceiling of the exact tenths.  The code multiplies doubles: for
    a limit from 0 to 2^49 its share is this one; for a negative limit
    the product can stop short of a whole number, and the share of the
    code is then one more than this one. *)
Definition ceil_share (n k : Z) : Z := - ((- (n * k)) / 10).

End Js.
Export Js.

(* ===================================================================== *)
(** * src/models/rental.js                                                *)
(* ===================================================================== *)

Module Rental.

(** A raw parameter map ([params], [filters]): a loose object. *)
Abbreviation Params := (gmap string JsVal).

(** A stored listing, seen through the dotted field paths the queries
    name ([_id], [address.market], [price], ...). *)
Abbreviation Document := (gmap string JsVal).

(** The operator objects the builders write under a field. *)
Inductive Cond :=
| CEq (v : JsVal)                      (* [field: v] and [{ $eq: v }] *)
| CIn (vs : list JsVal)                (* [{ $in: vs }] *)
| CRegex (pattern : JsVal) (options : string)
                                       (* [{ $regex: p, $options: o }] *)
| CRange (gte lte : option JsNum)      (* [{ $gte: a, $lte: b }], either optional *)
| CText (search : JsVal).              (* [$text: { $search: s }] *)

(** A top-level entry of a query object: a condition on the field named
    by the key, or the list of one-field alternatives of [$or]. *)
Inductive Entry :=
| EField (c : Cond)
| EOr (clauses : list (string * Cond)).

Abbreviation Query := (gmap string Entry).

(** [ObjectId.isValid(s)] on a string: 24 hexadecimal digits (the
    12-character texts older drivers also accept are left out). *)
Definition ObjectId_isValid (s : string) : bool :=
  Nat.eqb (String.length s) 24
  && all_chars (λ c, bool_decide (is_Some (hex_value c))) s.

(** [new ObjectId(s)] for a valid [s]. *)
Definition new_ObjectId (s : string) : JsVal := VOid (toLowerCase s).

(** [parseInt(v)]: the argument is converted to a string first. *)
Definition parseInt_val (v : JsVal) : JsNum := parseInt (display v).

(** The identifier a trimmed list element stands for (rental.js 116-121). *)
Definition id_of_text (trimmedId : string) : JsVal :=
  if ObjectId_isValid trimmedId then new_ObjectId trimmedId
  else if negb (isNaN trimmedId) then VNum (parseInt trimmedId)
  else VStr trimmedId.

(** [Array.isArray(params.ids) ? params.ids : params.ids.split(',')] *)
Definition ids_array (ids : JsVal) : Result (list JsVal) :=
  match ids with
  | VArr items => Ok items
  | VStr s => Ok (VStr <$> split ","%char s)
  | _ => Throw "params.ids.split is not a function"
  end.

(** One round of the [forEach] of rental.js 114-123 over the two
    accumulators [objectIds] and [numericIds]. *)
Definition push_id (acc : list JsVal * list JsVal) (id : JsVal)
  : Result (list JsVal * list JsVal) :=
  bind (toString id) (λ s,
    let trimmedId := trim s in
    if ObjectId_isValid trimmedId
    then Ok (acc.1 ++ [new_ObjectId trimmedId], acc.2)
    else
      let numericId :=
        if negb (isNaN trimmedId) then VNum (parseInt trimmedId)
        else VStr trimmedId in
      Ok (acc.1, acc.2 ++ [numericId])).

Fixpoint forEach_ids (acc : list JsVal * list JsVal) (ids : list JsVal)
  : Result (list JsVal * list JsVal) :=
  match ids with
  | [] => Ok acc
  | id :: rest => bind (push_id acc id) (λ acc', forEach_ids acc' rest)
  end.

(** The query of the [ids] branch (rental.js 125-134). *)
Definition ids_query (objectIds numericIds : list JsVal) : Query :=
  match objectIds, numericIds with
  | _ :: _, _ :: _ =>
      {[ "$or" := EOr [("_id", CIn objectIds); ("_id", CIn numericIds)] ]}
  | _ :: _, [] => {[ "_id" := EField (CIn objectIds) ]}
  | [], _ :: _ => {[ "_id" := EField (CIn numericIds) ]}
  | [], [] => ∅
  end.

Definition set_if (c : bool) (k : string) (e : Entry) (q : Query) : Query :=
  if c then <[k := e]> q else q.

Definition bound (v : JsVal) : option JsNum :=
  if truthy v then Some (parseInt_val v) else None.

(** The query built from the filter fields (rental.js 140-184). *)
Definition filter_query (params : Params) : Query :=
  let p := prop params in
  let q : Query := ∅ in
  let q := set_if (truthy (p "text")) "$text" (EField (CText (p "text"))) q in
  let q := set_if (truthy (p "location")) "$or"
             (EOr [("address.neighbourhood", CRegex (p "location") "i");
                   ("address.market", CRegex (p "location") "i");
                   ("address.country", CRegex (p "location") "i")]) q in
  let q := set_if (truthy (p "property_type")) "property_type"
             (EField (CEq (p "property_type"))) q in
  let q := set_if (truthy (p "room_type")) "room_type"
             (EField (CEq (p "room_type"))) q in
  let q := set_if (truthy (p "country")) "address.country"
             (EField (CEq (p "country"))) q in
  let q := set_if (truthy (p "min_price") || truthy (p "max_price")) "price"
             (EField (CRange (bound (p "min_price")) (bound (p "max_price")))) q in
  let q := set_if (truthy (p "min_bedrooms")) "bedrooms"
             (EField (CRange (Some (parseInt_val (p "min_bedrooms"))) None)) q in
  let q := set_if (truthy (p "min_bathrooms")) "bathrooms"
             (EField (CRange (Some (parseInt_val (p "min_bathrooms"))) None)) q in
  let q := set_if (truthy (p "min_accommodates")) "accommodates"
             (EField (CRange (Some (parseInt_val (p "min_accommodates"))) None)) q in
  let q := set_if (is_string_true (p "superhost_only")) "host.host_is_superhost"
             (EField (CEq (VBool true))) q in
  let q := set_if (is_string_true (p "instant_bookable")) "instant_bookable"
             (EField (CEq (VBool true))) q in
  let q := set_if (truthy (p "min_rating")) "review_scores.review_scores_rating"
             (EField (CRange (Some (parseInt_val (p "min_rating"))) None)) q in
  q.

(** [RentalModel.buildSearchQuery(params)] (rental.js 104-185). *)
Definition buildSearchQuery (params : Params) : Result Query :=
  if truthy (prop params "ids") then
    bind (ids_array (prop params "ids")) (λ ids,
    bind (forEach_ids ([], []) ids) (λ '(objectIds, numericIds),
    Ok (ids_query objectIds numericIds)))
  else Ok (filter_query params).

(** ** What a query selects

    The regular-expression engine and the text index belong to the
    document store; the meaning of a query is given relative to them. *)
Section Matching.
Variable regex_test : string → string → string → bool.
Variable text_search : JsVal → Document → bool.

Definition above (b : option JsNum) (x : Z) : bool :=
  match b with
  | None => true
  | Some (Num n) => n <=? x
  | Some NaN => false
  end.

Definition below (b : option JsNum) (x : Z) : bool :=
  match b with
  | None => true
  | Some (Num n) => x <=? n
  | Some NaN => false
  end.

(** A condition on a field the document lacks does not hold. *)
Definition cond_holds (field : string) (c : Cond) (d : Document) : bool :=
  match c with
  | CEq v =>
      match d !! field with
      | Some x => scalar_eqb x v
      | None => false
      end
  | CIn vs =>
      match d !! field with
      | Some x => existsb (scalar_eqb x) vs
      | None => false
      end
  | CRegex (VStr pattern) options =>
      match d !! field with
      | Some (VStr s) => regex_test pattern options s
      | _ => false
      end
  | CRegex _ _ => false
  | CRange gte lte =>
      match d !! field with
      | Some (VNum (Num x)) => above gte x && below lte x
      | _ => false
      end
  | CText search => text_search search d
  end.

Definition entry_holds (key : string) (e : Entry) (d : Document) : bool :=
  match e with
  | EField c => cond_holds key c d
  | EOr clauses => existsb (λ '(field, c), cond_holds field c d) clauses
  end.

(** A document is selected when every entry of the query holds. *)
Definition matches (q : Query) (d : Document) : bool :=
  bool_decide (map_Forall (λ key e, entry_holds key e d = true) q).
End Matching.

End Rental.

(* ===================================================================== *)
(** * src/services/vector-search.service.js                               *)
(* ===================================================================== *)

Module VectorSearch.
Import Rental.

(** [buildVectorSearchFilter(filters)] (vector-search.service.js 108-151):
    the metadata filter handed to the vector index. *)
Definition buildVectorSearchFilter (filters : JsVal) : Query :=
  if negb (truthy filters) then ∅
  else
    let f := opt_prop filters in
    let v : Query := ∅ in
    let v := set_if (truthy (f "property_type")) "property_type"
               (EField (CEq (f "property_type"))) v in
    let v := set_if (truthy (f "room_type")) "room_type"
               (EField (CEq (f "room_type"))) v in
    let v := set_if (truthy (f "min_price") || truthy (f "max_price")) "price"
               (EField (CRange (bound (f "min_price")) (bound (f "max_price")))) v in
    let v := set_if (truthy (f "min_bedrooms")) "bedrooms"
               (EField (CRange (Some (parseInt_val (f "min_bedrooms"))) None)) v in
    let v := set_if (truthy (f "min_accommodates")) "accommodates"
               (EField (CRange (Some (parseInt_val (f "min_accommodates"))) None)) v in
    let v := set_if (is_string_true (f "superhost_only")) "host.host_is_superhost"
               (EField (CEq (VBool true))) v in
    let v := set_if (truthy (f "country")) "address.country"
               (EField (CEq (f "country"))) v in
    let v := set_if (truthy (f "location")) "address.market"
               (EField (CEq (f "location"))) v in
    if (0 <? size v)%nat then v else ∅.

(** A search result: the listing projection with its [_id] and, for a
    result of the vector index, its similarity [score]. *)
Record Hit := {
  hit_id : JsVal;
  hit_score : option Q;
  hit_fields : Document
}.

(** [{ ...result, score: s }] *)
Definition with_score (s : Q) (result : Hit) : Hit :=
  {| hit_id := hit_id result; hit_score := Some s; hit_fields := hit_fields result |}.

(** [r.score || 0] *)
Definition score_or_0 (r : Hit) : Q := default 0%Q (hit_score r).

(** [r._id.toString()] *)
Definition id_string (r : Hit) : Result string := toString (hit_id r).

(** The score given to a result only the lexical search returned. *)
Definition lexical_score : Q := 1 # 2.

(** The loop of lines 165-169 over [traditionalResults]. *)
Fixpoint push_lexical (vectorIds : gset string) (combinedResults : list Hit)
    (traditionalResults : list Hit) : Result (list Hit) :=
  match traditionalResults with
  | [] => Ok combinedResults
  | result :: rest =>
      bind (id_string result) (λ k,
        push_lexical vectorIds
          (if bool_decide (k ∈ vectorIds) then combinedResults
           else combinedResults ++ [with_score lexical_score result])
          rest)
  end.

(** [(a, b) => (b.score || 0) - (a.score || 0)] *)
Definition by_score_desc (a b : Hit) : Q := (score_or_0 b - score_or_0 a)%Q.

(** Lines 161-174: combine, deduplicate, sort by score and limit. *)
Definition fuse (vectorResults traditionalResults : list Hit) (limit : Z)
  : Result (list Hit) :=
  bind (mapM id_string vectorResults) (λ keys,
    let vectorIds : gset string := list_to_set keys in
    bind (push_lexical vectorIds vectorResults traditionalResults) (λ combinedResults,
      Ok (slice0 limit (Array_sort by_score_desc combinedResults)))).

(** The two searches are calls to the vector index and the document store;
    their outcome for a query is given.  When both fail, [Promise.all]
    rejects with whichever failed first. *)
Section Search.
Variable vectorSearch : string → JsVal → Z → Result (list Hit).
Variable traditionalSearch : string → JsVal → Z → Result (list Hit).
Variable traditional_fails_first : bool.

Definition Promise_all2 {A B} (a : Result A) (b : Result B) : Result (A * B) :=
  match a, b with
  | Ok x, Ok y => Ok (x, y)
  | Throw e, Ok _ => Throw e
  | Ok _, Throw e => Throw e
  | Throw e1, Throw e2 => Throw (if traditional_fails_first then e2 else e1)
  end.

(** [hybridSearch(queryText, filters = {}, limit = 10)] (lines 153-179);
    the [catch] logs and throws the error again. *)
Definition hybridSearch (queryText : string) (filters : JsVal) (limit : option Z)
  : Result (list Hit) :=
  let filters := or_default (VObj ∅) filters in
  let limit := default 10 limit in
  bind (Promise_all2
          (vectorSearch queryText filters (ceil_share limit 7))
          (traditionalSearch queryText filters (ceil_share limit 3)))
    (λ '(vectorResults, traditionalResults),
      fuse vectorResults traditionalResults limit).
End Search.

End VectorSearch.

(* ===================================================================== *)
(** * src/models/conversation.js                                          *)
(* ===================================================================== *)

Module Conversation.

(** A stored message (conversation.js 38-48). *)
Record Message := {
  msg_id : string;
  role : string;
  content : JsVal;
  timestamp : Z;
  msg_metadata : gmap string JsVal
}.

(** The [metadata] sub-document of a conversation: the counter, the date
    and the type [addMessage] maintains, and the other keys written by
    [updateConversationMetadata]. *)
Record Metadata := {
  totalMessages : Z;
  lastActivity : Z;
  userType : string;
  merged : gmap string JsVal
}.

(** A conversation document, keyed by its [sessionId]. *)
Record Session := {
  userId : JsVal;
  isAuthenticated : bool;
  messages : list Message;
  updatedAt : Z;
  metadata : Metadata
}.

(** The [conversations] collection, one document per [sessionId]; every
    operation of the driver throws while the database is unreachable. *)
Inductive Db :=
| Online (sessions : gmap string Session)
| Offline (error : string).

(** The process state the model reads and writes: the collection, and how
    many values have been drawn from the clock and the [ObjectId]
    generator. *)
Record World := {
  db : Db;
  drawn : nat
}.

Inductive AddResult :=
| Added (messageId : string)              (* [{ success: true, messageId }] *)
| AddFailed (error : string).             (* [{ success: false, error }] *)

Inductive HistoryResult :=
| History (msgs : list Message) (meta : option Metadata)
                                          (* [{ success: true, messages, metadata }] *)
| HistoryFailed (error : string).         (* [{ success: false, error }] *)

Inductive UpdateResult :=
| Updated                                 (* [{ success: true }] *)
| UpdateFailed (error : string)           (* [{ success: false, error }] *)
| UpdateNotDescribed.                     (* see [patched] *)

(** The projection [{ $slice: n }] of an array: the first [n] elements, or
    the last [-n] when [n] is negative. *)
Definition slice_projection {A} (n : Z) (l : list A) : list A :=
  if 0 <=? n then take (Z.to_nat n) l
  else drop (length l - Z.to_nat (- n)) l.

Section Model.
(** [new ObjectId().toString()] and [new Date()], as the n-th value drawn. *)
Variable ObjectId_fresh : nat → string.
Variable Date_now : nat → Z.

Definition is_null (v : JsVal) : bool :=
  match v with
  | VNull => true
  | _ => false
  end.

(** The upsert of [addMessage]: [$push], [$inc] and [$set] on the stored
    document, or on the one inserted with [$setOnInsert]. *)
Definition upsert_message (message : Message) (now : Z) (userId : JsVal)
    (existing : option Session) : Session :=
  match existing with
  | Some s =>
      {| userId := Conversation.userId s;
         isAuthenticated := isAuthenticated s;
         messages := messages s ++ [message];
         updatedAt := now;
         metadata :=
           {| totalMessages := totalMessages (metadata s) + 1;
              lastActivity := now;
              userType := userType (metadata s);
              merged := merged (metadata s) |} |}
  | None =>
      {| userId := if truthy userId then userId else VNull;
         isAuthenticated := truthy userId;
         messages := [message];
         updatedAt := now;
         metadata :=
           {| totalMessages := 1;
              lastActivity := now;
              userType := if truthy userId then "authenticated" else "anonymous";
              merged := ∅ |} |}
  end.

(** [ConversationModel.addMessage] (conversation.js 35-85); [userId]
    defaults to [null].  The three dates the source reads in a row are
    one reading of the clock. *)
Definition addMessage (w : World) (sessionId : string) (role : string)
    (content : JsVal) (metadata : gmap string JsVal) (userId : JsVal)
  : World * AddResult :=
  let userId := or_default VNull userId in
  match db w with
  | Offline error => (w, AddFailed error)
  | Online sessions =>
      let n := drawn w in
      let message :=
        {| msg_id := ObjectId_fresh n;
           role := role;
           content := content;
           timestamp := Date_now n;
           msg_metadata :=
             <["isAuthenticated" := VBool (negb (is_null userId))]>
               (<["userId" := or_else userId VNull]> metadata) |} in
      let session := upsert_message message (Date_now n) userId (sessions !! sessionId) in
      ({| db := Online (<[sessionId := session]> sessions); drawn := S n |},
       Added (msg_id message))
  end.

(** [ConversationModel.getConversationHistory] (conversation.js 87-113);
    [limit] defaults to 20. *)
Definition getConversationHistory (w : World) (sessionId : string)
    (limit : option Z) : HistoryResult :=
  let limit := default 20 limit in
  match db w with
  | Offline error => HistoryFailed error
  | Online sessions =>
      match sessions !! sessionId with
      | None => History [] None
      | Some conversation =>
          History (slice_projection (- limit) (messages conversation))
                  (Some (metadata conversation))
      end
  end.

(** A key of a patch that names a field: the store reads an empty key,
    a dot and a leading dollar sign as parts of a path. *)
Definition field_name (key : string) : bool :=
  match key with
  | EmptyString => false
  | String c _ =>
      negb (Ascii.eqb c "$"%char)
      && all_chars (λ c, negb (Ascii.eqb c "."%char)) key
  end.

Definition field_names (patch : gmap string JsVal) : bool :=
  bool_decide (map_Forall (λ key _, field_name key = true) patch).

(** The [metadata] a patch leaves (conversation.js 121-128): every key
    [k] of the patch is written as [metadata.k], after the date of the
    update, so that the keys [totalMessages] and [userType] overwrite the
    counter and the type the model maintains.  The result is [None] when
    the documents of this development cannot hold it: a key that is not a
    field name, a counter that is not an integer, a type that is not a
    text, or anything written over the date [lastActivity]. *)
Definition patched (now : Z) (patch : gmap string JsVal) (m : Metadata)
  : option Metadata :=
  if field_names patch then
    match patch !! "lastActivity",
          match patch !! "totalMessages" with
          | None => Some (totalMessages m)
          | Some (VNum (Num z)) => Some z
          | Some _ => None
          end,
          match patch !! "userType" with
          | None => Some (userType m)
          | Some (VStr s) => Some s
          | Some _ => None
          end with
    | None, Some counter, Some type =>
        Some {| totalMessages := counter;
                lastActivity := now;
                userType := type;
                merged := delete "totalMessages" (delete "userType" patch)
                          ∪ merged m |}
    | _, _, _ => None
    end
  else None.

(** [ConversationModel.updateConversationMetadata] (conversation.js
    115-137): the keys of the patch are written under [metadata] of the
    stored session; without a stored session nothing is written.  A
    patch whose result the documents of this development cannot hold is
    answered [UpdateNotDescribed]. *)
Definition updateConversationMetadata (w : World) (sessionId : string)
    (patch : gmap string JsVal) : World * UpdateResult :=
  match db w with
  | Offline error => (w, UpdateFailed error)
  | Online sessions =>
      let n := drawn w in
      match sessions !! sessionId with
      | Some s =>
          match patched (Date_now n) patch (metadata s) with
          | Some m =>
              let s' :=
                {| userId := Conversation.userId s;
                   isAuthenticated := isAuthenticated s;
                   messages := messages s;
                   updatedAt := Date_now n;
                   metadata := m |} in
              ({| db := Online (<[sessionId := s']> sessions); drawn := S n |},
               Updated)
          | None => (w, UpdateNotDescribed)
          end
      | None =>
          if field_names patch
          then ({| db := Online sessions; drawn := S n |}, Updated)
          else (w, UpdateNotDescribed)
      end
  end.
End Model.

End Conversation.

(* ===================================================================== *)
(** * src/agents/rental-rag-agent.js                                      *)
(* ===================================================================== *)

Module Agent.
Import Rental VectorSearch.

(** A tool invocation as the run reports it ([item.rawItem]): the
    arguments are the text the model produced, or an object. *)
Record RawToolCall := {
  raw_name : string;
  raw_arguments : JsVal
}.

(** An element of [result.newItems]. *)
Record RunItem := {
  item_type : string;
  rawItem : option RawToolCall
}.

(** What [run(agent, history)] resolves to. *)
Record RunResult := {
  finalOutput : option string;
  newItems : option (list RunItem)
}.

(** An extracted tool call: [{ name, arguments }]. *)
Record ToolCall := {
  name : string;
  arguments : JsVal
}.

(** The fields of the agent instance that outlive a call. *)
Record AgentState := {
  currentUserId : JsVal;
  lastSearchResults : option (list Hit)
}.

(** What [chat] resolves to. *)
Inductive AgentResponse :=
| ChatOk (message : option string) (toolCalls : list ToolCall)
         (metadata : gmap string JsVal)   (* [{ success: true, ... }] *)
| ChatFailed (message : string) (error : string).
                                          (* [{ success: false, message, error }] *)

Definition chat_error_message : string :=
  "I'm sorry, I encountered an error while processing your request. Please try again.".

Section Runtime.
(** [JSON.parse]: [None] when it throws. *)
Variable JSON_parse : string → option JsVal.
(** The agent runtime: given the agent's fields and the user turns, the
    fields after the tools it ran and the result, or the error thrown. *)
Variable run : AgentState → list JsVal → AgentState * Result RunResult.
(** The text [handleSearchRentals] returns for a list of results it could
    format. *)
Variable JSON_stringify_results : JsVal → JsVal → list Hit → string.

(** Lines 405-420: the call recorded for one item of the run. *)
Definition tool_call_of (item : RunItem) : option ToolCall :=
  if String.eqb (item_type item) "tool_call_item" then
    match rawItem item with
    | Some toolCall =>
        let parsedArguments :=
          match raw_arguments toolCall with
          | VStr text =>
              match JSON_parse text with
              | Some v => v
              | None => VStr text
              end
          | v => v
          end in
        Some {| name := raw_name toolCall; arguments := parsedArguments |}
    | None => None
    end
  else None.

(** [extractToolCallsFromResult(result)] (lines 385-432): [null] when no
    tool was called. *)
Definition extractToolCallsFromResult (result : RunResult) : option (list ToolCall) :=
  let toolCalls :=
    match newItems result with
    | Some items => omap tool_call_of items
    | None => []
    end in
  if (0 <? length toolCalls)%nat then Some toolCalls else None.

Definition named (n : string) (call : ToolCall) : bool := String.eqb (name call) n.

(** Lines 443-461: the keys written for the last [searchRentals] call. *)
Definition search_entries (st : AgentState) (lastSearch : ToolCall)
    (userMessage : string) (metadata : gmap string JsVal) : gmap string JsVal :=
  let metadata := <["search_type" := VStr "rental_search"]> metadata in
  let metadata :=
    <["search_query" := or_else (opt_prop (arguments lastSearch) "query") (VStr userMessage)]>
      metadata in
  let metadata :=
    <["search_filters" := or_else (opt_prop (arguments lastSearch) "filters") (VObj ∅)]>
      metadata in
  let metadata :=
    <["search_limit" := or_else (opt_prop (arguments lastSearch) "limit") (VNum (Num 5))]>
      metadata in
  match lastSearchResults st with
  | Some results => <["rental_ids" := VArr (hit_id <$> results)]> metadata
  | None => metadata
  end.

(** [extractSearchMetadata(toolCalls, userMessage)] (lines 435-471). *)
Definition extractSearchMetadata (st : AgentState)
    (toolCalls : option (list ToolCall)) (userMessage : string)
  : gmap string JsVal :=
  match toolCalls with
  | None | Some [] => ∅
  | Some toolCalls =>
      let metadata : gmap string JsVal := ∅ in
      let searchCalls := filter (λ call, named "searchRentals" call = true) toolCalls in
      let metadata :=
        match last searchCalls with
        | Some lastSearch => search_entries st lastSearch userMessage metadata
        | None => metadata
        end in
      let detailsCalls := filter (λ call, named "getPropertyDetails" call = true) toolCalls in
      match detailsCalls with
      | _ :: _ =>
          <["property_ids" :=
              VArr ((λ call, opt_prop (arguments call) "propertyId") <$> detailsCalls)]>
            (<["property_details_requested" := VBool true]> metadata)
      | [] => metadata
      end
  end.

(** Lines 325-336: only the user turns of the stored history are sent. *)
Definition user_turns (conversationHistory : list (string * JsVal)) : list JsVal :=
  omap (λ '(r, c), if String.eqb r "user" then Some c else None) conversationHistory.

Definition output_has (marker : string) (result : RunResult) : bool :=
  match finalOutput result with
  | Some text => includes marker text
  | None => false
  end.

(** [chat(userMessage, conversationHistory, userId)] (lines 311-382); an
    error of the run is caught and turned into a failure response. *)
Definition chat (st : AgentState) (userMessage : string)
    (conversationHistory : list (string * JsVal)) (userId : JsVal)
  : AgentState * AgentResponse :=
  let st := {| currentUserId := userId; lastSearchResults := lastSearchResults st |} in
  let history := user_turns conversationHistory ++ [VStr userMessage] in
  match run st history with
  | (st', Throw error) => (st', ChatFailed chat_error_message error)
  | (st', Ok result) =>
      let extractedToolCalls := extractToolCallsFromResult result in
      let searchPerformed :=
        match extractedToolCalls with
        | Some calls =>
            existsb (λ call, named "searchRentals" call || named "getPropertyDetails" call)
                    calls
        | None => false
        end in
      let messageHasSearchResults :=
        output_has "*search_performed: true*" result
        || output_has "search_performed: true" result
        || output_has "Search performed: true" result
        || searchPerformed in
      let searchMetadata := extractSearchMetadata st' extractedToolCalls userMessage in
      (st', ChatOk (finalOutput result) (default [] extractedToolCalls)
                   (searchMetadata ∪ {[ "search_performed" := VBool messageHasSearchResults ]}))
  end.

(** Line 155: formatting a result calls [substring] on its description
    when it is truthy, which throws unless the description is a string. *)
Definition description_breaks (rental : Hit) : bool :=
  match hit_fields rental !! "description" with
  | None | Some (VStr _) => false
  | Some description => truthy description
  end.

(** [handleSearchRentals({ query, filters, limit })] (lines 123-166), the
    body of the [searchRentals] tool, for a given outcome of
    [hybridSearch]: a failed search is reported to the model as text, and
    so is an error thrown while the results are formatted, after which
    the results stored for the metadata are dropped. *)
Definition handleSearchRentals (st : AgentState) (query filters : JsVal)
    (outcome : Result (list Hit)) : AgentState * string :=
  match outcome with
  | Ok [] =>
      ({| currentUserId := currentUserId st; lastSearchResults := Some [] |},
       "No rental properties found matching your criteria. Try adjusting your search terms or filters.")
  | Ok results =>
      if existsb description_breaks results then
        ({| currentUserId := currentUserId st; lastSearchResults := Some [] |},
         "I encountered an error while searching for rentals: "
           +:+ "rental.description.substring is not a function"
           +:+ ". Please try again.")
      else
        ({| currentUserId := currentUserId st; lastSearchResults := Some results |},
         JSON_stringify_results query filters results)
  | Throw message =>
      ({| currentUserId := currentUserId st; lastSearchResults := Some [] |},
       "I encountered an error while searching for rentals: " +:+ message
         +:+ ". Please try again.")
  end.
End Runtime.

End Agent.

(* ===================================================================== *)
(** * src/controllers/chat.controller.js                                  *)
(* ===================================================================== *)

Module Chat.
Import Conversation Agent.

(** The argument of [handleChatMessage]. *)
Record ChatRequest := {
  message : string;
  conversation_history : list (string * JsVal);
  context : gmap string JsVal;
  sessionId : option string;              (* [null] by default *)
  userId : JsVal                          (* [null] for an anonymous user *)
}.

(** What [handleChatMessage] resolves to. *)
Inductive ChatResponse :=
| Reply (message : option string) (sessionId : string) (timestamp : string)
        (context : gmap string JsVal)     (* [{ success: true, ... }] *)
| Failure (message : string) (error : option string) (sessionId : string).
                                          (* [{ success: false, ... }] *)

Definition controller_error_message : string :=
  "I'm having trouble processing your request right now. Please try again.".

Definition dquote : string := String (ascii_of_nat 34) EmptyString.

(** [Object.keys(v).length] *)
Definition key_count (v : JsVal) : nat :=
  match v with
  | VObj o => size o
  | VArr items => length items
  | VStr s => String.length s
  | _ => 0%nat
  end.

Definition push_if (c : bool) (d : string) (descriptions : list string) : list string :=
  if c then descriptions ++ [d] else descriptions.

(** [formatFilters(filters)] (chat.controller.js 236-262). *)
Definition formatFilters (filters : JsVal) : string :=
  let f := opt_prop filters in
  let descriptions : list string := [] in
  let descriptions :=
    push_if (truthy (f "property_type"))
            ("property type: " +:+ display (f "property_type")) descriptions in
  let descriptions :=
    push_if (truthy (f "min_price") || truthy (f "max_price"))
            (if truthy (f "min_price") && truthy (f "max_price")
             then "price: $" +:+ display (f "min_price") +:+ "-$"
                    +:+ display (f "max_price") +:+ "/night"
             else if truthy (f "min_price")
             then "minimum price: $" +:+ display (f "min_price") +:+ "/night"
             else "maximum price: $" +:+ display (f "max_price") +:+ "/night")
            descriptions in
  let descriptions :=
    push_if (truthy (f "min_bedrooms"))
            (display (f "min_bedrooms") +:+ "+ bedrooms") descriptions in
  let descriptions :=
    push_if (truthy (f "min_accommodates"))
            (display (f "min_accommodates") +:+ "+ guests") descriptions in
  let descriptions :=
    push_if (is_string_true (f "superhost_only")) "superhosts only" descriptions in
  join ", " descriptions.

(** [text.replace(/^, /, '')] *)
Definition drop_leading_comma (text : string) : string :=
  match text with
  | String ","%char (String " "%char rest) => rest
  | _ => text
  end.

(** Lines 58-62: the sentence about the property being viewed; reading a
    key of a missing [features] throws. *)
Definition property_sentence (property : JsVal) : Result string :=
  let location := opt_prop property "location" in
  let locationStr :=
    if truthy location then
      drop_leading_comma
        (display (or_else (opt_prop location "neighbourhood")
                    (or_else (opt_prop location "market") (VStr "")))
           +:+ ", " +:+ display (or_else (opt_prop location "country") (VStr "")))
    else "Unknown location" in
  match opt_prop property "features" with
  | VUndef => Throw "Cannot read properties of undefined (reading 'property_type')"
  | VNull => Throw "Cannot read properties of null (reading 'property_type')"
  | features =>
      Ok (" User is currently viewing property: " +:+ dquote
            +:+ display (opt_prop property "name") +:+ dquote
            +:+ " (ID: " +:+ display (opt_prop property "id") +:+ ") - "
            +:+ display (or_else (opt_prop features "property_type") (VStr "Property"))
            +:+ " for $" +:+ display (opt_prop property "price") +:+ "/night in "
            +:+ locationStr +:+ ", "
            +:+ display (or_else (opt_prop features "bedrooms") (VNum (Num 0)))
            +:+ " bedrooms, accommodates "
            +:+ display (or_else (opt_prop features "accommodates") (VNum (Num 0)))
            +:+ " guests.")
  end.

(** Lines 47-62: the message sent to the agent, enhanced with the context. *)
Definition enhance (message : string) (context : gmap string JsVal) : Result string :=
  let enhancedMessage :=
    if truthy (prop context "current_search")
    then "User is currently searching for: " +:+ dquote
           +:+ display (prop context "current_search") +:+ dquote +:+ ". " +:+ message
    else message in
  let enhancedMessage :=
    if truthy (prop context "filters") && (0 <? key_count (prop context "filters"))%nat
    then enhancedMessage +:+ " Current filters: "
           +:+ formatFilters (prop context "filters") +:+ "."
    else enhancedMessage in
  if truthy (prop context "current_property")
  then bind (property_sentence (prop context "current_property"))
            (λ sentence, Ok (enhancedMessage +:+ sentence))
  else Ok enhancedMessage.

Section Controller.
Variable ObjectId_fresh : nat → string.
Variable Date_now : nat → Z.
Variable toISOString : Z → string.
Variable JSON_parse : string → option JsVal.
Variable run : AgentState → list JsVal → AgentState * Result RunResult.
(** Whether [process.env.NODE_ENV] is ['development']. *)
Variable development : bool.

Definition add := addMessage ObjectId_fresh Date_now.

(** [new Date().toISOString()] *)
Definition iso_now (w : World) : World * string :=
  ({| db := db w; drawn := S (drawn w) |}, toISOString (Date_now (drawn w))).

(** Lines 16-19: the session identifier, generated when none is given. *)
Definition session_of (w : World) (sessionId : option string) : World * string :=
  match sessionId with
  | Some s =>
      if truthy (VStr s) then (w, s)
      else ({| db := db w; drawn := S (drawn w) |}, ObjectId_fresh (drawn w))
  | None => ({| db := db w; drawn := S (drawn w) |}, ObjectId_fresh (drawn w))
  end.

(** Lines 21-31: the history sent to the agent. *)
Definition history_to_use (w : World) (sessionId : string)
    (conversation_history : list (string * JsVal)) : list (string * JsVal) :=
  match conversation_history with
  | [] =>
      match getConversationHistory w sessionId None with
      | History msgs _ => (λ msg, (role msg, content msg)) <$> msgs
      | HistoryFailed _ => conversation_history
      end
  | _ :: _ => conversation_history
  end.

Definition opt_str (o : option string) : JsVal :=
  match o with
  | Some s => VStr s
  | None => VUndef
  end.

(** Lines 82-127: a successful answer of the agent is stored, the session
    metadata is updated and the answer is returned. *)
Definition reply (w : World) (req : ChatRequest) (sessionId : string)
    (answer : option string) (toolCalls : list ToolCall)
    (metadata : gmap string JsVal) : World * ChatResponse :=
  let tool_calls_made := VNum (Num (Z.of_nat (length toolCalls))) in
  let has_rental_results := or_else (prop metadata "search_performed") (VBool false) in
  let '(w, stamp) := iso_now w in
  let '(w, _) :=
    add w sessionId "assistant" (opt_str answer)
      (<["tool_calls_made" := tool_calls_made]>
         (<["has_rental_results" := has_rental_results]>
            (<["search_metadata" := VObj metadata]>
               {[ "timestamp" := VStr stamp ]})))
      (userId req) in
  let '(w, _) :=
    updateConversationMetadata Date_now w sessionId
      (<["lastUserMessage" := VStr (message req)]>
         (<["lastAssistantResponse" := opt_str answer]>
            (<["toolCallsInSession" := tool_calls_made]>
               (<["lastSearchMetadata" := VObj metadata]>
                  (<["isAuthenticated" := VBool (negb (is_null (userId req)))]>
                     {[ "userId" := userId req ]}))))) in
  let '(w, stamp) := iso_now w in
  (w, Reply answer sessionId stamp
        (<["tool_calls_made" := tool_calls_made]>
           (<["has_rental_results" := has_rental_results]>
              {[ "search_metadata" := VObj metadata ]}))).

(** [handleChatMessage] (chat.controller.js 12-154).  The calls that only
    touch the users collection (activity tracking, search history,
    statistics) catch their own errors and are left out. *)
Definition handleChatMessage (w : World) (st : AgentState) (req : ChatRequest)
  : World * AgentState * ChatResponse :=
  let '(w, sessionId) := session_of w (sessionId req) in
  let historyToUse := history_to_use w sessionId (conversation_history req) in
  let '(w, stamp) := iso_now w in
  let '(w, _) :=
    add w sessionId "user" (VStr (message req))
      (<["context" := VObj (context req)]> {[ "timestamp" := VStr stamp ]})
      (userId req) in
  match enhance (message req) (context req) with
  | Throw error =>
      (* lines 128-153 *)
      let '(w, _) :=
        add w sessionId "assistant" (VStr controller_error_message)
          (<["error" := VBool true]> {[ "error_details" := VStr error ]})
          (userId req) in
      (w, st, Failure controller_error_message
                (if development then Some error else None) sessionId)
  | Ok enhancedMessage =>
      match chat JSON_parse run st enhancedMessage historyToUse (userId req) with
      | (st, ChatFailed text error) =>
          (* lines 67-80 *)
          let '(w, _) :=
            add w sessionId "assistant" (VStr text)
              (<["error" := VBool true]> {[ "error_details" := VStr error ]})
              (userId req) in
          (w, st, Failure text (Some error) sessionId)
      | (st, ChatOk answer toolCalls metadata) =>
          let '(w, response) := reply w req sessionId answer toolCalls metadata in
          (w, st, response)
      end
  end.

(** [getConversationHistory(sessionId, limit)] of the controller (lines
    276-287), behind [GET /history/:sessionId]. *)
Definition getHistory (w : World) (sessionId : string) (limit : option Z)
  : list Message :=
  match getConversationHistory w sessionId limit with
  | History msgs _ => msgs
  | HistoryFailed _ => []
  end.
End Controller.

End Chat.

(* ===================================================================== *)
(** * Vocabulary of the properties                                        *)
(* ===================================================================== *)

Import Rental VectorSearch Conversation Agent Chat.

(** [a] is ranked above [b] in a result list. *)
Definition ranked_above {A} (a b : A) (l : list A) : Prop :=
  ∃ l1 l2 l3, l = l1 ++ a :: l2 ++ b :: l3.

(** The identity of a result: the text of its [_id]. *)
Definition identity (r : Hit) : string := display (hit_id r).

(** A result of the fused list is a semantic hit when its identity is that
    of a vector result, and a lexical-only hit otherwise. *)
Definition semantic_hit (vectorResults : list Hit) (r : Hit) : Prop :=
  identity r ∈ identity <$> vectorResults.

#[global] Instance semantic_hit_dec vectorResults r :
  Decision (semantic_hit vectorResults r).
Proof. unfold semantic_hit. apply _. Defined.

(** The results only the lexical search returned, with the score the
    fusion gives them. *)
Definition lexical_only (vs ts : list Hit) : list Hit :=
  with_score lexical_score <$> filter (λ t, ¬ semantic_hit vs t) ts.

(** Case-insensitive partial match of a text in a field value. *)
Definition ci_includes (needle hay : string) : bool :=
  includes (toLowerCase needle) (toLowerCase hay).

(** The three address fields a location may be looked up in. *)
Definition location_fields : list string :=
  ["address.neighbourhood"; "address.market"; "address.country"].

(** A text that is read as a finite number, if it is read as a number:
    the integer it spells is below the half-way point between the largest
    double and 2^1024, from which [parseInt] gives [Infinity]. *)
Definition reads_finite (t : string) : Prop :=
  ∀ z, read_integer t = Some z → Z.abs z < 2 ^ 1024 - 2 ^ 970.

(** The text of a list element of [ids]: [id.toString().trim()]. *)
Definition id_text (id : JsVal) : Result string :=
  bind (toString id) (λ s, Ok (trim s)).

(** ** Example data *)

(** A list of identifiers in both encodings, sent along with a price
    filter. *)
Definition mixed_ids_params : Params :=
  <["ids" := VStr "5f8d0d55b54764421b7156c1, 123"]> {[ "min_price" := VStr "999999" ]}.

(** A regular-expression engine for patterns without operators: with the
    option [i], such a pattern matches the texts it occurs in, whatever
    the case. *)
Definition literal_regex (pattern options subject : string) : bool :=
  if includes "i" options then ci_includes pattern subject
  else includes pattern subject.

(** A store without a text index. *)
Definition no_text_index (search : JsVal) (d : Document) : bool := false.

(** A vector result with a low similarity score, one with a high score,
    and two results of the lexical search, one of them a duplicate. *)
Definition hit (id : Z) (score : option Q) : Hit :=
  {| hit_id := VNum (Num id); hit_score := score; hit_fields := ∅ |}.

Definition weak_semantic : Hit := hit 1 (Some (3 # 10)).
Definition strong_semantic : Hit := hit 2 (Some (9 # 10)).
Definition lexical_dup : Hit := hit 2 None.
Definition lexical_new : Hit := hit 3 None.

(** A listing whose description is a number. *)
Definition numbered_description : Hit :=
  {| hit_id := VNum (Num 7); hit_score := Some (9 # 10);
     hit_fields := {[ "description" := VNum (Num 2024) ]} |}.


(** A stored session of five messages. *)
Definition numbered_message (i : Z) : Message :=
  {| msg_id := num_toString (Num i);
     role := if Z.odd i then "user" else "assistant";
     content := VStr (num_toString (Num i));
     timestamp := i;
     msg_metadata := ∅ |}.

Definition five_messages : Session :=
  {| Conversation.userId := VNull;
     isAuthenticated := false;
     messages := numbered_message <$> [1; 2; 3; 4; 5];
     updatedAt := 5;
     metadata := {| totalMessages := 5; lastActivity := 5;
                    userType := "anonymous"; merged := ∅ |} |}.

(** An agent that has not searched yet, and calls of its tools: a search
    with a query and a limit, a search whose arguments could not be
    parsed, a look-up of the details of a listing. *)
Definition idle_agent : AgentState :=
  {| currentUserId := VNull; lastSearchResults := None |}.

Definition search_call (query : string) (limit : Z) : ToolCall :=
  {| name := "searchRentals";
     arguments := VObj (<["query" := VStr query]>
                          (<["filters" := VObj {[ "location" := VStr "Porto" ]}]>
                             {[ "limit" := VNum (Num limit) ]})) |}.

Definition bare_search_call : ToolCall :=
  {| name := "searchRentals"; arguments := VStr "{query: beach" |}.


(** A turn on an empty store with a runtime that is down: identifiers and
    dates are numbered as they are drawn, no argument text parses, and
    every run throws. *)
Definition numbered_oid (n : nat) : string := num_toString (Num (Z.of_nat n)).
Definition tick_clock (n : nat) : Z := Z.of_nat n.
Definition tick_text (t : Z) : string := num_toString (Num t).
Definition no_json (text : string) : option JsVal := None.

Definition failing_run (st : AgentState) (history : list JsVal)
  : AgentState * Result RunResult :=
  (st, Throw "model unavailable").

Definition empty_world : World := {| db := Online ∅; drawn := 0 |}.

(** A turn in which the model calls the search tool while the vector
    index is down, and then answers: the run executes the tool on the
    outcome of the search and resolves with the answer of the model. *)
Definition failed_search : Result (list Hit) :=
  hybridSearch (λ _ _ _, Throw "vector index unavailable")
    (λ _ _ _, Ok [lexical_new]) false "beach house" (VObj ∅) (Some 5).

Definition run_after_failed_search (st : AgentState) (history : list JsVal)
  : AgentState * Result RunResult :=
  let '(st', observation) :=
    handleSearchRentals (λ _ _ _, "") st (VStr "beach house") (VObj ∅)
      failed_search in
  (st',
   Ok {| finalOutput := Some "I could not search right now, please try again.";
         newItems :=
           Some [ {| item_type := "tool_call_item";
                     rawItem :=
                       Some {| raw_name := "searchRentals";
                               raw_arguments :=
                                 VObj {[ "query" := VStr "beach house" ]} |} |} ] |}).

Definition hello_request : ChatRequest :=
  {| message := "a house by the beach";
     conversation_history := [];
     context := ∅;
     sessionId := None;
     Chat.userId := VNull |}.

(* ===================================================================== *)
(** * More of the sources                                                 *)
(* ===================================================================== *)

(** ** src/models/rental.js and its controller: look-up and pagination *)

Module Listing.

(** [RentalModel.isValidId(id)] (rental.js 99-101). *)
Definition isValidId (id : JsVal) : bool :=
  match id with
  | VStr s => negb (Nat.eqb (String.length s) 0)
  | _ => false
  end.

(** The query [findById] looks a listing up with (rental.js 219-234);
    [updateById] and [deleteById] build the same one. *)
Definition findById_query (id : JsVal) : Result Query :=
  match id with
  | VStr s =>
      if isValidId id then Ok {[ "_id" := EField (CEq (id_of_text s)) ]}
      else Throw "Invalid rental ID format"
  | _ => Throw "Invalid rental ID format"
  end.





End Listing.

(** ** src/services/vector-search.service.js: the lexical search and the
    look-up of one property *)

Module Lexical.

(** The query of [traditionalSearch] (vector-search.service.js 186-205). *)
Definition traditional_query (queryText : string) (filters : JsVal) : Query :=
  let searchQuery : Query :=
    {[ "$or" := EOr [("name", CRegex (VStr queryText) "i");
                     ("description", CRegex (VStr queryText) "i");
                     ("address.neighbourhood", CRegex (VStr queryText) "i");
                     ("address.market", CRegex (VStr queryText) "i");
                     ("property_type", CRegex (VStr queryText) "i")] ]} in
  let searchQuery :=
    set_if (truthy filters && truthy (opt_prop filters "property_type"))
      "property_type" (EField (CEq (opt_prop filters "property_type")))
      searchQuery in
  let searchQuery :=
    set_if (truthy filters
            && (truthy (opt_prop filters "min_price")
                || truthy (opt_prop filters "max_price")))
      "price"
      (EField (CRange (bound (opt_prop filters "min_price"))
                      (bound (opt_prop filters "max_price"))))
      searchQuery in
  searchQuery.

(** The query of [getPropertyById] (vector-search.service.js 240-255, the
    definition that stands, being the second of the class): calling
    [match] on a value that is not a string throws. *)
Definition getPropertyById_query (propertyId : JsVal) : Result Query :=
  match propertyId with
  | VStr s =>
      if ObjectId_isValid s then Ok {[ "_id" := EField (CEq (new_ObjectId s)) ]}
      else Ok {[ "$or" := EOr [("_id", CEq (VStr s));
                               ("id", CEq (VStr s));
                               ("listing_id", CEq (VStr s))] ]}
  | VUndef => Throw "Cannot read properties of undefined (reading 'match')"
  | VNull => Throw "Cannot read properties of null (reading 'match')"
  | _ => Throw "propertyId.match is not a function"
  end.

Section Store.
(** Whether the database is connected. *)
Variable isConnected : bool.
(** [collection.findOne(query)]: the document found, if any, or the error
    of the driver. *)
Variable findOne : Query → Result (option Document).
(** [JSON.stringify(details)] for the details of a property. *)
Variable JSON_stringify_details : Document → string.

(** [DatabaseManager.getDatabase()] (the database class, lines 232-237). *)
Definition getDatabase : Result unit :=
  if isConnected then Ok () else Throw "Database not connected".

(** [getPropertyById(propertyId)] (lines 235-263): the database is asked
    for first, then the query is built and run; the [catch] logs and
    throws the error again. *)
Definition getPropertyById (propertyId : JsVal) : Result (option Document) :=
  bind getDatabase (λ _,
    bind (getPropertyById_query propertyId) findOne).

(** [handleGetPropertyDetails({ propertyId })] of the agent
    (rental-rag-agent.js 168-225), the body of the [getPropertyDetails]
    tool. *)
Definition handleGetPropertyDetails (propertyId : JsVal) : string :=
  match getPropertyById propertyId with
  | Ok (Some property) => JSON_stringify_details property
  | Ok None => "Property with ID " +:+ display propertyId +:+ " not found."
  | Throw message =>
      "I encountered an error while getting property details: " +:+ message
        +:+ ". Please try again."
  end.
End Store.

End Lexical.

(** ** src/models/conversation.js: deleting a conversation *)

Module Sessions.

Inductive DeleteResult :=
| Deleted (deletedCount : Z)              (* [{ success: true, deletedCount }] *)
| DeleteFailed (error : string).          (* [{ success: false, error }] *)

(** [ConversationModel.deleteConversation] (conversation.js 139-148). *)
Definition deleteConversation (w : World) (sessionId : string)
  : World * DeleteResult :=
  match db w with
  | Offline error => (w, DeleteFailed error)
  | Online sessions =>
      ({| db := Online (delete sessionId sessions); drawn := drawn w |},
       Deleted (if sessions !! sessionId is Some _ then 1 else 0))
  end.

End Sessions.

(** ** src/controllers/chat.controller.js and src/routes/chat.routes.js:
    streamed turns and the history route *)

Module Streaming.

(** Lines 192-201 of the controller: the message of a streamed turn,
    enhanced with the search and the filters of the context. *)
Definition enhance_stream (message : string) (context : gmap string JsVal) : string :=
  let enhancedMessage :=
    if truthy (prop context "current_search")
    then "User is currently searching for: " +:+ dquote
           +:+ display (prop context "current_search") +:+ dquote +:+ ". " +:+ message
    else message in
  if truthy (prop context "filters") && (0 <? key_count (prop context "filters"))%nat
  then enhancedMessage +:+ " Current filters: "
         +:+ formatFilters (prop context "filters") +:+ "."
  else enhancedMessage.

Definition stream_error_message : string :=
  "I'm having trouble processing your streaming request.".

(** What [handleStreamChat] resolves to: [{ success: true, stream,
    sessionId, timestamp }]. *)
Record StreamResponse (Stream : Type) := {
  stream : Stream;
  stream_sessionId : string;
  stream_timestamp : string
}.
Arguments stream {Stream} _.
Arguments stream_sessionId {Stream} _.
Arguments stream_timestamp {Stream} _.

Section Controller.
Variable ObjectId_fresh : nat → string.
Variable Date_now : nat → Z.
Variable toISOString : Z → string.
(** The stream of a run, and the streamed run of the agent runtime on a
    message and the turns sent along, or the error it throws. *)
Variable Stream : Type.
Variable run_stream : string → list (string * JsVal) → Result Stream.

(** [rentalRAGAgent.streamChat(userMessage, conversationHistory)]
    (rental-rag-agent.js 473-493); the [catch] logs and throws again. *)
Definition streamChat (userMessage : string)
    (conversationHistory : list (string * JsVal)) : Result Stream :=
  run_stream userMessage (conversationHistory ++ [("user", VStr userMessage)]).

(** [handleStreamChat] (chat.controller.js 156-234): the error of the
    stream is recorded in the session and thrown again. *)
Definition handleStreamChat (w : World) (req : ChatRequest)
  : World * Result (StreamResponse Stream) :=
  let '(w, sessionId) := session_of ObjectId_fresh w (sessionId req) in
  let historyToUse := history_to_use w sessionId (conversation_history req) in
  let '(w, stamp) := iso_now Date_now toISOString w in
  let '(w, _) :=
    addMessage ObjectId_fresh Date_now w sessionId "user" (VStr (message req))
      (<["context" := VObj (context req)]>
         (<["stream_request" := VBool true]> {[ "timestamp" := VStr stamp ]}))
      (Chat.userId req) in
  let enhancedMessage := enhance_stream (message req) (context req) in
  match streamChat enhancedMessage historyToUse with
  | Ok stream =>
      let '(w, stamp) := iso_now Date_now toISOString w in
      (w, Ok {| stream := stream; stream_sessionId := sessionId;
                stream_timestamp := stamp |})
  | Throw error =>
      let '(w, _) :=
        addMessage ObjectId_fresh Date_now w sessionId "assistant"
          (VStr stream_error_message)
          (<["error" := VBool true]>
             (<["stream_request" := VBool true]> {[ "error_details" := VStr error ]}))
          (Chat.userId req) in
      (w, Throw error)
  end.
End Controller.

(** [parseInt(limit) || 20] of [GET /chat/history/:sessionId]
    (chat.routes.js 100-103). *)
Definition history_route_limit (limit : JsVal) : Z :=
  match parseInt_val limit with
  | NaN => 20
  | Num z => if z =? 0 then 20 else z
  end.

(** The [history] and the [count] the route answers with. *)
Definition history_route (w : World) (sessionId : string) (limit : JsVal)
  : list Message * nat :=
  let history := getHistory w sessionId (Some (history_route_limit limit)) in
  (history, length history).

End Streaming.

(** ** Vocabulary of the further properties *)

(** The fields [buildSearchQuery] reads. *)
Definition recognised_fields : list string :=
  ["ids"; "text"; "location"; "property_type"; "room_type"; "country";
   "min_price"; "max_price"; "min_bedrooms"; "min_bathrooms";
   "min_accommodates"; "superhost_only"; "instant_bookable"; "min_rating"].

(** The fields the lexical search of the hybrid engine looks the text up
    in. *)
Definition text_fields : list string :=
  ["name"; "description"; "address.neighbourhood"; "address.market";
   "property_type"].

(** A parameter map with a location, and the same with a field the
    builder does not know. *)
Definition porto_params : Params := {[ "location" := VStr "porto" ]}.
Definition porto_params_extra : Params :=
  <["colour" := VStr "red"]> {[ "location" := VStr "porto" ]}.

(** Filters as the search tool passes them, with a flag that is a
    boolean. *)
Definition tool_filters : gmap string JsVal :=
  <["superhost_only" := VBool true]>
    (<["location" := VStr "Porto"]> {[ "min_price" := VNum (Num 50) ]}).

(** A listing stored under a number. *)
Definition listing_123 : Document :=
  <["_id" := VNum (Num 123)]> {[ "name" := VStr "Loft" ]}.

(** The scenario of a bad upper bound. *)
Definition bad_max_price_params : Params :=
  <["min_price" := VStr "50"]> {[ "max_price" := VStr "abc" ]}.

(** Filters that differ in what the lexical search does not read. *)
Definition loft_filters : gmap string JsVal :=
  <["property_type" := VStr "Loft"]> {[ "max_price" := VNum (Num 200) ]}.
Definition loft_filters_in_Porto : gmap string JsVal :=
  <["location" := VStr "Porto"]>
    (<["min_bedrooms" := VNum (Num 2)]>
       (<["property_type" := VStr "Loft"]> {[ "max_price" := VNum (Num 200) ]})).

(** The messages and the counter of a session, empty and 0 when it is not
    stored. *)
Definition stored_messages (sessions : gmap string Session) (sid : string)
  : list Message :=
  from_option messages [] (sessions !! sid).

Definition stored_total (sessions : gmap string Session) (sid : string) : Z :=
  from_option (λ c, totalMessages (metadata c)) 0 (sessions !! sid).

(** From [sessions] to [sessions'], the messages [new] were appended to
    the session [sid] and nothing else happened to the messages: the
    other sessions are as they were, the session is stored, its earlier
    messages are kept in front of the new ones, its counter grew by their
    number, and the owner it was created for is unchanged. *)
Definition appended (sessions sessions' : gmap string Session) (sid : string)
    (new : list Message) : Prop :=
  (∀ sid', sid' ≠ sid → sessions' !! sid' = sessions !! sid')
  ∧ is_Some (sessions' !! sid)
  ∧ stored_messages sessions' sid = stored_messages sessions sid ++ new
  ∧ stored_total sessions' sid = stored_total sessions sid + Z.of_nat (length new)
  ∧ (∀ c c', sessions !! sid = Some c → sessions' !! sid = Some c' →
       Conversation.userId c' = Conversation.userId c
       ∧ isAuthenticated c' = isAuthenticated c
       ∧ userType (metadata c') = userType (metadata c)).

(** A patch of field names that writes none of the three fields of
    [metadata] the model maintains, as the patch the controller writes
    after a turn. *)
Definition plain_patch (patch : gmap string JsVal) : Prop :=
  field_names patch = true
  ∧ patch !! "totalMessages" = None
  ∧ patch !! "userType" = None
  ∧ patch !! "lastActivity" = None.

(** The counter of every stored session is the number of its messages. *)
Definition counted (w : World) : Prop :=
  match db w with
  | Online sessions =>
      map_Forall (λ _ c, totalMessages (metadata c) = Z.of_nat (length (messages c)))
                 sessions
  | Offline _ => True
  end.

(** The session a response names. *)
Definition response_session (r : ChatResponse) : string :=
  match r with
  | Reply _ sid _ _ => sid
  | Failure _ _ sid => sid
  end.

(** The text a response carries. *)
Definition response_text (r : ChatResponse) : JsVal :=
  match r with
  | Reply answer _ _ _ => opt_str answer
  | Failure text _ _ => VStr text
  end.

(** A store that holds the session of five messages, and a runtime that
    answers every turn without calling a tool. *)
Definition five_world : World :=
  {| db := Online {[ "s1" := five_messages ]}; drawn := 5 |}.

Definition answering_run (st : AgentState) (history : list JsVal)
  : AgentState * Result RunResult :=
  (st, Ok {| finalOutput := Some "Here are some ideas."; newItems := Some [] |}).

Definition s1_request : ChatRequest :=
  {| message := "and with a pool?";
     conversation_history := [];
     context := ∅;
     sessionId := Some "s1";
     Chat.userId := VStr "user-7" |}.


(** The turn of [s1_request] on that store. *)
Definition pool_turn : World * AgentState * ChatResponse :=
  handleChatMessage numbered_oid tick_clock tick_text no_json answering_run false
    five_world idle_agent s1_request.

(** A store that cannot be reached. *)
Definition offline_world : World :=
  {| db := Offline "connection refused"; drawn := 0 |}.

(** A turn sent while a property without [features] is being viewed. *)
Definition viewing_request : ChatRequest :=
  {| message := "is it near the beach?";
     conversation_history := [];
     context := {[ "current_property" := VObj {[ "name" := VStr "Loft" ]} ]};
     sessionId := Some "s1";
     Chat.userId := VNull |}.

(** A streamed run that fails, and the streamed turn of [s1_request] with
    it. *)
Definition failing_stream (userMessage : string)
    (messages : list (string * JsVal)) : Result string :=
  Throw "stream closed".

Definition failed_stream_turn : World * Result (Streaming.StreamResponse string) :=
  Streaming.handleStreamChat numbered_oid tick_clock tick_text string
    failing_stream five_world s1_request.

(** A run whose only item is a search call with arguments that are not
    JSON. *)
Definition broken_arguments_run : RunResult :=
  {| finalOutput := Some "Nothing found.";
     newItems :=
       Some ([] ++ {| item_type := "tool_call_item";
                      rawItem := Some {| raw_name := "searchRentals";
                                         raw_arguments := VStr "{query:" |} |}
                :: []) |}.

(* ===================================================================== *)
(** * Lists and sorting                                                   *)
(* ===================================================================== *)

Section ListFacts.
Context {A : Type}.
Implicit Types (a b x : A) (l : list A).

Lemma ranked_above_cons a b x l :
  ranked_above a b (x :: l) ↔ (x = a ∧ b ∈ l) ∨ ranked_above a b l.
Proof.
  split.
  - intros ([|y l1] & l2 & l3 & E); simplify_eq/=.
    + left. split; [done|]. rewrite elem_of_app, elem_of_cons. auto.
    + right. by exists l1, l2, l3.
  - intros [[-> Hb]|(l1 & l2 & l3 & ->)].
    + apply list_elem_of_split in Hb as (l2 & l3 & ->). by exists [], l2, l3.
    + by exists (x :: l1), l2, l3.
Qed.

Lemma ranked_above_app a b l l' :
  ranked_above a b (l ++ l') ↔
  ranked_above a b l ∨ ranked_above a b l' ∨ (a ∈ l ∧ b ∈ l').
Proof.
  induction l as [|x l IH]; simpl.
  - split; [auto|]. intros [(l1 & l2 & l3 & E)|[?|[H _]]]; [|done|].
    + by destruct l1.
    + by apply elem_of_nil in H.
  - rewrite !ranked_above_cons, IH, elem_of_app, elem_of_cons.
    intuition (subst; auto).
Qed.

Lemma ranked_above_elem a b l : ranked_above a b l → a ∈ l ∧ b ∈ l.
Proof.
  intros (l1 & l2 & l3 & ->).
  rewrite !elem_of_app, !elem_of_cons, !elem_of_app, !elem_of_cons. tauto.
Qed.

Lemma ranked_above_take a b n l : ranked_above a b (take n l) → ranked_above a b l.
Proof.
  intros H. rewrite <- (take_drop n l). apply ranked_above_app. by left.
Qed.

Lemma slice0_take (stop : Z) l : ∃ n, slice0 stop l = take n l.
Proof. unfold slice0. eauto. Qed.

(** Where [sort_insert] puts an element. *)
Lemma sort_insert_split (cmp : A → A → Q) x l :
  ∃ l1 l2, l = l1 ++ l2 ∧ sort_insert cmp x l = l1 ++ x :: l2
    ∧ Forall (λ y, comes_first cmp y x = true) l1
    ∧ (∀ y, head l2 = Some y → comes_first cmp y x = false).
Proof.
  induction l as [|y l (l1 & l2 & -> & E & F & H)]; simpl.
  - exists [], []. by repeat split.
  - destruct (comes_first cmp y x) eqn:C.
    + exists (y :: l1), l2. rewrite E. repeat split; auto.
    + exists [], (y :: l1 ++ l2). repeat split; auto.
      intros ? [= <-]. done.
Qed.

Lemma Array_sort_perm (cmp : A → A → Q) l : Array_sort cmp l ≡ₚ l.
Proof.
  induction l as [|x l IH]; simpl; [done|].
  destruct (sort_insert_split cmp x (Array_sort cmp l)) as (l1 & l2 & E & -> & _).
  rewrite <- IH, E. by rewrite Permutation_middle.
Qed.

(** Stability: the sort only moves an element above another one when the
    comparator puts it first. *)
Lemma Array_sort_stable (cmp : A → A → Q) a b l :
  ranked_above a b (Array_sort cmp l) →
  comes_first cmp a b = true ∨ ranked_above a b l.
Proof.
  revert a b. induction l as [|x l IH]; intros a b; simpl.
  - intros (l1 & ? & ? & E). by destruct l1.
  - destruct (sort_insert_split cmp x (Array_sort cmp l))
      as (l1 & l2 & E & -> & F & _).
    rewrite E in IH. rewrite (ranked_above_cons a b x l).
    assert (∀ z, z ∈ l1 ++ l2 → z ∈ l) as Hin.
    { intros z. rewrite <- E. by rewrite (Array_sort_perm cmp l). }
    rewrite ranked_above_app, ranked_above_cons.
    intros [H|[[[-> H]|H]|[Ha H]]].
    + destruct (IH a b) as [?|?]; auto. apply ranked_above_app; auto.
    + right. left. split; [done|]. apply Hin, elem_of_app; auto.
    + destruct (IH a b) as [?|?]; auto. apply ranked_above_app; auto.
    + apply elem_of_cons in H as [->|H].
      * left. by eapply Forall_forall in F.
      * destruct (IH a b) as [?|?]; auto. apply ranked_above_app; auto.
Qed.
End ListFacts.

(** Sorting by a score, highest first. *)
Section ByScore.
Context {A : Type} (score : A → Q).
Let cmp (a b : A) : Q := (score b - score a)%Q.

Lemma comes_first_score a b : comes_first cmp a b = true ↔ (score b < score a)%Q.
Proof.
  unfold comes_first, cmp. rewrite negb_true_iff, <- not_true_iff_false, Qle_bool_iff.
  split; intros H; lra.
Qed.

Lemma comes_first_score_false a b :
  comes_first cmp a b = false ↔ (score a <= score b)%Q.
Proof.
  rewrite <- not_true_iff_false, comes_first_score. split; intros H; lra.
Qed.

Lemma Array_sort_descending a b l :
  ranked_above a b (Array_sort cmp l) → (score b <= score a)%Q.
Proof.
  revert a b. induction l as [|x l IH]; intros a b; simpl.
  - intros (l1 & ? & ? & E). by destruct l1.
  - destruct (sort_insert_split cmp x (Array_sort cmp l))
      as (l1 & l2 & E & -> & F & Hhd).
    rewrite E in IH.
    assert (∀ z, z ∈ l1 → (score x < score z)%Q) as Hl1.
    { intros z Hz. apply comes_first_score. by eapply Forall_forall in F. }
    assert (∀ z, z ∈ l2 → (score z <= score x)%Q) as Hl2.
    { destruct l2 as [|y l2]; [intros ? H; by apply elem_of_nil in H|].
      specialize (Hhd y eq_refl). apply comes_first_score_false in Hhd.
      intros z [->|Hz]%elem_of_cons; [done|].
      assert (score z <= score y)%Q; [|lra].
      apply IH, ranked_above_app. right. left. apply ranked_above_cons. auto. }
    rewrite ranked_above_app, ranked_above_cons.
    intros [H|[[[-> H]|H]|[Ha H]]].
    + apply IH, ranked_above_app; auto.
    + by apply Hl2.
    + apply IH, ranked_above_app; auto.
    + apply elem_of_cons in H as [->|H].
      * apply Hl1 in Ha. lra.
      * apply IH, ranked_above_app; auto.
Qed.
End ByScore.

(* ===================================================================== *)
(** * Hybrid search: fusion of the two result lists                       *)
(* ===================================================================== *)

Lemma toString_display v s : toString v = Ok s → display v = s.
Proof. destruct v; simpl; intros; simplify_eq; done. Qed.

Lemma id_string_identity r s : id_string r = Ok s → identity r = s.
Proof. apply toString_display. Qed.

Lemma identity_with_score s r : identity (with_score s r) = identity r.
Proof. done. Qed.

Lemma mapM_id_string vs keys :
  mapM id_string vs = Ok keys → keys = identity <$> vs.
Proof.
  revert keys. induction vs as [|r vs IH]; simpl; intros keys H; [by simplify_eq|].
  destruct (id_string r) as [s|] eqn:E; simpl in H; [|done].
  destruct (mapM id_string vs) as [ks|]; simpl in H; [|done].
  simplify_eq. apply id_string_identity in E as <-. by rewrite (IH ks).
Qed.

Lemma push_lexical_spec vs combined ts out :
  push_lexical (list_to_set (identity <$> vs)) combined ts = Ok out →
  out = combined ++ lexical_only vs ts.
Proof.
  unfold lexical_only.
  revert combined. induction ts as [|t ts IH]; simpl; intros combined H.
  - simplify_eq. by rewrite app_nil_r.
  - destruct (id_string t) as [s|] eqn:E; simpl in H; [|done].
    apply id_string_identity in E as <-.
    apply IH in H as ->. rewrite filter_cons.
    unfold semantic_hit at 2.
    case_bool_decide as Hin; rewrite elem_of_list_to_set in Hin.
    + by rewrite decide_False by tauto.
    + rewrite decide_True by done. by rewrite fmap_cons, <- app_assoc.
Qed.

Lemma fuse_spec vs ts limit out :
  fuse vs ts limit = Ok out →
  ∃ n, out = take n (Array_sort by_score_desc (vs ++ lexical_only vs ts)).
Proof.
  unfold fuse. intros H.
  destruct (mapM id_string vs) as [keys|] eqn:K; simpl in H; [|done].
  apply mapM_id_string in K as ->.
  destruct (push_lexical _ vs ts) as [c|] eqn:P; simpl in H; [|done].
  apply push_lexical_spec in P as ->. simplify_eq. apply slice0_take.
Qed.

Lemma semantic_hit_vector vs r : r ∈ vs → semantic_hit vs r.
Proof. intros. by apply list_elem_of_fmap_2. Qed.

Lemma lexical_only_elem vs ts r :
  r ∈ lexical_only vs ts →
  ¬ semantic_hit vs r ∧ hit_score r = Some lexical_score
  ∧ ∃ t, t ∈ ts ∧ r = with_score lexical_score t.
Proof.
  unfold lexical_only. intros (t & -> & [Ht Hin]%list_elem_of_filter)%list_elem_of_fmap.
  repeat split; [done|]. by exists t.
Qed.

Lemma fuse_elem vs ts limit out r :
  fuse vs ts limit = Ok out → r ∈ out → r ∈ vs ∨ r ∈ lexical_only vs ts.
Proof.
  intros [n ->]%fuse_spec Hr. apply elem_of_app.
  rewrite <- (Array_sort_perm by_score_desc). by eapply subseteq_take.
Qed.

(** The fusion returns whenever every result carries an identifier. *)
Lemma toString_total v : v ≠ VNull → v ≠ VUndef → ∃ s, toString v = Ok s.
Proof. destruct v; simpl; intros; try done; eauto. Qed.

Lemma mapM_total {A B} (f : A → Result B) l :
  Forall (λ x, ∃ y, f x = Ok y) l → ∃ ys, mapM f l = Ok ys.
Proof.
  induction 1 as [|x l [y Hy] _ [ys IH]]; simpl; [eauto|].
  rewrite Hy, IH. simpl. eauto.
Qed.

Lemma push_lexical_total S c ts :
  Forall (λ r, ∃ s, id_string r = Ok s) ts → ∃ out, push_lexical S c ts = Ok out.
Proof.
  intros H. revert c. induction H as [|t ts [s Hs] _ IH]; simpl; intros c; [eauto|].
  rewrite Hs. simpl. apply IH.
Qed.

Lemma fuse_returns vs ts limit :
  Forall (λ r, hit_id r ≠ VNull ∧ hit_id r ≠ VUndef) (vs ++ ts) →
  ∃ out, fuse vs ts limit = Ok out.
Proof.
  intros [Hv Ht]%Forall_app. unfold fuse.
  destruct (mapM_total id_string vs) as [keys ->].
  { eapply Forall_impl; [exact Hv|]. intros r [??]. by apply toString_total. }
  simpl.
  destruct (push_lexical_total (list_to_set keys) vs ts) as [c ->].
  { eapply Forall_impl; [exact Ht|]. intros r [??]. by apply toString_total. }
  simpl. eauto.
Qed.

Lemma score_of_lexical_only vs ts r :
  r ∈ lexical_only vs ts → (score_or_0 r == lexical_score)%Q.
Proof.
  intros (_ & H & _)%lexical_only_elem. unfold score_or_0. by rewrite H.
Qed.

(** C2, as stated, fails: a vector result scoring 0.3 is ranked below a
    result only the lexical search returned, which carries 0.5. *)
Lemma lexical_only_outranks_weak_semantic :
  fuse [weak_semantic] [lexical_new] 10
    = Ok [with_score lexical_score lexical_new; weak_semantic]
  ∧ semantic_hit [weak_semantic] weak_semantic
  ∧ ¬ semantic_hit [weak_semantic] (with_score lexical_score lexical_new)
  ∧ ranked_above (with_score lexical_score lexical_new) weak_semantic
      [with_score lexical_score lexical_new; weak_semantic]
  ∧ ¬ ranked_above weak_semantic (with_score lexical_score lexical_new)
      [with_score lexical_score lexical_new; weak_semantic].
Proof.
  split; [by vm_compute|].
  split; [apply list_elem_of_fmap_2; by left|].
  split.
  { unfold semantic_hit. rewrite list_fmap_singleton, list_elem_of_singleton.
    by vm_compute. }
  split; [by exists [], [], []|].
  rewrite !ranked_above_cons.
  intros [[E _]|[[_ H]|(l1 & ? & ? & E)]].
  - discriminate E.
  - by apply elem_of_nil in H.
  - by destruct l1.
Qed.

(** C2, amended: a result only the lexical search returned always carries
    the score 0.5; a vector result is ranked above such a result exactly
    when its own score is at least 0.5. *)
Theorem lexical_only_score_and_rank vs ts limit out :
  fuse vs ts limit = Ok out →
  (lexical_score == 1 # 2)%Q
  ∧ (∀ r, r ∈ out → ¬ semantic_hit vs r →
       hit_score r = Some lexical_score
       ∧ ∃ t, t ∈ ts ∧ r = with_score lexical_score t)
  ∧ (∀ a b, semantic_hit vs a → ¬ semantic_hit vs b →
       ranked_above a b out → (lexical_score <= score_or_0 a)%Q)
  ∧ (∀ a b, semantic_hit vs a → ¬ semantic_hit vs b →
       ranked_above b a out → (score_or_0 a < lexical_score)%Q).
Proof.
  intros Hfuse. split; [done|].
  assert (∀ r, r ∈ out → ¬ semantic_hit vs r → r ∈ lexical_only vs ts) as Hlex.
  { intros r Hr Hn. destruct (fuse_elem _ _ _ _ _ Hfuse Hr) as [H|H]; [|done].
    by apply semantic_hit_vector in H. }
  assert (∀ r, r ∈ out → semantic_hit vs r → r ∈ vs) as Hsem.
  { intros r Hr Hs. destruct (fuse_elem _ _ _ _ _ Hfuse Hr) as [H|H]; [done|].
    by apply lexical_only_elem in H as [? _]. }
  destruct (fuse_spec _ _ _ _ Hfuse) as [n ->].
  split; [|split].
  - intros r Hr Hn. apply Hlex, lexical_only_elem in Hr as (_ & ? & ?); auto.
  - intros a b Ha Hb Hab.
    destruct (ranked_above_elem _ _ _ Hab) as [_ Hbin].
    apply ranked_above_take, (Array_sort_descending score_or_0) in Hab.
    rewrite (score_of_lexical_only vs ts b) in Hab by auto. done.
  - intros a b Ha Hb Hba.
    destruct (ranked_above_elem _ _ _ Hba) as [Hbin Hain].
    apply ranked_above_take, Array_sort_stable in Hba as [Hcf|Hba].
    + apply (comes_first_score score_or_0) in Hcf.
      rewrite (score_of_lexical_only vs ts b) in Hcf by auto. done.
    + apply ranked_above_app in Hba as [Hba|[Hba|[Hb' _]]].
      * apply ranked_above_elem in Hba as [Hb' _].
        by apply semantic_hit_vector in Hb'.
      * apply ranked_above_elem in Hba as [_ Ha'].
        by apply lexical_only_elem in Ha' as [? _].
      * by apply semantic_hit_vector in Hb'.
Qed.

Lemma lexical_only_score_and_rank_witness :
  (lexical_score == 1 # 2)%Q
  ∧ (∀ r, r ∈ [strong_semantic; with_score lexical_score lexical_new; weak_semantic] →
       ¬ semantic_hit [weak_semantic; strong_semantic] r →
       hit_score r = Some lexical_score
       ∧ ∃ t, t ∈ [lexical_dup; lexical_new] ∧ r = with_score lexical_score t)
  ∧ (∀ a b, semantic_hit [weak_semantic; strong_semantic] a →
       ¬ semantic_hit [weak_semantic; strong_semantic] b →
       ranked_above a b [strong_semantic; with_score lexical_score lexical_new; weak_semantic] →
       (lexical_score <= score_or_0 a)%Q)
  ∧ (∀ a b, semantic_hit [weak_semantic; strong_semantic] a →
       ¬ semantic_hit [weak_semantic; strong_semantic] b →
       ranked_above b a [strong_semantic; with_score lexical_score lexical_new; weak_semantic] →
       (score_or_0 a < lexical_score)%Q).
Proof.
  apply (lexical_only_score_and_rank
           [weak_semantic; strong_semantic] [lexical_dup; lexical_new] 10).
  by vm_compute.
Defined.




(** C4: when the vector search fails, [hybridSearch] fails, whatever the
    lexical search returned; the error is that of the vector search, or
    that of the lexical search when it failed too and failed first. *)
Theorem hybridSearch_fails_with_vector_search
    (vectorSearch traditionalSearch : string → JsVal → Z → Result (list Hit))
    (traditional_fails_first : bool) queryText filters limit e :
  vectorSearch queryText (or_default (VObj ∅) filters)
    (ceil_share (default 10 limit) 7) = Throw e →
  ∃ e',
    hybridSearch vectorSearch traditionalSearch traditional_fails_first
      queryText filters limit = Throw e'
    ∧ (e' = e
       ∨ traditionalSearch queryText (or_default (VObj ∅) filters)
           (ceil_share (default 10 limit) 3) = Throw e').
Proof.
  intros Hv. unfold hybridSearch. cbv zeta. rewrite Hv.
  destruct (traditionalSearch _ _ _) as [ts|e2]; simpl; [eauto|].
  destruct traditional_fails_first; eauto.
Qed.

Lemma hybridSearch_fails_with_vector_search_witness :
  ∃ e',
    hybridSearch (λ _ _ _, Throw "embedding service unavailable")
      (λ _ _ _, Ok [lexical_new]) false "beach house" (VObj ∅) (Some 10) = Throw e'
    ∧ (e' = "embedding service unavailable"
       ∨ (λ _ _ _, Ok [lexical_new]) "beach house" (or_default (VObj ∅) (VObj ∅))
           (ceil_share (default 10 (Some 10)) 3) = Throw e').
Proof.
  apply (hybridSearch_fails_with_vector_search
           (λ _ _ _, Throw "embedding service unavailable")
           (λ _ _ _, Ok [lexical_new]) false "beach house" (VObj ∅) (Some 10)
           "embedding service unavailable").
  reflexivity.
Defined.

(** When both searches return, the result is the fusion of what they
    returned. *)
Lemma hybridSearch_fuses
    (vectorSearch traditionalSearch : string → JsVal → Z → Result (list Hit))
    (traditional_fails_first : bool) queryText filters limit vs ts :
  vectorSearch queryText (or_default (VObj ∅) filters)
    (ceil_share (default 10 limit) 7) = Ok vs →
  traditionalSearch queryText (or_default (VObj ∅) filters)
    (ceil_share (default 10 limit) 3) = Ok ts →
  hybridSearch vectorSearch traditionalSearch traditional_fails_first
    queryText filters limit = fuse vs ts (default 10 limit).
Proof. intros Hv Ht. unfold hybridSearch. cbv zeta. by rewrite Hv, Ht. Qed.

(* ===================================================================== *)
(** * Search queries                                                      *)
(* ===================================================================== *)

Section QueryFacts.
Variable regex_test : string → string → string → bool.
Variable text_search : JsVal → Document → bool.
Abbreviation matches := (matches regex_test text_search).
Abbreviation entry_holds := (entry_holds regex_test text_search).
Abbreviation cond_holds := (cond_holds regex_test text_search).

Lemma matches_empty d : matches ∅ d = true.
Proof. apply bool_decide_eq_true, map_Forall_empty. Qed.

Lemma matches_singleton k e d : matches {[ k := e ]} d = entry_holds k e d.
Proof.
  unfold Rental.matches. destruct (entry_holds k e d) eqn:E.
  - by apply bool_decide_eq_true, map_Forall_singleton.
  - apply bool_decide_eq_false. rewrite map_Forall_singleton. congruence.
Qed.

Lemma matches_insert (q : Query) k e d :
  q !! k = None → matches (<[k := e]> q) d = entry_holds k e d && matches q d.
Proof.
  intros Hk. unfold Rental.matches.
  destruct (entry_holds k e d) eqn:E; simpl.
  - apply bool_decide_ext. rewrite map_Forall_insert by done. tauto.
  - apply bool_decide_eq_false. rewrite map_Forall_insert by done.
    intros [? _]. congruence.
Qed.

(** A query selects what its entry under a key allows among what the
    other entries select. *)
Lemma matches_lookup (q : Query) k e d :
  q !! k = Some e → matches q d = entry_holds k e d && matches (delete k q) d.
Proof.
  intros Hk. rewrite <- (insert_delete_id q k e Hk) at 1.
  apply matches_insert, lookup_delete_eq.
Qed.

Lemma cond_holds_in field vs d :
  cond_holds field (CIn vs) d = true ↔
  ∃ x, d !! field = Some x ∧ existsb (scalar_eqb x) vs = true.
Proof.
  simpl. destruct (d !! field) as [x|].
  - split; [eauto|]. by intros (? & [= <-] & ?).
  - split; [done|]. by intros (? & ? & _).
Qed.

(** The query of the [ids] branch selects the documents whose [_id] is one
    of the collected identifiers, as soon as one was collected. *)
Lemma ids_query_matches objectIds numericIds d :
  objectIds ++ numericIds ≠ [] →
  matches (ids_query objectIds numericIds) d = true ↔
  ∃ x, d !! "_id" = Some x ∧ existsb (scalar_eqb x) (objectIds ++ numericIds) = true.
Proof.
  intros Hne. rewrite <- cond_holds_in.
  destruct objectIds as [|o os], numericIds as [|n ns]; [by simpl in Hne|..];
    unfold ids_query; rewrite matches_singleton; simpl;
    destruct (d !! "_id") as [x|]; simpl;
    rewrite ?app_nil_r, ?existsb_app, ?orb_false_r, <- ?orb_assoc; done.
Qed.
End QueryFacts.

Lemma push_id_spec acc id acc' :
  push_id acc id = Ok acc' →
  ∃ t, id_text id = Ok t
    ∧ length (acc'.1 ++ acc'.2) = S (length (acc.1 ++ acc.2))
    ∧ ∀ x, existsb (scalar_eqb x) (acc'.1 ++ acc'.2)
           = existsb (scalar_eqb x) (acc.1 ++ acc.2) || scalar_eqb x (id_of_text t).
Proof.
  unfold push_id, id_text, id_of_text. destruct acc as [os ns].
  destruct (toString id) as [s|]; simpl; [|done].
  intros H. exists (trim s). split; [done|].
  destruct (ObjectId_isValid (trim s)); simplify_eq/=.
  - split; [rewrite !length_app; simpl; lia|].
    intros x. rewrite !existsb_app. simpl.
    destruct (existsb _ os), (existsb _ ns), (scalar_eqb x _); done.
  - split; [rewrite !length_app; simpl; lia|].
    intros x. rewrite !existsb_app. simpl.
    destruct (existsb _ os), (existsb _ ns), (scalar_eqb x _); done.
Qed.

Lemma forEach_ids_spec ids acc out :
  forEach_ids acc ids = Ok out →
  ∃ texts, mapM id_text ids = Ok texts
    ∧ length (out.1 ++ out.2) = (length (acc.1 ++ acc.2) + length texts)%nat
    ∧ ∀ x, existsb (scalar_eqb x) (out.1 ++ out.2)
           = existsb (scalar_eqb x) (acc.1 ++ acc.2)
             || existsb (scalar_eqb x) (id_of_text <$> texts).
Proof.
  revert acc. induction ids as [|id ids IH]; simpl; intros acc H.
  - simplify_eq. exists []. split; [done|]. split; [simpl; lia|].
    intros. by rewrite orb_false_r.
  - destruct (push_id acc id) as [acc'|] eqn:P; simpl in H; [|done].
    apply push_id_spec in P as (t & -> & Hlen & Hex).
    apply IH in H as (texts & -> & Hlen' & Hex'). simpl.
    exists (t :: texts). split; [done|]. split; [simpl; lia|].
    intros x. rewrite Hex', Hex. simpl. by rewrite orb_assoc.
Qed.

Lemma forEach_ids_total ids acc texts :
  mapM id_text ids = Ok texts → ∃ out, forEach_ids acc ids = Ok out.
Proof.
  revert acc texts. induction ids as [|id ids IH]; simpl; intros acc texts H; [eauto|].
  unfold push_id. unfold id_text in H at 1.
  destruct (toString id) as [s|]; simpl in *; [|done].
  destruct (mapM id_text ids) as [ts|] eqn:M; [|done].
  destruct (ObjectId_isValid (trim s)); eapply IH; eauto.
Qed.

Lemma existsb_fmap_elem {A B} (f : A → B) (p : B → bool) (l : list A) :
  existsb p (f <$> l) = true ↔ ∃ a, a ∈ l ∧ p (f a) = true.
Proof.
  rewrite existsb_exists. setoid_rewrite <- list_elem_of_In.
  setoid_rewrite list_elem_of_fmap. split.
  - intros (b & (a & -> & Ha) & Hp). eauto.
  - intros (a & Ha & Hp). eauto.
Qed.

Lemma split_go_nonempty sep cur s : split_go sep cur s ≠ [].
Proof. revert cur. induction s as [|c s IH]; simpl; intros; [done|]. by case_match. Qed.

Lemma mapM_id_text_strings pieces :
  mapM id_text (VStr <$> pieces) = Ok (trim <$> pieces).
Proof.
  induction pieces as [|p ps IH]; [done|].
  rewrite !fmap_cons. cbn [mapM]. unfold id_text at 1. cbn [toString bind].
  by rewrite IH.
Qed.

(** C1, as stated, fails: an [ids] field that is present but empty does
    not take over, and the price filter supplied with it is compiled. *)
Lemma empty_ids_does_not_override :
  buildSearchQuery (<["ids" := VStr ""]> {[ "min_price" := VStr "50" ]})
    = Ok {[ "price" := EField (CRange (Some (Num 50)) None) ]}
  ∧ ¬ (∀ params params' : Params,
         is_Some (params !! "ids") → params' !! "ids" = params !! "ids" →
         buildSearchQuery params' = buildSearchQuery params).
Proof.
  split; [by vm_compute|].
  intros H.
  specialize (H {[ "ids" := VStr "" ]}
                (<["ids" := VStr ""]> {[ "min_price" := VStr "50" ]})).
  assert (Ok (filter_query (<["ids" := VStr ""]> {[ "min_price" := VStr "50" ]}))
          = Ok (filter_query {[ "ids" := VStr "" ]})) as E.
  { apply H; [by eexists|done]. }
  vm_compute in E. discriminate E.
Qed.

(** C1, amended: when [ids] is truthy (a non-empty string, an array) the
    compiled query depends on [ids] alone; and when the list has an
    element, the query selects exactly the documents whose [_id] is the
    identifier one of its elements stands for, be it an [ObjectId] or a
    numeric or textual identifier.  A numeric identifier is the double
    the text is read as; the elements are taken to be read as finite
    numbers. *)
Theorem ids_override regex_test text_search (params : Params) :
  truthy (prop params "ids") = true →
  (∀ params' : Params, params' !! "ids" = params !! "ids" →
     buildSearchQuery params' = buildSearchQuery params)
  ∧ (∀ ids texts,
       ids_array (prop params "ids") = Ok ids →
       mapM id_text ids = Ok texts → texts ≠ [] →
       Forall reads_finite texts →
       ∃ q, buildSearchQuery params = Ok q
         ∧ ∀ d : Document,
             matches regex_test text_search q d = true ↔
             ∃ x t, d !! "_id" = Some x ∧ t ∈ texts
                    ∧ scalar_eqb x (id_of_text t) = true)
  ∧ (∀ s, prop params "ids" = VStr s →
       (∀ piece, piece ∈ split ","%char s → reads_finite (trim piece)) →
       ∃ q, buildSearchQuery params = Ok q
         ∧ ∀ d : Document,
             matches regex_test text_search q d = true ↔
             ∃ x piece, d !! "_id" = Some x ∧ piece ∈ split ","%char s
                        ∧ scalar_eqb x (id_of_text (trim piece)) = true).
Proof.
  intros Hids.
  assert (∀ ids texts,
       ids_array (prop params "ids") = Ok ids →
       mapM id_text ids = Ok texts → texts ≠ [] →
       ∃ q, buildSearchQuery params = Ok q
         ∧ ∀ d : Document,
             matches regex_test text_search q d = true ↔
             ∃ x t, d !! "_id" = Some x ∧ t ∈ texts
                    ∧ scalar_eqb x (id_of_text t) = true) as Hlist.
  { intros ids texts Harr Htexts Hne.
    unfold buildSearchQuery. rewrite Hids, Harr. simpl.
    destruct (forEach_ids_total ids ([], []) texts Htexts) as [[os ns] Hfe].
    rewrite Hfe. simpl. eexists. split; [done|]. intros d.
    apply forEach_ids_spec in Hfe as (texts' & Htexts' & Hlen & Hex).
    rewrite Htexts in Htexts'. simplify_eq. simpl in *.
    rewrite ids_query_matches.
    - setoid_rewrite Hex. simpl. split.
      + intros (x & Hx & (t & Ht & He)%existsb_fmap_elem). by exists x, t.
      + intros (x & t & Hx & Ht & He). exists x. split; [done|].
        apply existsb_fmap_elem. by exists t.
    - intros E. rewrite E in Hlen. destruct texts'; simpl in *; [congruence|lia]. }
  split; [|split; [intros ids texts ? ? ? _; by apply (Hlist ids)|]].
  - intros params' E. unfold buildSearchQuery, prop in *. by rewrite E, Hids.
  - intros s Hs _.
    destruct (Hlist (VStr <$> split ","%char s) (trim <$> split ","%char s))
      as (q & Hq & Hm).
    + by rewrite Hs.
    + apply mapM_id_text_strings.
    + intros E%fmap_nil_inv. by apply split_go_nonempty in E.
    + exists q. split; [done|]. intros d. rewrite Hm.
      setoid_rewrite list_elem_of_fmap. split.
      * intros (x & t & Hx & (piece & -> & Hp) & He). eauto.
      * intros (x & piece & Hx & Hp & He). eauto 7.
Qed.

Lemma ids_override_witness :
  (∀ params' : Params, params' !! "ids" = mixed_ids_params !! "ids" →
     buildSearchQuery params' = buildSearchQuery mixed_ids_params)
  ∧ (∀ ids texts,
       ids_array (prop mixed_ids_params "ids") = Ok ids →
       mapM id_text ids = Ok texts → texts ≠ [] →
       Forall reads_finite texts →
       ∃ q, buildSearchQuery mixed_ids_params = Ok q
         ∧ ∀ d : Document,
             matches literal_regex no_text_index q d = true ↔
             ∃ x t, d !! "_id" = Some x ∧ t ∈ texts
                    ∧ scalar_eqb x (id_of_text t) = true)
  ∧ (∀ s, prop mixed_ids_params "ids" = VStr s →
       (∀ piece, piece ∈ split ","%char s → reads_finite (trim piece)) →
       ∃ q, buildSearchQuery mixed_ids_params = Ok q
         ∧ ∀ d : Document,
             matches literal_regex no_text_index q d = true ↔
             ∃ x piece, d !! "_id" = Some x ∧ piece ∈ split ","%char s
                        ∧ scalar_eqb x (id_of_text (trim piece)) = true).
Proof.
  apply (ids_override literal_regex no_text_index mixed_ids_params).
  by vm_compute.
Defined.

(** The two encodings side by side: a list naming an [ObjectId] and a
    number selects the listing stored under either, whatever its price,
    and no other listing. *)
Example mixed_ids_select :
  (∀ q, buildSearchQuery mixed_ids_params = Ok q →
     matches literal_regex no_text_index q
       (<["_id" := VOid "5f8d0d55b54764421b7156c1"]> {[ "price" := VNum (Num 10) ]}) = true
     ∧ matches literal_regex no_text_index q
         (<["_id" := VNum (Num 123)]> {[ "price" := VNum (Num 10) ]}) = true
     ∧ matches literal_regex no_text_index q
         (<["_id" := VNum (Num 124)]> {[ "price" := VNum (Num 1000000) ]}) = false).
Proof.
  intros q H. vm_compute in H. injection H as <-. by vm_compute.
Qed.

(** A numeric text is read as a double: integers of at most 53 bits are
    read exactly, and a longer identifier stands for the nearest double. *)
Lemma to_double_exact (z : Z) : Z.abs z < 2 ^ 53 → to_double z = z.
Proof.
  intros Hz. unfold to_double.
  destruct (decide (Z.abs z = 0)) as [->|Hne]; [done|].
  assert (Z.log2 (Z.abs z) < 53) by (apply Z.log2_lt_pow2; lia).
  by rewrite (proj2 (Z.leb_le _ 0)) by lia.
Qed.

Example large_numeric_id_is_rounded :
  buildSearchQuery {[ "ids" := VStr "9007199254740993" ]}
  = Ok {[ "_id" := EField (CIn [VNum (Num 9007199254740992)]) ]}.
Proof. by vm_compute. Qed.

(** An empty array of [ids] is truthy too; no identifier is collected and
    the query is left empty, which selects every listing. *)
Remark empty_ids_array_selects_all regex_test text_search d :
  buildSearchQuery {[ "ids" := VArr [] ]} = Ok ∅
  ∧ matches regex_test text_search ∅ d = true.
Proof. split; [by vm_compute|apply matches_empty]. Qed.

(* ===================================================================== *)
(** * Location in the two filters                                         *)
(* ===================================================================== *)

Lemma lookup_set_if_ne c k k' e (q : Query) :
  k ≠ k' → set_if c k' e q !! k = q !! k.
Proof. intros. unfold set_if. destruct c; [|done]. by apply lookup_insert_ne. Qed.

Lemma delete_set_if_ne c k k' e (q : Query) :
  k ≠ k' → delete k (set_if c k' e q) = set_if c k' e (delete k q).
Proof. intros. unfold set_if. destruct c; [|done]. by apply delete_insert_ne. Qed.

Lemma delete_set_if_eq c k e (q : Query) :
  delete k (set_if c k e q) = delete k q.
Proof. unfold set_if. destruct c; [|done]. by apply delete_insert_eq. Qed.

Lemma prop_delete_ne (o : gmap string JsVal) k k' :
  k ≠ k' → prop (delete k' o) k = prop o k.
Proof. intros. unfold prop. by rewrite lookup_delete_ne. Qed.

Lemma prop_delete_eq (o : gmap string JsVal) k : prop (delete k o) k = VUndef.
Proof. unfold prop. by rewrite lookup_delete_eq. Qed.

(** Reading a key of an object that lost another key. *)
Ltac other_keys :=
  repeat match goal with
    | |- context [prop (delete ?k' ?o) ?k] =>
        tryif constr_eq k k' then fail
        else rewrite (prop_delete_ne o k k') by done
    end.

Lemma truthy_string s : s ≠ "" → truthy (VStr s) = true.
Proof. simpl. by destruct s. Qed.

Lemma filter_query_or (params : Params) :
  truthy (prop params "location") = true →
  filter_query params !! "$or"
  = Some (EOr [("address.neighbourhood", CRegex (prop params "location") "i");
               ("address.market", CRegex (prop params "location") "i");
               ("address.country", CRegex (prop params "location") "i")]).
Proof.
  intros H. unfold filter_query. cbv zeta.
  rewrite !lookup_set_if_ne by done. rewrite H. apply lookup_insert_eq.
Qed.

Lemma filter_query_without_location (params : Params) :
  delete "$or" (filter_query params) = filter_query (delete "location" params).
Proof.
  unfold filter_query. cbv zeta.
  rewrite !delete_set_if_ne by done. rewrite delete_set_if_eq.
  rewrite delete_set_if_ne by done. rewrite delete_empty.
  other_keys. by rewrite prop_delete_eq.
Qed.

Lemma size_guard (v : Query) : (if (0 <? size v)%nat then v else ∅) = v.
Proof.
  destruct (size v) eqn:E; simpl; [|done]. symmetry. by apply map_size_empty_inv.
Qed.

Lemma vector_filter_market (filters : gmap string JsVal) :
  truthy (prop filters "location") = true →
  buildVectorSearchFilter (VObj filters) !! "address.market"
  = Some (EField (CEq (prop filters "location"))).
Proof.
  intros H. unfold buildVectorSearchFilter. cbv zeta. rewrite size_guard.
  simpl truthy. simpl negb. cbv iota. unfold opt_prop.
  rewrite H. apply lookup_insert_eq.
Qed.

Lemma vector_filter_without_location (filters : gmap string JsVal) :
  delete "address.market" (buildVectorSearchFilter (VObj filters))
  = buildVectorSearchFilter (VObj (delete "location" filters)).
Proof.
  unfold buildVectorSearchFilter. cbv zeta. rewrite !size_guard.
  simpl truthy. simpl negb. cbv iota. unfold opt_prop.
  rewrite delete_set_if_eq.
  rewrite !delete_set_if_ne by done. rewrite delete_empty.
  other_keys. by rewrite prop_delete_eq.
Qed.

Lemma scalar_eqb_string x s : scalar_eqb x (VStr s) = true ↔ x = VStr s.
Proof.
  destruct x as [| | |[]| | | |]; simpl; try (split; [done|intros [=]]).
  rewrite String.eqb_eq. split; [by intros ->|by intros [= ->]].
Qed.

(** C5, as stated, fails: the filter for the vector index keeps a location
    only as an exact value of the market, so a listing whose market is
    "Porto" is not selected for the location "porto". *)
Lemma vector_filter_location_is_exact :
  buildVectorSearchFilter (VObj {[ "location" := VStr "porto" ]})
    = {[ "address.market" := EField (CEq (VStr "porto")) ]}
  ∧ ¬ (∀ regex_test text_search (loc : string) (d : Document),
         matches regex_test text_search
           (buildVectorSearchFilter (VObj {[ "location" := VStr loc ]})) d = true
         ↔ ∃ field s, field ∈ location_fields ∧ d !! field = Some (VStr s)
                      ∧ ci_includes loc s = true).
Proof.
  split; [vm_compute; reflexivity|].
  intros H.
  assert (∃ field s, field ∈ location_fields
            ∧ ({[ "address.market" := VStr "Porto" ]} : Document) !! field = Some (VStr s)
            ∧ ci_includes "porto" s = true) as Hpartial.
  { exists "address.market", "Porto". split.
    - unfold location_fields. apply elem_of_cons. right. apply elem_of_cons. by left.
    - split; vm_compute; reflexivity. }
  apply (H literal_regex no_text_index) in Hpartial. clear H.
  vm_compute in Hpartial. discriminate Hpartial.
Qed.

(** C5, amended: in the query of the lexical store, a location selects the
    listings one of whose neighbourhood, market or country matches it as a
    regular expression with the option [i]; in the filter of the vector
    index it selects the listings whose market is exactly the location.
    In both, the other fields select as they do without a location. *)
Theorem location_in_the_two_filters
    (regex_test : string → string → string → bool)
    (text_search : JsVal → Document → bool) (loc : string) :
  loc ≠ "" →
  (∀ (params : Params) (d : Document),
     truthy (prop params "ids") = false →
     params !! "location" = Some (VStr loc) →
     buildSearchQuery params = Ok (filter_query params)
     ∧ buildSearchQuery (delete "location" params)
       = Ok (filter_query (delete "location" params))
     ∧ (matches regex_test text_search (filter_query params) d = true ↔
        (∃ field s, field ∈ location_fields ∧ d !! field = Some (VStr s)
                    ∧ regex_test loc "i" s = true)
        ∧ matches regex_test text_search
            (filter_query (delete "location" params)) d = true))
  ∧ (∀ (filters : gmap string JsVal) (d : Document),
       filters !! "location" = Some (VStr loc) →
       matches regex_test text_search (buildVectorSearchFilter (VObj filters)) d = true ↔
       d !! "address.market" = Some (VStr loc)
       ∧ matches regex_test text_search
           (buildVectorSearchFilter (VObj (delete "location" filters))) d = true).
Proof.
  intros Hloc. split.
  - intros params d Hids Hl.
    assert (prop params "location" = VStr loc) as Hp by (unfold prop; by rewrite Hl).
    split; [unfold buildSearchQuery; by rewrite Hids|].
    split.
    { unfold buildSearchQuery. rewrite prop_delete_ne by done. by rewrite Hids. }
    rewrite (matches_lookup _ _ _ "$or" _ d (filter_query_or params
               ltac:(rewrite Hp; by apply truthy_string))).
    rewrite filter_query_without_location, andb_true_iff, Hp.
    apply and_iff_compat_r. simpl. unfold location_fields.
    split.
    + intros H. repeat (apply orb_true_iff in H as [H|H]); [..|done].
      * destruct (d !! "address.neighbourhood") as [[]|] eqn:E; try done.
        eexists _, _. split; [|eauto]. rewrite !elem_of_cons. auto.
      * destruct (d !! "address.market") as [[]|] eqn:E; try done.
        eexists _, _. split; [|eauto]. rewrite !elem_of_cons. auto.
      * destruct (d !! "address.country") as [[]|] eqn:E; try done.
        eexists _, _. split; [|eauto]. rewrite !elem_of_cons. auto.
    + intros (field & s & Hf & Hd & Hr).
      repeat (apply elem_of_cons in Hf as [->|Hf]); [..|by apply elem_of_nil in Hf];
        rewrite Hd, Hr; by rewrite ?orb_true_r.
  - intros filters d Hl.
    assert (prop filters "location" = VStr loc) as Hp by (unfold prop; by rewrite Hl).
    rewrite (matches_lookup _ _ _ "address.market" _ d (vector_filter_market filters
               ltac:(rewrite Hp; by apply truthy_string))).
    rewrite vector_filter_without_location, andb_true_iff, Hp.
    apply and_iff_compat_r. simpl.
    destruct (d !! "address.market") as [x|]; [|done].
    rewrite scalar_eqb_string. split; [by intros ->|by intros [= ->]].
Qed.

Lemma location_in_the_two_filters_witness :
  (∀ (params : Params) (d : Document),
     truthy (prop params "ids") = false →
     params !! "location" = Some (VStr "porto") →
     buildSearchQuery params = Ok (filter_query params)
     ∧ buildSearchQuery (delete "location" params)
       = Ok (filter_query (delete "location" params))
     ∧ (matches literal_regex no_text_index (filter_query params) d = true ↔
        (∃ field s, field ∈ location_fields ∧ d !! field = Some (VStr s)
                    ∧ literal_regex "porto" "i" s = true)
        ∧ matches literal_regex no_text_index
            (filter_query (delete "location" params)) d = true))
  ∧ (∀ (filters : gmap string JsVal) (d : Document),
       filters !! "location" = Some (VStr "porto") →
       matches literal_regex no_text_index (buildVectorSearchFilter (VObj filters)) d = true ↔
       d !! "address.market" = Some (VStr "porto")
       ∧ matches literal_regex no_text_index
           (buildVectorSearchFilter (VObj (delete "location" filters))) d = true).
Proof.
  apply (location_in_the_two_filters literal_regex no_text_index "porto").
  discriminate.
Defined.

(* ===================================================================== *)
(** * Conversation history                                                *)
(* ===================================================================== *)

Lemma slice_projection_last {A} (k : Z) (l : list A) :
  0 ≤ k → slice_projection (- k) l = drop (length l - Z.to_nat k) l.
Proof.
  intros Hk. unfold slice_projection.
  destruct (decide (k = 0)) as [->|Hne]; simpl.
  - rewrite Nat.sub_0_r. by rewrite drop_all.
  - rewrite (proj2 (Z.leb_gt 0 (- k))) by lia. by rewrite Z.opp_involutive.
Qed.

(** C6, as stated, fails: a limit is not checked to be a count, and for a
    negative one the projection keeps the start of the stored sequence:
    the first two messages for the limit -2, which is more than the limit
    and is not the end of the sequence. *)
Lemma negative_limit_gives_the_first_messages :
  getHistory {| db := Online {[ "s1" := five_messages ]}; drawn := 5 |} "s1" (Some (-2))
  = [numbered_message 1; numbered_message 2]
  ∧ ¬ (∀ (w : World) sid k, Z.of_nat (length (getHistory w sid (Some k))) ≤ k).
Proof.
  split; [by vm_compute|]. intros H.
  specialize (H {| db := Online {[ "s1" := five_messages ]}; drawn := 5 |} "s1" (-2)).
  vm_compute in H. by apply H.
Qed.

(** C6, amended: for a stored session and a limit [k] that is not
    negative, the history returned is the end of the stored sequence, in
    its order, and holds [k] messages, or all of them when there are
    fewer; for a negative limit it is the start of the sequence, of [-k]
    messages or all of them. *)
Theorem history_is_last_k (w : World) sessions sid (c : Session) (k : Z) :
  db w = Online sessions → sessions !! sid = Some c →
  (0 ≤ k →
   ∃ older recent,
     messages c = older ++ recent
     ∧ getConversationHistory w sid (Some k) = History recent (Some (metadata c))
     ∧ getHistory w sid (Some k) = recent
     ∧ length recent = (Z.to_nat k `min` length (messages c))%nat
     ∧ Z.of_nat (length recent) ≤ k)
  ∧ (k < 0 →
     ∃ first later,
       messages c = first ++ later
       ∧ getConversationHistory w sid (Some k) = History first (Some (metadata c))
       ∧ getHistory w sid (Some k) = first
       ∧ length first = (Z.to_nat (- k) `min` length (messages c))%nat).
Proof.
  intros Hdb Hc. split; intros Hk.
  - exists (take (length (messages c) - Z.to_nat k) (messages c)),
           (drop (length (messages c) - Z.to_nat k) (messages c)).
    split; [by rewrite take_drop|].
    assert (getConversationHistory w sid (Some k)
            = History (drop (length (messages c) - Z.to_nat k) (messages c))
                      (Some (metadata c))) as E.
    { unfold getConversationHistory. rewrite Hdb, Hc. simpl.
      by rewrite slice_projection_last. }
    split; [done|]. split; [unfold getHistory; by rewrite E|].
    rewrite length_drop. split; lia.
  - exists (take (Z.to_nat (- k)) (messages c)),
           (drop (Z.to_nat (- k)) (messages c)).
    split; [by rewrite take_drop|].
    assert (getConversationHistory w sid (Some k)
            = History (take (Z.to_nat (- k)) (messages c)) (Some (metadata c))) as E.
    { unfold getConversationHistory. rewrite Hdb, Hc. simpl.
      unfold slice_projection. by rewrite (proj2 (Z.leb_le 0 (- k))) by lia. }
    split; [done|]. split; [unfold getHistory; by rewrite E|].
    rewrite length_take. lia.
Qed.

Lemma history_is_last_k_witness :
  ∃ older recent,
    messages five_messages = older ++ recent
    ∧ getConversationHistory {| db := Online {[ "s1" := five_messages ]}; drawn := 5 |}
        "s1" (Some 2) = History recent (Some (metadata five_messages))
    ∧ getHistory {| db := Online {[ "s1" := five_messages ]}; drawn := 5 |}
        "s1" (Some 2) = recent
    ∧ length recent = (Z.to_nat 2 `min` length (messages five_messages))%nat
    ∧ Z.of_nat (length recent) ≤ 2.
Proof.
  apply (history_is_last_k {| db := Online {[ "s1" := five_messages ]}; drawn := 5 |}
           {[ "s1" := five_messages ]} "s1" five_messages 2).
  - reflexivity.
  - by vm_compute.
  - lia.
Defined.

(** The window of the example is made of the fourth and fifth messages. *)
Example history_window_example :
  getHistory {| db := Online {[ "s1" := five_messages ]}; drawn := 5 |} "s1" (Some 2)
  = [numbered_message 4; numbered_message 5].
Proof. by vm_compute. Qed.

(** C9: for a session that is not stored, the history is a success with no
    message and no metadata. *)
Theorem history_of_unknown_session (w : World) sessions sid limit :
  db w = Online sessions → sessions !! sid = None →
  getConversationHistory w sid limit = History [] None.
Proof. intros Hdb Hs. unfold getConversationHistory. by rewrite Hdb, Hs. Qed.

Lemma history_of_unknown_session_witness :
  getConversationHistory {| db := Online {[ "s1" := five_messages ]}; drawn := 5 |}
    "s2" (Some 20) = History [] None.
Proof.
  apply (history_of_unknown_session
           {| db := Online {[ "s1" := five_messages ]}; drawn := 5 |}
           {[ "s1" := five_messages ]} "s2" (Some 20)).
  - reflexivity.
  - by vm_compute.
Defined.

(* ===================================================================== *)
(** * Search metadata of a turn                                           *)
(* ===================================================================== *)

Lemma last_search_call before lastSearch after :
  name lastSearch = "searchRentals" →
  Forall (λ call, name call ≠ "searchRentals") after →
  last (filter (λ call, named "searchRentals" call = true)
          (before ++ lastSearch :: after)) = Some lastSearch.
Proof.
  intros Hn Ha. rewrite filter_app, filter_cons.
  rewrite decide_True by (unfold named; rewrite Hn; done).
  assert (filter (λ call, named "searchRentals" call = true) after = []) as ->.
  { induction Ha as [|c after Hc _ IH]; [done|].
    rewrite filter_cons, decide_False; [done|].
    unfold named. by rewrite String.eqb_eq. }
  apply last_snoc.
Qed.

(** What is recorded about the search of a turn comes from its last call
    of the search tool. *)
Lemma extractSearchMetadata_search st before lastSearch after userMessage key :
  name lastSearch = "searchRentals" →
  Forall (λ call, name call ≠ "searchRentals") after →
  key ∈ ["search_query"; "search_filters"; "search_limit"] →
  extractSearchMetadata st (Some (before ++ lastSearch :: after)) userMessage !! key
  = ({[ "search_query" :=
          or_else (opt_prop (arguments lastSearch) "query") (VStr userMessage);
        "search_filters" :=
          or_else (opt_prop (arguments lastSearch) "filters") (VObj ∅);
        "search_limit" :=
          or_else (opt_prop (arguments lastSearch) "limit") (VNum (Num 5)) ]}
     : gmap string JsVal) !! key.
Proof.
  intros Hn Ha Hkey. unfold extractSearchMetadata.
  destruct (before ++ lastSearch :: after) as [|c0 calls] eqn:E.
  { by destruct before. }
  rewrite <- E, (last_search_call _ _ _ Hn Ha).
  unfold search_entries.
  repeat (apply elem_of_cons in Hkey as [->|Hkey]);
    [..|by apply elem_of_nil in Hkey];
    destruct (filter _ (before ++ _)), (lastSearchResults st);
    by simplify_map_eq.
Qed.



(** The scenario of the specification: two searches in one turn. *)
Example beach_house_in_Porto :
  extractSearchMetadata idle_agent
    (Some [search_call "beach house" 3; search_call "beach house in Porto" 8])
    "a house by the beach" !! "search_query"
  = Some (VStr "beach house in Porto")
  ∧ extractSearchMetadata idle_agent
      (Some [search_call "beach house" 3; search_call "beach house in Porto" 8])
      "a house by the beach" !! "search_limit"
    = Some (VNum (Num 8)).
Proof. split; by vm_compute. Qed.

(** C10: what the last call of the search tool leaves out is filled in:
    the query with the message of the user as the agent received it, the
    filters with the empty object, the limit with 5. *)
Theorem missing_search_arguments_default st before lastSearch after userMessage :
  name lastSearch = "searchRentals" →
  Forall (λ call, name call ≠ "searchRentals") after →
  (truthy (opt_prop (arguments lastSearch) "query") = false →
     extractSearchMetadata st (Some (before ++ lastSearch :: after)) userMessage
       !! "search_query" = Some (VStr userMessage))
  ∧ (truthy (opt_prop (arguments lastSearch) "filters") = false →
       extractSearchMetadata st (Some (before ++ lastSearch :: after)) userMessage
         !! "search_filters" = Some (VObj ∅))
  ∧ (truthy (opt_prop (arguments lastSearch) "limit") = false →
       extractSearchMetadata st (Some (before ++ lastSearch :: after)) userMessage
         !! "search_limit" = Some (VNum (Num 5))).
Proof.
  intros Hn Ha.
  split; [|split]; intros Hv;
    rewrite (extractSearchMetadata_search _ _ _ _ _ _ Hn Ha)
      by (rewrite !elem_of_cons; auto);
    unfold or_else; rewrite Hv; by simplify_map_eq.
Qed.

Lemma missing_search_arguments_default_witness :
  (truthy (opt_prop (arguments bare_search_call) "query") = false →
     extractSearchMetadata idle_agent
       (Some ([search_call "beach house" 3] ++ bare_search_call :: []))
       "a house by the beach" !! "search_query" = Some (VStr "a house by the beach"))
  ∧ (truthy (opt_prop (arguments bare_search_call) "filters") = false →
       extractSearchMetadata idle_agent
         (Some ([search_call "beach house" 3] ++ bare_search_call :: []))
         "a house by the beach" !! "search_filters" = Some (VObj ∅))
  ∧ (truthy (opt_prop (arguments bare_search_call) "limit") = false →
       extractSearchMetadata idle_agent
         (Some ([search_call "beach house" 3] ++ bare_search_call :: []))
         "a house by the beach" !! "search_limit" = Some (VNum (Num 5))).
Proof.
  apply (missing_search_arguments_default idle_agent [search_call "beach house" 3]
           bare_search_call [] "a house by the beach").
  - reflexivity.
  - constructor.
Defined.

(* ===================================================================== *)
(** * Failed turns                                                        *)
(* ===================================================================== *)

Section Turns.
Variable ObjectId_fresh : nat → string.
Variable Date_now : nat → Z.
Variable toISOString : Z → string.
Variable JSON_parse : string → option JsVal.
Variable run : AgentState → list JsVal → AgentState * Result RunResult.
Variable development : bool.

Abbreviation add := (Chat.add ObjectId_fresh Date_now).
Abbreviation handle :=
  (handleChatMessage ObjectId_fresh Date_now toISOString JSON_parse run development).

Lemma session_of_db w sessionId w' sid :
  session_of ObjectId_fresh w sessionId = (w', sid) → db w' = db w.
Proof.
  unfold session_of. destruct sessionId as [s|]; [destruct (truthy _)|];
    intros [= <- _]; done.
Qed.

Lemma iso_now_db w w' stamp :
  iso_now Date_now toISOString w = (w', stamp) → db w' = db w.
Proof. by intros [= <- _]. Qed.

(** On a reachable database, a message that is added is the last one of
    its session. *)
Lemma add_online w sessions sid r text md uid w' res :
  db w = Online sessions →
  add w sid r text md uid = (w', res) →
  ∃ c m, db w' = Online (<[sid := c]> sessions)
    ∧ last (messages c) = Some m
    ∧ role m = r ∧ content m = text
    ∧ msg_metadata m
      = <["isAuthenticated" := VBool (negb (is_null (or_default VNull uid)))]>
          (<["userId" := or_else (or_default VNull uid) VNull]> md).
Proof.
  intros Hdb. unfold Chat.add, addMessage. rewrite Hdb. intros [= <- _].
  unfold upsert_message.
  destruct (sessions !! sid) as [s|]; cbn [db]; eexists _, _;
    (split; [reflexivity|]); cbn [messages];
    (split; [first [apply last_snoc|reflexivity]|]); done.
Qed.

Lemma reply_is_Reply w req sid answer toolCalls md :
  ∃ w' stamp ctx,
    reply ObjectId_fresh Date_now toISOString w req sid answer toolCalls md
    = (w', Reply answer sid stamp ctx).
Proof.
  unfold reply.
  destruct (iso_now _ _ w) as [w1 s1].
  destruct (Chat.add _ _ w1 _ _ _ _ _) as [w2 r2].
  destruct (updateConversationMetadata _ w2 _ _) as [w3 r3].
  destruct (iso_now _ _ w3) as [w4 s4]. eauto.
Qed.

Lemma chat_fails st msg hist uid :
  (∀ s h, ∃ s' e, run s h = (s', Throw e)) →
  ∃ st' e, chat JSON_parse run st msg hist uid = (st', ChatFailed chat_error_message e).
Proof.
  intros Hrun. unfold chat.
  destruct (Hrun {| currentUserId := uid; lastSearchResults := lastSearchResults st |}
              (user_turns hist ++ [VStr msg])) as (s' & e & ->). eauto.
Qed.

(** C8, as stated, fails for a failed search: the tool reports the failure
    to the model, the turn is answered, and the assistant message stored
    for it carries no [error] flag. *)
Lemma failed_search_does_not_fail_the_turn :
  failed_search = Throw "vector index unavailable"
  ∧ ∃ w' st' answer stamp ctx sessions c m,
      handleChatMessage numbered_oid tick_clock tick_text no_json
        run_after_failed_search false empty_world idle_agent hello_request
      = (w', st', Reply answer "0" stamp ctx)
      ∧ db w' = Online sessions
      ∧ sessions !! "0" = Some c
      ∧ last (messages c) = Some m
      ∧ role m = "assistant"
      ∧ msg_metadata m !! "error" = None.
Proof.
  split; [reflexivity|].
  do 8 eexists. split; [vm_compute; reflexivity|].
  split; [reflexivity|]. split; [vm_compute; reflexivity|].
  split; [vm_compute; reflexivity|]. split; vm_compute; reflexivity.
Qed.

(** C8, amended: a turn fails when the run of the model throws, or when
    the controller itself does; it then ends with a failure object
    carrying one of the two fixed messages and, the database being
    reachable, the session ends with an assistant message that carries
    this text and the [error] flag.  A failed search is not such a turn:
    the search tool turns it into a text for the model. *)
Theorem failed_turn_is_recorded (w : World) sessions (st : AgentState)
    (req : ChatRequest) :
  db w = Online sessions →
  ((∀ s h, ∃ s' e, run s h = (s', Throw e)) →
     ∃ w' st' text error sid, handle w st req = (w', st', Failure text error sid))
  ∧ (∀ w' st' text error sid,
       handle w st req = (w', st', Failure text error sid) →
       (text = chat_error_message ∨ text = controller_error_message)
       ∧ ∃ sessions' c m,
           db w' = Online sessions'
           ∧ sessions' !! sid = Some c
           ∧ last (messages c) = Some m
           ∧ role m = "assistant"
           ∧ content m = VStr text
           ∧ msg_metadata m !! "error" = Some (VBool true))
  ∧ (∀ stringify agent query filters error,
       ∃ agent',
         handleSearchRentals stringify agent query filters (Throw error)
         = (agent', "I encountered an error while searching for rentals: "
                      +:+ error +:+ ". Please try again.")).
Proof.
  intros Hdb.
  match goal with
  | |- ?A ∧ ?B ∧ ?C =>
      cut (A ∧ B);
      [intros [? ?]; split; [|split]; [assumption|assumption|simpl; eauto]|]
  end.
  unfold handleChatMessage.
  destruct (session_of _ w (sessionId req)) as [w1 sid0] eqn:E1.
  pose proof (session_of_db _ _ _ _ E1) as Hdb1. rewrite Hdb in Hdb1.
  destruct (iso_now _ _ w1) as [w2 stamp] eqn:E2.
  pose proof (iso_now_db _ _ _ E2) as Hdb2. rewrite Hdb1 in Hdb2.
  destruct (Chat.add _ _ w2 sid0 "user" _ _ _) as [w3 r3] eqn:E3.
  destruct (add_online _ _ _ _ _ _ _ _ _ Hdb2 E3) as (c3 & m3 & Hdb3 & _).
  destruct (enhance (message req) (context req)) as [enhanced|err] eqn:En.
  - destruct (chat _ _ st enhanced _ _) as [st1 [answer calls md|text e]] eqn:Ec.
    + destruct (reply_is_Reply w3 req sid0 answer calls md) as (w4 & s4 & ctx & ->).
      split; [|intros ????? [=]].
      intros Hrun. destruct (chat_fails st enhanced
        (history_to_use w1 sid0 (conversation_history req)) (userId req) Hrun)
        as (? & ? & Hc).
      rewrite Hc in Ec. discriminate Ec.
    + destruct (Chat.add _ _ w3 sid0 "assistant" _ _ _) as [w4 r4] eqn:E4.
      destruct (add_online _ _ _ _ _ _ _ _ _ Hdb3 E4)
        as (c4 & m4 & Hdb4 & Hlast & Hrole & Hcontent & Hmd).
      split; [eauto 10|].
      intros ????? [= <- <- <- <- <-]. split.
      * left. unfold chat in Ec.
        destruct (run _ _) as [? [?|?]]; by simplify_eq.
      * exists (<[sid0 := c4]> (<[sid0 := c3]> sessions)), c4, m4.
        split; [done|]. split; [apply lookup_insert_eq|].
        split; [done|]. split; [done|]. split; [done|].
        rewrite Hmd. by simplify_map_eq.
  - destruct (Chat.add _ _ w3 sid0 "assistant" _ _ _) as [w4 r4] eqn:E4.
    destruct (add_online _ _ _ _ _ _ _ _ _ Hdb3 E4)
      as (c4 & m4 & Hdb4 & Hlast & Hrole & Hcontent & Hmd).
    split; [eauto 10|].
    intros ????? [= <- <- <- <- <-]. split; [by right|].
    exists (<[sid0 := c4]> (<[sid0 := c3]> sessions)), c4, m4.
    split; [done|]. split; [apply lookup_insert_eq|].
    split; [done|]. split; [done|]. split; [done|].
    rewrite Hmd. by simplify_map_eq.
Qed.

(** The message the metadata falls back on is the one the controller sent
    to the agent: the message of the user, enhanced with the context. *)
Lemma answered_turn_search_query (w : World) (st : AgentState) (req : ChatRequest)
    w' st' answer sid stamp ctx :
  handle w st req = (w', st', Reply answer sid stamp ctx) →
  ∃ enhanced md calls,
    enhance (message req) (context req) = Ok enhanced
    ∧ ctx !! "search_metadata" = Some (VObj md)
    ∧ md !! "search_query"
      = extractSearchMetadata st' calls enhanced !! "search_query".
Proof.
  unfold handleChatMessage.
  destruct (session_of _ w (sessionId req)) as [w1 sid0].
  destruct (iso_now _ _ w1) as [w2 s2].
  destruct (Chat.add _ _ w2 sid0 "user" _ _ _) as [w3 r3].
  destruct (enhance (message req) (context req)) as [enhanced|err];
    [|by destruct (Chat.add _ _ w3 _ _ _ _ _)].
  destruct (chat _ _ st enhanced _ _) as [st1 [ans calls md|text e]] eqn:Ec;
    [|by destruct (Chat.add _ _ w3 _ _ _ _ _)].
  unfold reply.
  destruct (iso_now _ _ w3) as [w4 s4].
  destruct (Chat.add _ _ w4 _ _ _ _ _) as [w5 r5].
  destruct (updateConversationMetadata _ w5 _ _) as [w6 r6].
  destruct (iso_now _ _ w6) as [w7 s7].
  intros [= <- <- <- <- <- <-].
  unfold chat in Ec. destruct (run _ _) as [s' [result|?]]; [|done].
  injection Ec as <- <- <- <-.
  exists enhanced. eexists _, (extractToolCallsFromResult JSON_parse result).
  split; [done|]. split; [by simplify_map_eq|].
  by apply lookup_union_l.
Qed.
End Turns.

Lemma failed_turn_is_recorded_witness :
  ((∀ s h, ∃ s' e, failing_run s h = (s', Throw e)) →
     ∃ w' st' text error sid,
       handleChatMessage numbered_oid tick_clock tick_text no_json failing_run false
         empty_world idle_agent hello_request = (w', st', Failure text error sid))
  ∧ (∀ w' st' text error sid,
       handleChatMessage numbered_oid tick_clock tick_text no_json failing_run false
         empty_world idle_agent hello_request = (w', st', Failure text error sid) →
       (text = chat_error_message ∨ text = controller_error_message)
       ∧ ∃ sessions' c m,
           db w' = Online sessions'
           ∧ sessions' !! sid = Some c
           ∧ last (messages c) = Some m
           ∧ role m = "assistant"
           ∧ content m = VStr text
           ∧ msg_metadata m !! "error" = Some (VBool true))
  ∧ (∀ stringify agent query filters error,
       ∃ agent',
         handleSearchRentals stringify agent query filters (Throw error)
         = (agent', "I encountered an error while searching for rentals: "
                      +:+ error +:+ ". Please try again.")).
Proof.
  apply (failed_turn_is_recorded numbered_oid tick_clock tick_text no_json
           failing_run false empty_world ∅ idle_agent hello_request).
  reflexivity.
Defined.

(** A turn whose run throws, on an empty store: the caller gets the
    failure object, and the new session holds the message of the user and
    the assistant message that reports the error. *)
Example failed_turn_example :
  ∃ w',
    handleChatMessage numbered_oid tick_clock tick_text no_json failing_run false
      empty_world idle_agent hello_request
    = (w', {| currentUserId := VNull; lastSearchResults := None |},
       Failure chat_error_message (Some "model unavailable") "0")
    ∧ ∃ sessions c,
        db w' = Online sessions ∧ sessions !! "0" = Some c
        ∧ (role <$> messages c) = ["user"; "assistant"].
Proof.
  eexists. split; [vm_compute; reflexivity|].
  eexists _, _. split; [reflexivity|]. split; vm_compute; reflexivity.
Qed.

(* ===================================================================== *)
(** * Further properties: the compiled queries                            *)
(* ===================================================================== *)

Ltac in_list :=
  repeat first [apply list_elem_of_here | apply list_elem_of_further].

Lemma lookup_set_if_eq c k e (q : Query) :
  set_if c k e q !! k = if c then Some e else q !! k.
Proof. unfold set_if. destruct c; [|done]. apply lookup_insert_eq. Qed.

(** Reading a key of a query built by a chain of conditional writes. *)
Ltac lookup_set_ifs :=
  repeat first [rewrite lookup_set_if_eq | rewrite lookup_set_if_ne by done].

(** X1: the compiled query depends on the recognised fields only: two
    parameter maps that agree on them compile to the same query, whatever
    else they hold. *)
Theorem buildSearchQuery_reads_recognised_fields (params params' : Params) :
  (∀ k, k ∈ recognised_fields → params !! k = params' !! k) →
  buildSearchQuery params = buildSearchQuery params'.
Proof.
  intros H.
  assert (∀ k, k ∈ recognised_fields → prop params k = prop params' k) as Hp.
  { intros k Hk. unfold prop. by rewrite (H k Hk). }
  unfold buildSearchQuery, filter_query. cbv zeta.
  repeat match goal with
    | |- context [prop params ?k] =>
        rewrite (Hp k) by (unfold recognised_fields; in_list)
    end.
  reflexivity.
Qed.

Lemma buildSearchQuery_reads_recognised_fields_witness :
  buildSearchQuery porto_params = buildSearchQuery porto_params_extra.
Proof.
  apply (buildSearchQuery_reads_recognised_fields porto_params porto_params_extra).
  intros k Hk. unfold recognised_fields in Hk.
  repeat (apply elem_of_cons in Hk as [->|Hk]; [vm_compute; reflexivity|]).
  by apply elem_of_nil in Hk.
Defined.

(** X2: without [ids], a field of the query is constrained exactly when
    the parameter it comes from is supplied (truthy, or the text "true"
    for the two flags); nothing is constrained by default. *)
Theorem filter_query_constrains_supplied_fields (params : Params) :
  let q := filter_query params in
  let supplied k := truthy (prop params k) = true in
  let flagged k := is_string_true (prop params k) = true in
  (is_Some (q !! "$text") ↔ supplied "text")
  ∧ (is_Some (q !! "$or") ↔ supplied "location")
  ∧ (is_Some (q !! "property_type") ↔ supplied "property_type")
  ∧ (is_Some (q !! "room_type") ↔ supplied "room_type")
  ∧ (is_Some (q !! "address.country") ↔ supplied "country")
  ∧ (is_Some (q !! "price") ↔ supplied "min_price" ∨ supplied "max_price")
  ∧ (is_Some (q !! "bedrooms") ↔ supplied "min_bedrooms")
  ∧ (is_Some (q !! "bathrooms") ↔ supplied "min_bathrooms")
  ∧ (is_Some (q !! "accommodates") ↔ supplied "min_accommodates")
  ∧ (is_Some (q !! "host.host_is_superhost") ↔ flagged "superhost_only")
  ∧ (is_Some (q !! "instant_bookable") ↔ flagged "instant_bookable")
  ∧ (is_Some (q !! "review_scores.review_scores_rating") ↔ supplied "min_rating")
  ∧ ((∀ k, k ∈ recognised_fields → k ≠ "ids" →
        truthy (prop params k) = false ∧ is_string_true (prop params k) = false) →
     q = ∅).
Proof.
  cbv zeta. unfold filter_query. cbv zeta.
  repeat match goal with |- _ ∧ _ => split end;
    try (rewrite ?lookup_set_if_ne by done; rewrite lookup_set_if_eq;
         rewrite ?lookup_set_if_ne by done; rewrite ?lookup_empty;
         match goal with
         | |- is_Some (if ?c then _ else _) ↔ _ =>
             destruct c eqn:E; rewrite ?orb_true_iff, ?orb_false_iff in E;
             split; intros H; try done; try (by destruct H as [? H]);
             try (destruct E; destruct H; congruence)
         end; eauto; tauto).
  intros H.
  assert (∀ k, k ∈ recognised_fields → k ≠ "ids" → truthy (prop params k) = false) as Ht.
  { intros k ??. by apply H. }
  assert (∀ k, k ∈ recognised_fields → k ≠ "ids" →
            is_string_true (prop params k) = false) as Hf.
  { intros k ??. by apply H. }
  rewrite !Ht, !Hf by (done || (unfold recognised_fields; in_list)).
  reflexivity.
Qed.

Section MoreQueryFacts.
Variable regex_test : string → string → string → bool.
Variable text_search : JsVal → Document → bool.
Abbreviation selects := (matches regex_test text_search).

(** X3: a maximum price that is supplied but is not a number is not
    dropped: it is compiled to the bound [NaN], and the query then selects
    no listing. *)
Theorem unparsable_max_price_selects_nothing (params : Params) :
  truthy (prop params "ids") = false →
  truthy (prop params "max_price") = true →
  parseInt_val (prop params "max_price") = NaN →
  ∃ q, buildSearchQuery params = Ok q
    ∧ q !! "price" = Some (EField (CRange (bound (prop params "min_price")) (Some NaN)))
    ∧ ∀ d, selects q d = false.
Proof.
  intros Hids Hmax Hnan. unfold buildSearchQuery. rewrite Hids.
  eexists. split; [done|].
  assert (filter_query params !! "price"
          = Some (EField (CRange (bound (prop params "min_price")) (Some NaN)))) as Hq.
  { unfold filter_query. cbv zeta. rewrite !lookup_set_if_ne by done.
    rewrite lookup_set_if_eq, Hmax, orb_true_r.
    unfold bound at 2. by rewrite Hmax, Hnan. }
  split; [done|]. intros d.
  rewrite (matches_lookup _ _ _ "price" _ d Hq). simpl.
  destruct (d !! "price") as [[| | |[|x]| | | |]|]; try done.
  by rewrite andb_false_r.
Qed.

(** X4: the look-up of a property needs its identifier as a text: for
    any other value, such as the number the tool of the agent declares,
    it throws before the store is asked, and the tool answers with the
    text of the error whatever the store holds.  The error is that of the
    database when it is not connected, and otherwise that of calling
    [match] on the value. *)
Theorem property_lookup_needs_a_text
    (isConnected : bool) (findOne : Query → Result (option Document))
    (stringify : Document → string) (propertyId : JsVal) :
  (∀ s, propertyId ≠ VStr s) →
  ∃ e,
    Lexical.getPropertyById isConnected findOne propertyId = Throw e
    ∧ Lexical.handleGetPropertyDetails isConnected findOne stringify propertyId
      = "I encountered an error while getting property details: " +:+ e
          +:+ ". Please try again."
    ∧ (∀ findOne', Lexical.getPropertyById isConnected findOne' propertyId = Throw e)
    ∧ (isConnected = false → e = "Database not connected")
    ∧ (isConnected = true →
       e = match propertyId with
           | VUndef => "Cannot read properties of undefined (reading 'match')"
           | VNull => "Cannot read properties of null (reading 'match')"
           | _ => "propertyId.match is not a function"
           end).
Proof.
  intros Hs.
  unfold Lexical.handleGetPropertyDetails, Lexical.getPropertyById,
    Lexical.getDatabase.
  destruct isConnected; cbn [bind].
  - destruct propertyId; try (by destruct (Hs s));
      cbn [Lexical.getPropertyById_query bind]; eexists; by repeat split.
  - eexists. by repeat split.
Qed.
End MoreQueryFacts.

Lemma unparsable_max_price_selects_nothing_witness :
  ∃ q, buildSearchQuery bad_max_price_params = Ok q
    ∧ q !! "price"
      = Some (EField (CRange (bound (prop bad_max_price_params "min_price")) (Some NaN)))
    ∧ ∀ d, matches literal_regex no_text_index q d = false.
Proof.
  apply (unparsable_max_price_selects_nothing literal_regex no_text_index
           bad_max_price_params); vm_compute; reflexivity.
Defined.

(** X5: on every field they share, the filter of the vector index and the
    query of the lexical store carry the same constraint. *)
Theorem builders_agree_on_shared_fields (filters : gmap string JsVal) :
  let v := buildVectorSearchFilter (VObj filters) in
  let q := filter_query filters in
  v !! "property_type" = q !! "property_type"
  ∧ v !! "room_type" = q !! "room_type"
  ∧ v !! "price" = q !! "price"
  ∧ v !! "bedrooms" = q !! "bedrooms"
  ∧ v !! "accommodates" = q !! "accommodates"
  ∧ v !! "host.host_is_superhost" = q !! "host.host_is_superhost"
  ∧ v !! "address.country" = q !! "address.country".
Proof.
  cbv zeta. unfold buildVectorSearchFilter, filter_query. cbv zeta.
  rewrite size_guard. simpl truthy. simpl negb. cbv iota. unfold opt_prop.
  repeat split; lookup_set_ifs; reflexivity.
Qed.

(** X6: the filter of the vector index never constrains anything but its
    eight fields; a minimum of bathrooms or of rating, an instant-booking
    flag and a text are left out of it, and a flag [superhost_only] that
    is the boolean [true], not the text "true", is left out too. *)
Theorem vector_filter_fields (filters : JsVal) :
  (∀ k, k ∉ ["property_type"; "room_type"; "price"; "bedrooms"; "accommodates";
             "host.host_is_superhost"; "address.country"; "address.market"] →
        buildVectorSearchFilter filters !! k = None)
  ∧ (truthy filters = false → buildVectorSearchFilter filters = ∅)
  ∧ (∀ b, opt_prop filters "superhost_only" = VBool b →
          buildVectorSearchFilter filters !! "host.host_is_superhost" = None).
Proof.
  unfold buildVectorSearchFilter. cbv zeta.
  destruct (truthy filters) eqn:Ht; simpl negb; cbv iota.
  - rewrite size_guard. split; [|split; [done|]].
    + intros k Hk. rewrite !not_elem_of_cons in Hk.
      destruct Hk as (? & ? & ? & ? & ? & ? & ? & ? & _).
      rewrite !lookup_set_if_ne by congruence. done.
    + intros b Hb. rewrite !lookup_set_if_ne by done. rewrite lookup_set_if_eq.
      rewrite !lookup_set_if_ne by done. by rewrite Hb.
  - split; [done|]. split; [done|]. done.
Qed.

(** X7: the lexical search of the hybrid engine reads the property type
    and the two price bounds of the filters and nothing else: a location,
    a room type or a minimum of bedrooms do not change its query.  And it
    selects a listing only if the text matches one of five of its fields. *)
Theorem lexical_search_reads_type_and_price
    (regex_test : string → string → string → bool)
    (text_search : JsVal → Document → bool)
    (queryText : string) (filters filters' : gmap string JsVal) :
  (∀ k, k ∈ ["property_type"; "min_price"; "max_price"] →
        filters !! k = filters' !! k) →
  Lexical.traditional_query queryText (VObj filters)
    = Lexical.traditional_query queryText (VObj filters')
  ∧ ∀ d, matches regex_test text_search
           (Lexical.traditional_query queryText (VObj filters)) d = true →
         ∃ field s, field ∈ text_fields ∧ d !! field = Some (VStr s)
                    ∧ regex_test queryText "i" s = true.
Proof.
  intros H.
  assert (∀ k, k ∈ ["property_type"; "min_price"; "max_price"] →
               prop filters k = prop filters' k) as Hp.
  { intros k Hk. unfold prop. by rewrite (H k Hk). }
  split.
  - unfold Lexical.traditional_query. cbv zeta. unfold opt_prop.
    repeat match goal with
      | |- context [prop filters ?k] => rewrite (Hp k) by in_list
      end.
    reflexivity.
  - intros d Hm.
    assert (Lexical.traditional_query queryText (VObj filters) !! "$or"
            = Some (EOr [("name", CRegex (VStr queryText) "i");
                         ("description", CRegex (VStr queryText) "i");
                         ("address.neighbourhood", CRegex (VStr queryText) "i");
                         ("address.market", CRegex (VStr queryText) "i");
                         ("property_type", CRegex (VStr queryText) "i")])) as Hq.
    { unfold Lexical.traditional_query. cbv zeta.
      rewrite !lookup_set_if_ne by done. apply lookup_singleton_eq. }
    rewrite (matches_lookup _ _ _ "$or" _ d Hq) in Hm.
    apply andb_true_iff in Hm as [Hm _]. simpl in Hm. unfold text_fields.
    repeat (apply orb_true_iff in Hm as [Hm|Hm]); [..|done];
      match type of Hm with
      | context [d !! ?f] =>
          destruct (d !! f) as [[]|] eqn:E; try done;
          eexists f, _; split; [in_list|eauto]
      end.
Qed.

Lemma lexical_search_reads_type_and_price_witness :
  Lexical.traditional_query "beach house" (VObj loft_filters)
    = Lexical.traditional_query "beach house" (VObj loft_filters_in_Porto)
  ∧ ∀ d, matches literal_regex no_text_index
           (Lexical.traditional_query "beach house" (VObj loft_filters)) d = true →
         ∃ field s, field ∈ text_fields ∧ d !! field = Some (VStr s)
                    ∧ literal_regex "beach house" "i" s = true.
Proof.
  apply (lexical_search_reads_type_and_price literal_regex no_text_index
           "beach house" loft_filters loft_filters_in_Porto).
  intros k Hk.
  repeat (apply elem_of_cons in Hk as [->|Hk]; [vm_compute; reflexivity|]).
  by apply elem_of_nil in Hk.
Defined.

Section LookupFacts.
Variable regex_test : string → string → string → bool.
Variable text_search : JsVal → Document → bool.
Abbreviation selects := (matches regex_test text_search).

Lemma scalar_eqb_refl_num n : scalar_eqb (VNum n) (VNum n) = true.
Proof. destruct n; simpl; [done|apply Z.eqb_refl]. Qed.

(** X8: the two look-ups by identifier read a numeric text differently:
    [findById] looks for the number the text is read as, a finite double,
    and finds the listing stored under it, whereas [getPropertyById]
    looks for the text, and finds that listing only if its [id] or its
    [listing_id] is the text. *)
Theorem lookups_differ_on_numeric_text (t : string) (d : Document) :
  t ≠ "" → ObjectId_isValid t = false → isNaN t = false → reads_finite t →
  d !! "_id" = Some (VNum (parseInt t)) →
  (∃ q, Listing.findById_query (VStr t) = Ok q ∧ selects q d = true)
  ∧ (∃ q, Lexical.getPropertyById_query (VStr t) = Ok q
          ∧ (selects q d = true
             ↔ d !! "id" = Some (VStr t) ∨ d !! "listing_id" = Some (VStr t))).
Proof.
  intros Ht Hoid Hnum _ Hid. split.
  - unfold Listing.findById_query, Listing.isValidId.
    destruct t as [|c t]; [done|]. cbn [String.length Nat.eqb negb].
    eexists. split; [done|]. rewrite matches_singleton.
    unfold Rental.entry_holds, Rental.cond_holds.
    rewrite Hid. unfold id_of_text. rewrite Hoid, Hnum. cbn [negb].
    apply scalar_eqb_refl_num.
  - unfold Lexical.getPropertyById_query. rewrite Hoid.
    eexists. split; [done|]. rewrite matches_singleton.
    cbn [Rental.entry_holds existsb Rental.cond_holds]. rewrite Hid.
    assert (scalar_eqb (VNum (parseInt t)) (VStr t) = false) as ->
      by by destruct (parseInt t).
    rewrite orb_false_l, orb_false_r, orb_true_iff.
    destruct (d !! "id") as [x|], (d !! "listing_id") as [y|];
      rewrite ?scalar_eqb_string; split; intros [H|H]; simplify_eq; auto.
Qed.

(** X9: a list of [ids] made of one identifier, without a comma or white
    space around it, selects the listings that a look-up of this
    identifier selects. *)
Theorem single_id_list_is_lookup (params : Params) (s : string) :
  prop params "ids" = VStr s → s ≠ "" →
  split ","%char s = [s] → trim s = s →
  ∃ q1 q2,
    buildSearchQuery params = Ok q1
    ∧ Listing.findById_query (VStr s) = Ok q2
    ∧ ∀ d, selects q1 d = selects q2 d.
Proof.
  intros Hids Hs Hsplit Htrim.
  unfold buildSearchQuery. rewrite Hids, (truthy_string s Hs).
  cbn [ids_array bind]. rewrite Hsplit. cbn [fmap list_fmap forEach_ids bind].
  unfold push_id. cbn [toString bind]. rewrite Htrim.
  unfold Listing.findById_query, Listing.isValidId, id_of_text.
  destruct s as [|c s]; [done|]. cbn [String.length Nat.eqb negb].
  destruct (ObjectId_isValid (String c s)); cbn [fst snd app bind ids_query];
    eexists _, _; (split; [reflexivity|]); (split; [reflexivity|]);
    intros d; rewrite !matches_singleton; simpl;
    destruct (d !! "_id"); by rewrite ?orb_false_r.
Qed.
End LookupFacts.

Lemma lookups_differ_on_numeric_text_witness :
  (∃ q, Listing.findById_query (VStr "123") = Ok q
        ∧ matches literal_regex no_text_index q listing_123 = true)
  ∧ (∃ q, Lexical.getPropertyById_query (VStr "123") = Ok q
          ∧ (matches literal_regex no_text_index q listing_123 = true
             ↔ listing_123 !! "id" = Some (VStr "123")
               ∨ listing_123 !! "listing_id" = Some (VStr "123"))).
Proof.
  apply (lookups_differ_on_numeric_text literal_regex no_text_index "123" listing_123);
    [discriminate|vm_compute; reflexivity| |by intros z [= <-]|];
    vm_compute; reflexivity.
Defined.

Lemma single_id_list_is_lookup_witness :
  ∃ q1 q2,
    buildSearchQuery {[ "ids" := VStr "123" ]} = Ok q1
    ∧ Listing.findById_query (VStr "123") = Ok q2
    ∧ ∀ d, matches literal_regex no_text_index q1 d
           = matches literal_regex no_text_index q2 d.
Proof.
  apply (single_id_list_is_lookup literal_regex no_text_index
           {[ "ids" := VStr "123" ]} "123");
    [vm_compute; reflexivity|discriminate|vm_compute; reflexivity..].
Defined.



(* ===================================================================== *)
(** * Further properties: the fused list                                  *)
(* ===================================================================== *)

Lemma fuse_slice vs ts limit out :
  fuse vs ts limit = Ok out →
  out = slice0 limit (Array_sort by_score_desc (vs ++ lexical_only vs ts)).
Proof.
  unfold fuse. intros H.
  destruct (mapM id_string vs) as [keys|] eqn:K; simpl in H; [|done].
  apply mapM_id_string in K as ->.
  destruct (push_lexical _ vs ts) as [c|] eqn:P; simpl in H; [|done].
  apply push_lexical_spec in P as ->. by simplify_eq.
Qed.

(** X11: the fused list holds the results of the vector search and the
    lexical-only results, cut at the limit: with a limit that is not
    negative it has [limit] results, or all of them when there are fewer;
    a negative limit cuts that many results off its end. *)
Theorem fused_length vs ts (limit : Z) out :
  fuse vs ts limit = Ok out →
  let found := (length vs + length (lexical_only vs ts))%nat in
  (0 ≤ limit → length out = (Z.to_nat limit `min` found)%nat
               ∧ Z.of_nat (length out) ≤ limit)
  ∧ (limit < 0 → length out = (found - Z.to_nat (- limit))%nat).
Proof.
  intros ->%fuse_slice. cbv zeta. unfold slice0.
  rewrite length_take, (Permutation_length (Array_sort_perm by_score_desc _)),
    length_app.
  split; intros Hl.
  - rewrite (proj2 (Z.ltb_ge limit 0)) by lia. split; lia.
  - rewrite (proj2 (Z.ltb_lt limit 0)) by lia. lia.
Qed.

Lemma fused_length_witness :
  let found := (length [weak_semantic; strong_semantic]
                + length (lexical_only [weak_semantic; strong_semantic]
                            [lexical_dup; lexical_new]))%nat in
  (0 ≤ 2 → length [strong_semantic; with_score lexical_score lexical_new]
           = (Z.to_nat 2 `min` found)%nat
           ∧ Z.of_nat (length [strong_semantic; with_score lexical_score lexical_new]) ≤ 2)
  ∧ (2 < 0 → length [strong_semantic; with_score lexical_score lexical_new]
             = (found - Z.to_nat (- 2))%nat).
Proof.
  apply (fused_length [weak_semantic; strong_semantic] [lexical_dup; lexical_new] 2).
  vm_compute. reflexivity.
Defined.

(** X12: the fused list is in the order of the scores, highest first, a
    missing score counting as 0. *)
Theorem fused_by_descending_score vs ts limit out a b :
  fuse vs ts limit = Ok out →
  ranked_above a b out → (score_or_0 b <= score_or_0 a)%Q.
Proof.
  intros ->%fuse_slice Hab.
  destruct (slice0_take limit (Array_sort by_score_desc (vs ++ lexical_only vs ts)))
    as [n Hn].
  rewrite Hn in Hab.
  by apply ranked_above_take, (Array_sort_descending score_or_0) in Hab.
Qed.

Lemma fused_by_descending_score_witness :
  (score_or_0 weak_semantic <= score_or_0 strong_semantic)%Q.
Proof.
  apply (fused_by_descending_score [weak_semantic; strong_semantic]
           [lexical_dup; lexical_new] 10
           [strong_semantic; with_score lexical_score lexical_new; weak_semantic]
           strong_semantic weak_semantic).
  - vm_compute. reflexivity.
  - by exists [], [with_score lexical_score lexical_new], [].
Defined.

(** X13: when the lexical search fails, [hybridSearch] fails too, even if
    the vector search returned results: there is no result from the
    vector search alone either. *)
Theorem hybridSearch_fails_with_lexical_search
    (vectorSearch traditionalSearch : string → JsVal → Z → Result (list Hit))
    (traditional_fails_first : bool) queryText filters limit e :
  traditionalSearch queryText (or_default (VObj ∅) filters)
    (ceil_share (default 10 limit) 3) = Throw e →
  ∃ e',
    hybridSearch vectorSearch traditionalSearch traditional_fails_first
      queryText filters limit = Throw e'
    ∧ (e' = e
       ∨ vectorSearch queryText (or_default (VObj ∅) filters)
           (ceil_share (default 10 limit) 7) = Throw e').
Proof.
  intros Ht. unfold hybridSearch. cbv zeta. rewrite Ht.
  destruct (vectorSearch _ _ _) as [vs|e1]; simpl; [eauto|].
  destruct traditional_fails_first; eauto.
Qed.

Lemma hybridSearch_fails_with_lexical_search_witness :
  ∃ e',
    hybridSearch (λ _ _ _, Ok [strong_semantic])
      (λ _ _ _, Throw "cursor closed") false "beach house" VUndef None = Throw e'
    ∧ (e' = "cursor closed"
       ∨ (λ _ _ _, Ok [strong_semantic]) "beach house" (or_default (VObj ∅) VUndef)
           (ceil_share (default 10 None) 7) = Throw e').
Proof.
  apply (hybridSearch_fails_with_lexical_search
           (λ _ _ _, Ok [strong_semantic]) (λ _ _ _, Throw "cursor closed")
           false "beach house" VUndef None "cursor closed").
  reflexivity.
Defined.



(* ===================================================================== *)
(** * Further properties: the session store                               *)
(* ===================================================================== *)

Section StoreFacts.
Variable ObjectId_fresh : nat → string.
Variable Date_now : nat → Z.
Abbreviation addM := (addMessage ObjectId_fresh Date_now).
Abbreviation updateM := (updateConversationMetadata Date_now).

Lemma appended_refl sessions sid :
  is_Some (sessions !! sid) → appended sessions sessions sid [].
Proof.
  intros Hs. unfold appended. rewrite app_nil_r. simpl.
  split; [done|]. split; [done|]. split; [done|]. split; [lia|].
  intros c c' Hc Hc'. by simplify_eq.
Qed.

Lemma appended_trans s1 s2 s3 sid n1 n2 :
  appended s1 s2 sid n1 → appended s2 s3 sid n2 → appended s1 s3 sid (n1 ++ n2).
Proof.
  intros (F1 & [c2 S1] & M1 & T1 & O1) (F2 & S2 & M2 & T2 & O2).
  unfold appended. split; [|split; [done|split; [|split]]].
  - intros sid' Hne. by rewrite F2, F1.
  - by rewrite M2, M1, app_assoc.
  - rewrite T2, T1, length_app. lia.
  - intros c c' Hc Hc'.
    destruct (O1 c c2 Hc S1) as (? & ? & ?).
    destruct (O2 c2 c' S1 Hc') as (? & ? & ?). repeat split; congruence.
Qed.

(** What [addMessage] does to a reachable store. *)
Lemma addMessage_appends w sessions sid r text md uid w' res :
  db w = Online sessions →
  addM w sid r text md uid = (w', res) →
  ∃ sessions' m,
    db w' = Online sessions' ∧ drawn w' = S (drawn w)
    ∧ res = Added (msg_id m)
    ∧ msg_id m = ObjectId_fresh (drawn w)
    ∧ role m = r ∧ content m = text
    ∧ (∀ k, k ≠ "userId" → k ≠ "isAuthenticated" → msg_metadata m !! k = md !! k)
    ∧ appended sessions sessions' sid [m].
Proof.
  intros Hdb. unfold addMessage. rewrite Hdb. intros [= <- <-].
  eexists _,
    {| msg_id := ObjectId_fresh (drawn w); role := r; content := text;
       timestamp := Date_now (drawn w);
       msg_metadata :=
         <["isAuthenticated" := VBool (negb (is_null (or_default VNull uid)))]>
           (<["userId" := or_else (or_default VNull uid) VNull]> md) |}.
  split; [reflexivity|]. split; [reflexivity|].
  split; [reflexivity|]. split; [reflexivity|].
  split; [reflexivity|]. split; [reflexivity|]. split.
  { intros k ??. cbn [msg_metadata]. by rewrite !lookup_insert_ne. }
  unfold appended, stored_messages, stored_total.
  split; [intros sid' Hne; by rewrite lookup_insert_ne|].
  rewrite lookup_insert_eq. split; [done|].
  unfold upsert_message.
  destruct (sessions !! sid) as [c|] eqn:E; simpl.
  - split; [done|]. split; [lia|]. by intros ? ? [= <-] [= <-].
  - split; [done|]. split; [lia|]. by intros ? ? [=].
Qed.

(** What [updateConversationMetadata] does to a reachable store: only the
    metadata of the session are written, and of the fields the model
    maintains only those the patch names. *)
Lemma updateMetadata_writes w sessions sid patch w' res :
  db w = Online sessions →
  updateM w sid patch = (w', res) →
  ∃ sessions',
    db w' = Online sessions'
    ∧ (∀ sid', sid' ≠ sid → sessions' !! sid' = sessions !! sid')
    ∧ (sessions !! sid = None → sessions' = sessions)
    ∧ ∀ c, sessions !! sid = Some c →
        ∃ c', sessions' !! sid = Some c'
          ∧ messages c' = messages c
          ∧ Conversation.userId c' = Conversation.userId c
          ∧ isAuthenticated c' = isAuthenticated c
          ∧ (patch !! "totalMessages" = None →
             totalMessages (metadata c') = totalMessages (metadata c))
          ∧ (patch !! "userType" = None →
             userType (metadata c') = userType (metadata c)).
Proof.
  intros Hdb. unfold updateConversationMetadata. rewrite Hdb.
  destruct (sessions !! sid) as [c|] eqn:Hc.
  - destruct (patched _ patch (metadata c)) as [m|] eqn:Hm.
    + intros [= <- <-]. eexists. split; [reflexivity|].
      split; [intros sid' Hne; by rewrite lookup_insert_ne|].
      split; [done|]. intros ? [= <-]. eexists.
      split; [apply lookup_insert_eq|]. cbn.
      split; [done|]. split; [done|]. split; [done|].
      revert Hm. unfold patched. destruct (field_names patch); [|done].
      destruct (patch !! "lastActivity"); [by repeat case_match|].
      destruct (patch !! "totalMessages") as [[| | |[|z]| | | |]|];
        destruct (patch !! "userType") as [[]|]; try done;
        intros [= <-]; by split.
    + intros [= <- <-]. exists sessions. rewrite Hdb.
      split; [done|]. split; [done|]. split; [done|].
      intros ? [= <-]. by exists c.
  - destruct (field_names patch); intros [= <- <-]; exists sessions.
    + split; [done|]. split; [done|]. split; done.
    + split; [done|]. split; [done|]. split; done.
Qed.

Lemma updateMetadata_keeps w sessions sid patch w' res :
  db w = Online sessions →
  updateM w sid patch = (w', res) →
  patch !! "totalMessages" = None → patch !! "userType" = None →
  ∃ sessions',
    db w' = Online sessions'
    ∧ (sessions !! sid = None → sessions' = sessions)
    ∧ (is_Some (sessions !! sid) → appended sessions sessions' sid []).
Proof.
  intros Hdb E Ht Hu.
  destruct (updateMetadata_writes _ _ _ _ _ _ Hdb E) as (s' & Hdb' & F & N & S).
  exists s'. split; [done|]. split; [done|].
  intros [c Hc]. destruct (S c Hc) as (c' & Hc' & M & U & A & T & Y).
  unfold appended, stored_messages, stored_total. rewrite Hc, Hc'. simpl.
  split; [done|]. split; [by eexists|]. rewrite app_nil_r, M, (T Ht).
  split; [done|]. split; [lia|].
  intros ? ? [= <-] [= <-]. by rewrite U, A, (Y Hu).
Qed.

(** The patch the controller writes after a turn names none of the
    fields the model maintains. *)
Lemma lookup_six_keys (k k1 k2 k3 k4 k5 k6 : string) (v1 v2 v3 v4 v5 v6 : JsVal) :
  k ≠ k1 → k ≠ k2 → k ≠ k3 → k ≠ k4 → k ≠ k5 → k ≠ k6 →
  (<[k1 := v1]> (<[k2 := v2]> (<[k3 := v3]> (<[k4 := v4]> (<[k5 := v5]>
     ({[ k6 := v6 ]} : gmap string JsVal)))))) !! k = None.
Proof. intros. by rewrite !lookup_insert_ne, lookup_singleton_ne. Qed.

(** X15: a message that is added to a reachable store is the last of its
    session, after the messages the session had, and is the last of any
    history of at least one message read back; the counter of the session
    grew by one, and no other session changed. *)
Theorem added_message_is_read_back (w : World) sessions sid r text md uid :
  db w = Online sessions →
  ∃ w' sessions' m,
    addM w sid r text md uid = (w', Added (msg_id m))
    ∧ db w' = Online sessions'
    ∧ role m = r ∧ content m = text
    ∧ stored_messages sessions' sid = stored_messages sessions sid ++ [m]
    ∧ stored_total sessions' sid = stored_total sessions sid + 1
    ∧ (∀ sid', sid' ≠ sid → sessions' !! sid' = sessions !! sid')
    ∧ (∀ k, 1 ≤ k →
         ∃ recent meta,
           getConversationHistory w' sid (Some k) = History recent meta
           ∧ last recent = Some m).
Proof.
  intros Hdb.
  destruct (addM w sid r text md uid) as [w' res] eqn:E.
  destruct (addMessage_appends _ _ _ _ _ _ _ _ _ Hdb E)
    as (sessions' & m & Hdb' & _ & -> & _ & Hr & Hc & _ & (F & [c' Hc'] & M & T & _)).
  exists w', sessions', m. repeat (split; [done|]).
  intros k Hk. unfold getConversationHistory. rewrite Hdb', Hc'. simpl.
  eexists _, _. split; [reflexivity|].
  rewrite slice_projection_last by lia.
  unfold stored_messages in M. rewrite Hc' in M. simpl in M. rewrite M.
  rewrite length_app. simpl.
  replace (length (stored_messages sessions sid) + 1 - Z.to_nat k)%nat
    with (length (stored_messages sessions sid) - (Z.to_nat k - 1))%nat by lia.
  rewrite drop_app_le by lia. apply last_snoc.
Qed.
End StoreFacts.

Lemma counted_appended sessions sessions' sid new :
  map_Forall (λ _ c, totalMessages (metadata c) = Z.of_nat (length (messages c)))
    sessions →
  appended sessions sessions' sid new →
  map_Forall (λ _ c, totalMessages (metadata c) = Z.of_nat (length (messages c)))
    sessions'.
Proof.
  intros Hc (F & _ & M & T & _) k c' Hk.
  destruct (decide (k = sid)) as [->|Hne].
  - unfold stored_messages, stored_total in *. rewrite Hk in M, T. simpl in *.
    rewrite T, M, length_app.
    destruct (sessions !! sid) as [c|] eqn:E; simpl.
    + rewrite (Hc sid c E). lia.
    + lia.
  - rewrite F in Hk by done. by apply (Hc k).
Qed.

(* ===================================================================== *)
(** * Further properties: a turn of the conversation                      *)
(* ===================================================================== *)

Section TurnFacts.
Variable ObjectId_fresh : nat → string.
Variable Date_now : nat → Z.
Variable toISOString : Z → string.
Variable JSON_parse : string → option JsVal.
Variable run : AgentState → list JsVal → AgentState * Result RunResult.
Variable development : bool.

Abbreviation turn :=
  (handleChatMessage ObjectId_fresh Date_now toISOString JSON_parse run development).

Lemma session_of_given w s w' sid :
  s ≠ "" → session_of ObjectId_fresh w (Some s) = (w', sid) → sid = s ∧ w' = w.
Proof.
  intros Hs. unfold session_of. rewrite (truthy_string s Hs). by intros [= <- <-].
Qed.

(** What a turn does to a reachable store. *)
Lemma turn_appends (w : World) sessions st req w' st' resp :
  db w = Online sessions →
  turn w st req = (w', st', resp) →
  ∃ sessions' mu ma,
    db w' = Online sessions'
    ∧ appended sessions sessions' (response_session resp) [mu; ma]
    ∧ role mu = "user" ∧ content mu = VStr (message req)
    ∧ role ma = "assistant" ∧ content ma = response_text resp
    ∧ msg_metadata ma !! "error"
      = match resp with
        | Reply _ _ _ _ => None
        | Failure _ _ _ => Some (VBool true)
        end.
Proof.
  intros Hdb. unfold handleChatMessage.
  destruct (session_of _ w (sessionId req)) as [w1 sid] eqn:E1.
  pose proof (session_of_db _ _ _ _ _ E1) as Hdb1. rewrite Hdb in Hdb1.
  destruct (iso_now _ _ w1) as [w2 stamp] eqn:E2.
  pose proof (iso_now_db _ _ _ _ _ E2) as Hdb2. rewrite Hdb1 in Hdb2.
  unfold Chat.add.
  destruct (addMessage _ _ w2 sid "user" _ _ _) as [w3 r3] eqn:E3.
  destruct (addMessage_appends _ _ _ _ _ _ _ _ _ _ _ Hdb2 E3)
    as (s3 & mu & Hdb3 & _ & _ & _ & Hru & Hcu & _ & A3).
  assert (∀ w3' r' text md,
            addMessage ObjectId_fresh Date_now w3 sid "assistant" text md (userId req)
              = (w3', r') →
            ∃ s4 ma, db w3' = Online s4 ∧ appended sessions s4 sid [mu; ma]
              ∧ role ma = "assistant" ∧ content ma = text
              ∧ msg_metadata ma !! "error" = md !! "error") as Hanswer.
  { intros w3' r' text md E4.
    destruct (addMessage_appends _ _ _ _ _ _ _ _ _ _ _ Hdb3 E4)
      as (s4 & ma & Hdb4 & _ & _ & _ & Hra & Hca & Hmd & A4).
    exists s4, ma. split; [done|].
    split; [exact (appended_trans _ _ _ _ _ _ A3 A4)|].
    split; [done|]. split; [done|]. by apply Hmd. }
  destruct (enhance (message req) (context req)) as [enhanced|err].
  - destruct (chat _ _ st enhanced _ _) as [st1 [answer calls md|text e]].
    + unfold reply.
      destruct (iso_now _ _ w3) as [w4 s4] eqn:E4.
      pose proof (iso_now_db _ _ _ _ _ E4) as Hdb4. rewrite Hdb3 in Hdb4.
      unfold Chat.add.
      destruct (addMessage _ _ w4 sid "assistant" _ _ _) as [w5 r5] eqn:E5.
      destruct (addMessage_appends _ _ _ _ _ _ _ _ _ _ _ Hdb4 E5)
        as (s5 & ma & Hdb5 & _ & _ & _ & Hra & Hca & Hmd & A5).
      destruct (updateConversationMetadata _ w5 _ _) as [w6 r6] eqn:E6.
      edestruct (updateMetadata_keeps _ _ _ _ _ _ _ Hdb5 E6)
        as (s6 & Hdb6 & _ & A6); [by apply lookup_six_keys..|].
      destruct (iso_now _ _ w6) as [w7 s7] eqn:E7.
      pose proof (iso_now_db _ _ _ _ _ E7) as Hdb7. rewrite Hdb6 in Hdb7.
      intros [= <- <- <-]. exists s6, mu, ma. split; [done|]. split.
      { pose proof (appended_trans _ _ _ _ _ _ A3 A5) as A35.
        destruct A5 as (_ & S5 & _).
        exact (appended_trans _ _ _ _ _ _ A35 (A6 S5)). }
      split; [done|]. split; [done|]. split; [done|]. split; [done|].
      rewrite Hmd by done. by simplify_map_eq.
    + destruct (addMessage _ _ w3 sid "assistant" _ _ _) as [w4 r4] eqn:E4.
      destruct (Hanswer _ _ _ _ E4) as (s4 & ma & ? & ? & ? & ? & Hmd).
      intros [= <- <- <-]. exists s4, mu, ma.
      repeat (split; [done|]). rewrite Hmd. by simplify_map_eq.
  - destruct (addMessage _ _ w3 sid "assistant" _ _ _) as [w4 r4] eqn:E4.
    destruct (Hanswer _ _ _ _ E4) as (s4 & ma & ? & ? & ? & ? & Hmd).
    intros [= <- <- <-]. exists s4, mu, ma.
    repeat (split; [done|]). rewrite Hmd. by simplify_map_eq.
Qed.

Lemma addMessage_offline w e sid r text md uid :
  db w = Offline e →
  addMessage ObjectId_fresh Date_now w sid r text md uid = (w, AddFailed e).
Proof. intros H. unfold addMessage. by rewrite H. Qed.

Lemma updateMetadata_offline w e sid patch :
  db w = Offline e →
  updateConversationMetadata Date_now w sid patch = (w, UpdateFailed e).
Proof. intros H. unfold updateConversationMetadata. by rewrite H. Qed.

(** A turn on an unreachable store leaves it as it is. *)
Lemma turn_offline (w : World) e st req :
  db w = Offline e → db (turn w st req).1.1 = Offline e.
Proof.
  intros Hdb. unfold handleChatMessage.
  destruct (session_of _ w (sessionId req)) as [w1 sid] eqn:E1.
  pose proof (session_of_db _ _ _ _ _ E1) as Hdb1. rewrite Hdb in Hdb1.
  destruct (iso_now _ _ w1) as [w2 stamp] eqn:E2.
  pose proof (iso_now_db _ _ _ _ _ E2) as Hdb2. rewrite Hdb1 in Hdb2.
  unfold Chat.add. rewrite (addMessage_offline w2 e) by done.
  destruct (enhance _ _) as [enhanced|err].
  - destruct (chat _ _ st enhanced _ _) as [st1 [answer calls md|text e']].
    + unfold reply.
      destruct (iso_now _ _ w2) as [w4 s4] eqn:E4.
      pose proof (iso_now_db _ _ _ _ _ E4) as Hdb4. rewrite Hdb2 in Hdb4.
      unfold Chat.add. rewrite (addMessage_offline w4 e) by done.
      rewrite (updateMetadata_offline w4 e) by done.
      destruct (iso_now _ _ w4) as [w7 s7] eqn:E7.
      pose proof (iso_now_db _ _ _ _ _ E7) as Hdb7. by rewrite Hdb4 in Hdb7.
    + by rewrite (addMessage_offline w2 e).
  - by rewrite (addMessage_offline w2 e).
Qed.

(** X16: on a reachable store, a turn appends exactly two messages to the
    session its response names, whatever its outcome: the message of the
    user, then an assistant message with the text of the response, which
    carries the [error] flag exactly when the turn failed.  The earlier
    messages of the session stay in front of them, and no other session
    changes. *)
Theorem turn_appends_user_and_assistant (w : World) sessions st req w' st' resp :
  db w = Online sessions →
  turn w st req = (w', st', resp) →
  ∃ sessions' mu ma,
    db w' = Online sessions'
    ∧ stored_messages sessions' (response_session resp)
      = stored_messages sessions (response_session resp) ++ [mu; ma]
    ∧ role mu = "user" ∧ content mu = VStr (message req)
    ∧ role ma = "assistant" ∧ content ma = response_text resp
    ∧ msg_metadata ma !! "error"
      = match resp with
        | Reply _ _ _ _ => None
        | Failure _ _ _ => Some (VBool true)
        end
    ∧ (∀ sid', sid' ≠ response_session resp →
         sessions' !! sid' = sessions !! sid')
    ∧ (∀ s, sessionId req = Some s → s ≠ "" → response_session resp = s).
Proof.
  intros Hdb Ht.
  destruct (turn_appends _ _ _ _ _ _ _ Hdb Ht)
    as (sessions' & mu & ma & Hdb' & (F & _ & M & _) & ? & ? & ? & ? & ?).
  exists sessions', mu, ma. repeat (split; [done|]).
  intros s Hs Hne. revert Ht. unfold handleChatMessage. rewrite Hs.
  destruct (session_of _ w (Some s)) as [w1 sid] eqn:E1.
  destruct (session_of_given _ _ _ _ Hne E1) as [-> ->].
  destruct (iso_now _ _ w) as [w2 stamp].
  destruct (Chat.add _ _ w2 s "user" _ _ _) as [w3 r3].
  destruct (enhance _ _) as [enhanced|err].
  - destruct (chat _ _ st enhanced _ _) as [st1 [answer calls md|text e]].
    + destruct (reply_is_Reply ObjectId_fresh Date_now toISOString w3 req s answer calls md)
        as (w4 & s4 & ctx & ->). by intros [= <- <- <-].
    + destruct (Chat.add _ _ w3 _ _ _ _ _). by intros [= <- <- <-].
  - destruct (Chat.add _ _ w3 _ _ _ _ _). by intros [= <- <- <-].
Qed.

(** X17: the owner of a session is recorded when the session is created
    and a later turn does not change it, whoever sends it. *)
Theorem session_owner_is_fixed (w : World) sessions st req w' st' resp c :
  db w = Online sessions →
  turn w st req = (w', st', resp) →
  sessions !! response_session resp = Some c →
  ∃ sessions' c',
    db w' = Online sessions'
    ∧ sessions' !! response_session resp = Some c'
    ∧ Conversation.userId c' = Conversation.userId c
    ∧ isAuthenticated c' = isAuthenticated c
    ∧ userType (metadata c') = userType (metadata c).
Proof.
  intros Hdb Ht Hc.
  destruct (turn_appends _ _ _ _ _ _ _ Hdb Ht)
    as (sessions' & mu & ma & Hdb' & (_ & [c' Hc'] & _ & _ & O) & _).
  exists sessions', c'. split; [done|]. split; [done|]. by apply O.
Qed.

(** X18: the counter [totalMessages] of every session is the number of
    its messages: a store of which this holds is turned into one of which
    it holds by a turn, by [addMessage], by [deleteConversation], and by
    [updateConversationMetadata] with a patch that has no key
    [totalMessages], as the patch of the controller. *)
Theorem counters_count_messages (w : World) :
  counted w →
  (∀ st req, counted (turn w st req).1.1)
  ∧ (∀ sid r text md uid,
       counted (addMessage ObjectId_fresh Date_now w sid r text md uid).1)
  ∧ (∀ sid patch, patch !! "totalMessages" = None →
       counted (updateConversationMetadata Date_now w sid patch).1)
  ∧ (∀ sid, counted (Sessions.deleteConversation w sid).1).
Proof.
  intros Hw.
  destruct (db w) as [sessions|e] eqn:Hdb.
  - unfold counted in Hw. rewrite Hdb in Hw. repeat split.
    + intros st req. destruct (turn w st req) as [[w' st'] resp] eqn:Ht.
      destruct (turn_appends _ _ _ _ _ _ _ Hdb Ht) as (s' & ? & ? & Hdb' & A & _).
      simpl. unfold counted. rewrite Hdb'. by eapply counted_appended.
    + intros sid r text md uid.
      destruct (addMessage _ _ w sid r text md uid) as [w' res] eqn:Ea.
      destruct (addMessage_appends _ _ _ _ _ _ _ _ _ _ _ Hdb Ea)
        as (s' & ? & Hdb' & _ & _ & _ & _ & _ & _ & A).
      simpl. unfold counted. rewrite Hdb'. by eapply counted_appended.
    + intros sid patch Hp.
      destruct (updateConversationMetadata _ w sid patch) as [w' res] eqn:Eu.
      destruct (updateMetadata_writes _ _ _ _ _ _ _ Hdb Eu)
        as (s' & Hdb' & F & N & S).
      simpl. unfold counted. rewrite Hdb'.
      intros k c' Hk. destruct (decide (k = sid)) as [->|Hne].
      * destruct (sessions !! sid) as [c|] eqn:Es.
        -- destruct (S c eq_refl) as (c'' & Hc'' & M & _ & _ & T & _).
           rewrite Hk in Hc''. simplify_eq. rewrite M, (T Hp). by apply (Hw sid).
        -- rewrite (N eq_refl) in Hk. by apply (Hw sid).
      * rewrite F in Hk by done. by apply (Hw k).
    + intros sid. unfold Sessions.deleteConversation. rewrite Hdb. simpl.
      unfold counted. simpl. by apply map_Forall_delete.
  - repeat split.
    + intros st req. unfold counted. by rewrite (turn_offline w e).
    + intros *. unfold counted. rewrite (addMessage_offline w e) by done.
      simpl. by rewrite Hdb.
    + intros * _. unfold counted. rewrite (updateMetadata_offline w e) by done.
      simpl. by rewrite Hdb.
    + intros *. unfold counted, Sessions.deleteConversation.
      by rewrite Hdb; simpl; rewrite Hdb.
Qed.
End TurnFacts.

Section MoreTurnFacts.
Variable ObjectId_fresh : nat → string.
Variable Date_now : nat → Z.
Variable toISOString : Z → string.
Variable JSON_parse : string → option JsVal.
Variable run : AgentState → list JsVal → AgentState * Result RunResult.
Variable development : bool.

Abbreviation turn :=
  (handleChatMessage ObjectId_fresh Date_now toISOString JSON_parse run development).

Lemma history_to_use_offline w e sid history :
  db w = Offline e → history_to_use w sid history = history.
Proof.
  intros H. unfold history_to_use, getConversationHistory. rewrite H.
  by destruct history.
Qed.

(** X19: a store that cannot be reached does not fail a turn: when the
    run of the model answers, the answer is returned although neither
    message of the turn could be stored. *)
Theorem unreachable_store_does_not_fail_the_turn
    (w : World) e st req enhanced st1 result :
  db w = Offline e →
  enhance (message req) (context req) = Ok enhanced →
  run {| currentUserId := userId req; lastSearchResults := lastSearchResults st |}
      (user_turns (conversation_history req) ++ [VStr enhanced])
    = (st1, Ok result) →
  ∃ w' sid stamp ctx,
    turn w st req = (w', st1, Reply (finalOutput result) sid stamp ctx)
    ∧ db w' = Offline e.
Proof.
  intros Hdb He Hrun.
  pose proof (turn_offline ObjectId_fresh Date_now toISOString JSON_parse run
                development w e st req Hdb) as Hoff.
  revert Hoff. unfold handleChatMessage.
  destruct (session_of _ w (sessionId req)) as [w1 sid] eqn:E1.
  pose proof (session_of_db _ _ _ _ _ E1) as Hdb1. rewrite Hdb in Hdb1.
  rewrite (history_to_use_offline w1 e) by done.
  destruct (iso_now _ _ w1) as [w2 stamp].
  destruct (Chat.add _ _ w2 sid "user" _ _ _) as [w3 r3].
  rewrite He. unfold chat. rewrite Hrun.
  match goal with
  | |- context [reply _ _ _ ?w ?r ?s ?a ?t ?m] =>
      destruct (reply_is_Reply ObjectId_fresh Date_now toISOString w r s a t m)
        as (w4 & s4 & ctx & ->)
  end.
  simpl. intros Hoff. by eexists _, _, _, _.
Qed.
End MoreTurnFacts.

Section MoreStoreFacts.
Variable ObjectId_fresh : nat → string.
Variable Date_now : nat → Z.

(** X20: an update of the metadata of a session with a patch of field
    names that writes none of the fields the model maintains succeeds,
    merges the patch into the other keys, the patch winning, and leaves
    the messages and the counter of every session as they are; for a
    session that is not stored it creates nothing.  The same patch with a
    key [totalMessages] writes that number over the counter of the
    session, whatever the number of its messages. *)
Theorem metadata_update_keeps_messages (w : World) sessions sid patch :
  db w = Online sessions →
  plain_patch patch →
  (∃ w' sessions',
     updateConversationMetadata Date_now w sid patch = (w', Updated)
     ∧ db w' = Online sessions'
     ∧ (sessions !! sid = None → sessions' = sessions)
     ∧ (∀ sid', stored_messages sessions' sid' = stored_messages sessions sid'
                ∧ stored_total sessions' sid' = stored_total sessions sid')
     ∧ (∀ c, sessions !! sid = Some c →
          ∃ c', sessions' !! sid = Some c'
                ∧ merged (metadata c') = patch ∪ merged (metadata c)))
  ∧ (∀ z, ∃ w' sessions',
       updateConversationMetadata Date_now w sid
         (<["totalMessages" := VNum (Num z)]> patch) = (w', Updated)
       ∧ db w' = Online sessions'
       ∧ (∀ sid', stored_messages sessions' sid' = stored_messages sessions sid')
       ∧ (is_Some (sessions !! sid) → stored_total sessions' sid = z)).
Proof.
  intros Hdb (Hf & Ht & Hu & Ha). split.
  - unfold updateConversationMetadata, patched. rewrite Hdb, Hf, Ht, Hu, Ha.
    rewrite !delete_id by (done || by rewrite lookup_delete_ne).
    destruct (sessions !! sid) as [c|] eqn:Hc.
    + eexists _, _. split; [reflexivity|]. split; [reflexivity|].
      split; [done|]. split.
      * intros sid'. unfold stored_messages, stored_total.
        destruct (decide (sid' = sid)) as [->|Hne].
        -- by rewrite lookup_insert_eq, Hc.
        -- by rewrite lookup_insert_ne.
      * intros ? [= <-]. eexists. split; [apply lookup_insert_eq|done].
    + eexists _, _. split; [reflexivity|]. split; [reflexivity|].
      split; [done|]. split; [done|]. done.
  - intros z.
    assert (field_names (<["totalMessages" := VNum (Num z)]> patch) = true) as Hf'.
    { unfold field_names in *. apply bool_decide_eq_true.
      apply bool_decide_eq_true in Hf. by apply map_Forall_insert_2. }
    unfold updateConversationMetadata, patched. rewrite Hdb, Hf'.
    rewrite lookup_insert_eq, !lookup_insert_ne, Hu, Ha by done.
    destruct (sessions !! sid) as [c|] eqn:Hc.
    + eexists _, _. split; [reflexivity|]. split; [reflexivity|]. split.
      * intros sid'. unfold stored_messages.
        destruct (decide (sid' = sid)) as [->|Hne].
        -- by rewrite lookup_insert_eq, Hc.
        -- by rewrite lookup_insert_ne.
      * intros _. unfold stored_total. by rewrite lookup_insert_eq.
    + eexists _, _. split; [reflexivity|]. split; [reflexivity|].
      split; [done|]. by intros [? ?].
Qed.

(** X21: deleting a session reports whether it was stored, and leaves the
    other sessions as they are; the history of the session is then empty,
    and a message added afterwards starts a session of one message that
    holds none of the deleted ones. *)
Theorem deleted_session_starts_afresh (w : World) sessions sid r text md uid limit :
  db w = Online sessions →
  ∃ w' sessions',
    Sessions.deleteConversation w sid
      = (w', Sessions.Deleted (if sessions !! sid is Some _ then 1 else 0))
    ∧ db w' = Online sessions'
    ∧ sessions' !! sid = None
    ∧ (∀ sid', sid' ≠ sid → sessions' !! sid' = sessions !! sid')
    ∧ getConversationHistory w' sid limit = History [] None
    ∧ ∃ w'' sessions'' m,
        addMessage ObjectId_fresh Date_now w' sid r text md uid
          = (w'', Added (msg_id m))
        ∧ db w'' = Online sessions''
        ∧ stored_messages sessions'' sid = [m]
        ∧ stored_total sessions'' sid = 1.
Proof.
  intros Hdb. unfold Sessions.deleteConversation. rewrite Hdb.
  eexists _, _. split; [reflexivity|]. split; [reflexivity|].
  split; [apply lookup_delete_eq|].
  split; [intros sid' Hne; by apply lookup_delete_ne|].
  split.
  { unfold getConversationHistory. simpl. by rewrite lookup_delete_eq. }
  destruct (addMessage ObjectId_fresh Date_now
              {| db := Online (delete sid sessions); drawn := drawn w |}
              sid r text md uid) as [w'' res] eqn:Ea.
  destruct (addMessage_appends ObjectId_fresh Date_now
              {| db := Online (delete sid sessions); drawn := drawn w |}
              (delete sid sessions) _ _ _ _ _ _ _ eq_refl Ea)
    as (s'' & m & Hdb'' & _ & -> & _ & _ & _ & _ & (_ & _ & M & T & _)).
  exists w'', s'', m. split; [done|]. split; [done|].
  unfold stored_messages, stored_total in *.
  rewrite lookup_delete_eq in M, T. simpl in *. split; [done|lia].
Qed.

(** X22: a turn that comes without a history sends the agent at most 20
    stored messages, the last ones of the session, in their order; a
    history that comes with the turn is sent as it is, and the store is
    not read. *)
Theorem history_sent_to_the_agent (w : World) sessions sid :
  db w = Online sessions →
  (∃ older recent,
     stored_messages sessions sid = older ++ recent
     ∧ history_to_use w sid [] = (λ m, (role m, content m)) <$> recent
     ∧ length recent = (20 `min` length (stored_messages sessions sid))%nat)
  ∧ (∀ turn0 turns, history_to_use w sid (turn0 :: turns) = turn0 :: turns).
Proof.
  intros Hdb. split; [|done].
  unfold history_to_use, getConversationHistory, stored_messages. rewrite Hdb.
  destruct (sessions !! sid) as [c|]; cbn [default].
  - exists (take (length (messages c) - 20) (messages c)),
           (drop (length (messages c) - 20) (messages c)).
    split; [by rewrite take_drop|].
    rewrite (slice_projection_last 20) by lia.
    change (Z.to_nat 20) with 20%nat.
    split; [done|]. rewrite length_drop. lia.
  - exists [], []. done.
Qed.
End MoreStoreFacts.

(* ===================================================================== *)
(** * Further properties: the tools of a turn                             *)
(* ===================================================================== *)

Lemma named_true n call : named n call = true ↔ name call = n.
Proof. unfold named. apply String.eqb_eq. Qed.

Lemma filter_named_nonempty n calls :
  filter (λ call, named n call = true) calls ≠ []
  ↔ Exists (λ call, name call = n) calls.
Proof.
  rewrite Exists_exists. split.
  - destruct (filter _ calls) as [|c rest] eqn:E; [done|]. intros _.
    assert (c ∈ filter (λ call, named n call = true) calls) as Hc
      by (rewrite E; left).
    apply list_elem_of_filter in Hc as [Hn Hc]. exists c. split; [done|].
    by apply named_true.
  - intros (c & Hc & Hn) E.
    assert (c ∈ filter (λ call, named n call = true) calls) as Hf
      by (apply list_elem_of_filter; split; [by apply named_true|done]).
    rewrite E in Hf. by apply elem_of_nil in Hf.
Qed.

Lemma last_nonempty {A} (l : list A) : l ≠ [] ↔ is_Some (last l).
Proof.
  destruct l as [|a l] using rev_ind; [split; [done|by intros [? ?]]|].
  rewrite last_snoc. split; [by eexists|]. intros _. by destruct l.
Qed.

Lemma metadata_lookups st c0 calls0 userMessage :
  let calls := c0 :: calls0 in
  let searchCalls := filter (λ call, named "searchRentals" call = true) calls in
  let detailsCalls := filter (λ call, named "getPropertyDetails" call = true) calls in
  let md := extractSearchMetadata st (Some calls) userMessage in
  md !! "search_type"
    = (if last searchCalls is Some _ then Some (VStr "rental_search")
       else None)
  ∧ md !! "property_ids"
    = match detailsCalls with
      | [] => None
      | _ :: _ => Some (VArr ((λ call, opt_prop (arguments call) "propertyId")
                                <$> detailsCalls))
      end
  ∧ md !! "property_details_requested"
    = match detailsCalls with
      | [] => None
      | _ :: _ => Some (VBool true)
      end
  ∧ (last searchCalls = None → detailsCalls = [] → md = ∅).
Proof.
  intros calls searchCalls detailsCalls md. subst md.
  unfold extractSearchMetadata. fold calls. fold searchCalls. fold detailsCalls.
  change (match calls with [] => ∅ | _ :: _ => ?x end) with x.
  destruct (last searchCalls) as [lastSearch|]; destruct detailsCalls as [|d ds];
    unfold search_entries; destruct (lastSearchResults st);
    split_and!; by simplify_map_eq.
Qed.

(** X23: the keys of the search metadata follow the tools of the turn: the
    search keys are written exactly when the search tool was called, the
    keys of the details exactly when the details tool was called, one
    identifier per call; calls of other tools write nothing. *)
Theorem metadata_keys_follow_the_tools st calls userMessage :
  let md := extractSearchMetadata st (Some calls) userMessage in
  (is_Some (md !! "search_type")
     ↔ Exists (λ call, name call = "searchRentals") calls)
  ∧ (is_Some (md !! "property_ids")
     ↔ Exists (λ call, name call = "getPropertyDetails") calls)
  ∧ (∀ ids, md !! "property_ids" = Some (VArr ids) →
       md !! "property_details_requested" = Some (VBool true)
       ∧ length ids
         = length (filter (λ call, named "getPropertyDetails" call = true) calls))
  ∧ (Forall (λ call, name call ≠ "searchRentals"
                     ∧ name call ≠ "getPropertyDetails") calls →
     md = ∅).
Proof.
  intros md. subst md.
  rewrite <- !filter_named_nonempty.
  destruct calls as [|c0 calls0].
  { simpl. rewrite !filter_nil, lookup_empty.
    split; [split; [by intros [? ?]|done]|].
    split; [split; [by intros [? ?]|done]|]. done. }
  destruct (metadata_lookups st c0 calls0 userMessage) as (Hs & Hi & Hd & He).
  rewrite Hs, Hi, Hd.
  rewrite (last_nonempty (filter (λ call, named "searchRentals" call = true)
                            (c0 :: calls0))).
  split.
  { destruct (last (filter (λ call, named "searchRentals" call = true)
                      (c0 :: calls0))) as [lastSearch|].
    - split; intros _; by eexists.
    - done. }
  split.
  { destruct (filter (λ call, named "getPropertyDetails" call = true)
                (c0 :: calls0)) as [|d ds].
    - split; [by intros [? ?]|done].
    - split; [done|intros _; by eexists]. }
  split.
  { intros ids.
    destruct (filter (λ call, named "getPropertyDetails" call = true) _); [done|].
    intros [= <-]. split; [done|]. simpl. f_equal. apply length_fmap. }
  intros Hf. apply He.
  - destruct (last _) eqn:El; [|done].
    assert (filter (λ call, named "searchRentals" call = true) (c0 :: calls0) ≠ [])
      as Hne by (apply last_nonempty; by rewrite El).
    apply filter_named_nonempty, Exists_exists in Hne as (c & Hc & Hn).
    rewrite Forall_forall in Hf. by destruct (Hf c Hc).
  - destruct (filter (λ call, named "getPropertyDetails" call = true) _) eqn:E;
      [done|].
    assert (filter (λ call, named "getPropertyDetails" call = true) (c0 :: calls0)
            ≠ []) as Hne by by rewrite E.
    apply filter_named_nonempty, Exists_exists in Hne as (c & Hc & Hn).
    rewrite Forall_forall in Hf. by destruct (Hf c Hc).
Qed.

Section AgentFacts.
Variable JSON_parse : string → option JsVal.
Variable run : AgentState → list JsVal → AgentState * Result RunResult.

Lemma no_search_performed_key st calls userMessage :
  extractSearchMetadata st calls userMessage !! "search_performed" = None.
Proof.
  unfold extractSearchMetadata. destruct calls as [[|c calls]|]; try done.
  destruct (last _); destruct (filter (λ call, named "getPropertyDetails" call = true) _);
    unfold search_entries; destruct (lastSearchResults st); by simplify_map_eq.
Qed.

(** X24: a run that answers gives a successful response with the answer
    of the model, and its metadata always carry the flag
    [search_performed]; the flag is true whenever the search tool or the
    details tool was called, whatever they found, and a run without tool
    calls records nothing but the flag. *)
Theorem chat_reports_tool_use st userMessage history uid st' result :
  run {| currentUserId := uid; lastSearchResults := lastSearchResults st |}
      (user_turns history ++ [VStr userMessage]) = (st', Ok result) →
  ∃ calls md,
    chat JSON_parse run st userMessage history uid
      = (st', ChatOk (finalOutput result) calls md)
    ∧ is_Some (md !! "search_performed")
    ∧ (Exists (λ call, name call = "searchRentals"
                       ∨ name call = "getPropertyDetails") calls →
       md !! "search_performed" = Some (VBool true))
    ∧ (calls = [] → ∃ flag, md = {[ "search_performed" := VBool flag ]}).
Proof.
  intros Hrun. unfold chat. rewrite Hrun.
  eexists _, _. split; [reflexivity|].
  rewrite lookup_union_r by apply no_search_performed_key.
  split; [by rewrite lookup_singleton_eq|]. split.
  - intros Hex. rewrite lookup_singleton_eq. do 2 f_equal.
    destruct (extractToolCallsFromResult JSON_parse result) as [calls|];
      simpl in Hex; [|by apply Exists_nil in Hex].
    apply orb_true_iff. right.
    apply existsb_exists. apply Exists_exists in Hex as (c & Hc & Hn).
    exists c. split; [by apply list_elem_of_In|].
    apply orb_true_iff. rewrite !named_true. done.
  - intros Hnil. eexists.
    assert (extractToolCallsFromResult JSON_parse result = None) as ->.
    { revert Hnil. unfold extractToolCallsFromResult.
      destruct (match newItems result with Some _ => _ | None => _ end); [done|].
      simpl. done. }
    simpl. by rewrite (left_id_L ∅ (∪)).
Qed.

Lemma tool_call_of_name item call :
  tool_call_of JSON_parse item = Some call →
  item_type item = "tool_call_item"
  ∧ ∃ raw, rawItem item = Some raw ∧ name call = raw_name raw.
Proof.
  unfold tool_call_of. destruct (String.eqb _ _) eqn:E; [|done].
  apply String.eqb_eq in E. destruct (rawItem item) as [raw|]; [|done].
  intros [= <-]. split; [done|]. by exists raw.
Qed.

(** X25: when the arguments of the last search call of a run are a text
    that does not parse, the call is still extracted, and what is
    recorded about the search are the defaults: the message of the user
    as the query, no filters, and a limit of 5. *)
Theorem unparsable_arguments_fall_back st result before text after userMessage :
  newItems result
    = Some (before
            ++ {| item_type := "tool_call_item";
                  rawItem := Some {| raw_name := "searchRentals";
                                     raw_arguments := VStr text |} |}
            :: after) →
  JSON_parse text = None →
  Forall (λ item, ∀ raw, rawItem item = Some raw → raw_name raw ≠ "searchRentals")
         after →
  ∃ calls,
    extractToolCallsFromResult JSON_parse result = Some calls
    ∧ {| name := "searchRentals"; arguments := VStr text |} ∈ calls
    ∧ extractSearchMetadata st (Some calls) userMessage !! "search_query"
      = Some (VStr userMessage)
    ∧ extractSearchMetadata st (Some calls) userMessage !! "search_filters"
      = Some (VObj ∅)
    ∧ extractSearchMetadata st (Some calls) userMessage !! "search_limit"
      = Some (VNum (Num 5)).
Proof.
  intros Hitems Hparse Hafter.
  exists (omap (tool_call_of JSON_parse) before
          ++ {| name := "searchRentals"; arguments := VStr text |}
          :: omap (tool_call_of JSON_parse) after).
  split.
  { assert (tool_call_of JSON_parse
              {| item_type := "tool_call_item";
                 rawItem := Some {| raw_name := "searchRentals";
                                    raw_arguments := VStr text |} |}
            = Some {| name := "searchRentals"; arguments := VStr text |}) as Hcall
      by (unfold tool_call_of; simpl; by rewrite Hparse).
    unfold extractToolCallsFromResult. rewrite Hitems, omap_app.
    cbn [omap list_omap]. rewrite Hcall, length_app. cbn [length].
    by replace (0 <? _)%nat with true by (symmetry; apply Nat.ltb_lt; lia). }
  split; [apply elem_of_app; right; left|].
  assert (Forall (λ call, name call ≠ "searchRentals")
                 (omap (tool_call_of JSON_parse) after)) as Ha.
  { apply Forall_forall. intros call Hc.
    apply list_elem_of_omap in Hc as (item & Hi & Hc).
    apply tool_call_of_name in Hc as (_ & raw & Hraw & ->).
    rewrite Forall_forall in Hafter. by apply (Hafter item). }
  rewrite !(extractSearchMetadata_search st _
              {| name := "searchRentals"; arguments := VStr text |} _ userMessage)
    by (done || (rewrite !elem_of_cons; auto)).
  done.
Qed.

(** X26: the results of a search reach the metadata of the turn: after
    the search tool ran, the identifiers recorded for the turn are those
    of the listings it found, in their order; they are none when the
    search failed, and none when formatting the results threw, which a
    description that is truthy and is not a text brings about.  The user
    the agent answers stays the same. *)
Theorem search_results_reach_the_metadata
    stringify st query filters outcome st' text before lastSearch after userMessage :
  handleSearchRentals stringify st query filters outcome = (st', text) →
  name lastSearch = "searchRentals" →
  Forall (λ call, name call ≠ "searchRentals") after →
  extractSearchMetadata st' (Some (before ++ lastSearch :: after)) userMessage
    !! "rental_ids"
  = Some (VArr (hit_id <$> match outcome with
                           | Ok results =>
                               if existsb description_breaks results then []
                               else results
                           | Throw _ => []
                           end))
  ∧ currentUserId st' = currentUserId st.
Proof.
  intros Hs Hn Ha.
  assert (lastSearchResults st'
          = Some match outcome with
                 | Ok results =>
                     if existsb description_breaks results then [] else results
                 | Throw _ => []
                 end
          ∧ currentUserId st' = currentUserId st) as [Hl Hu].
  { revert Hs. unfold handleSearchRentals.
    destruct outcome as [[|r rs]|e]; [by intros [= <- _]| |by intros [= <- _]].
    destruct (existsb description_breaks (r :: rs)); by intros [= <- _]. }
  split; [|done]. unfold extractSearchMetadata.
  destruct (before ++ lastSearch :: after) as [|c0 calls] eqn:E.
  { by destruct before. }
  rewrite <- E, (last_search_call _ _ _ Hn Ha).
  unfold search_entries. rewrite Hl.
  destruct (filter _ (before ++ _)); by simplify_map_eq.
Qed.
End AgentFacts.

(** A result the tool cannot format: the search returned it, and it is
    not recorded. *)
Example unformattable_results_are_dropped :
  handleSearchRentals (λ _ _ _, "[...]") idle_agent (VStr "loft") (VObj ∅)
    (Ok [numbered_description])
  = ({| currentUserId := VNull; lastSearchResults := Some [] |},
     "I encountered an error while searching for rentals: "
       +:+ "rental.description.substring is not a function"
       +:+ ". Please try again.").
Proof. reflexivity. Qed.

(* ===================================================================== *)
(** * Further properties: the context of a turn, streamed turns and the
      history route                                                       *)
(* ===================================================================== *)

Section ContextFacts.
Variable ObjectId_fresh : nat → string.
Variable Date_now : nat → Z.
Variable toISOString : Z → string.
Variable JSON_parse : string → option JsVal.
Variable run : AgentState → list JsVal → AgentState * Result RunResult.
Variable development : bool.

(** X27: a turn whose context names a property being viewed that has no
    [features] fails before the model is run: the agent is left as it
    was, the response is the failure of the controller, and the error is
    only told in development. *)
Theorem viewed_property_without_features_fails_the_turn
    (w : World) st req property :
  context req !! "current_property" = Some (VObj property) →
  property !! "features" = None →
  ∃ w' sid error,
    handleChatMessage ObjectId_fresh Date_now toISOString JSON_parse run
      development w st req
    = (w', st, Failure controller_error_message error sid)
    ∧ (development = false → error = None).
Proof.
  intros Hp Hf. unfold handleChatMessage.
  destruct (session_of _ w (sessionId req)) as [w1 sid].
  destruct (iso_now _ _ w1) as [w2 stamp].
  destruct (Chat.add _ _ w2 sid "user" _ _ _) as [w3 r3].
  assert (∃ error, enhance (message req) (context req) = Throw error) as [error ->].
  { unfold enhance, prop. rewrite Hp. simpl.
    unfold property_sentence, opt_prop, prop. rewrite Hf. simpl. by eexists. }
  destruct (Chat.add _ _ w3 sid "assistant" _ _ _) as [w4 r4].
  eexists _, _, _. split; [reflexivity|]. by intros ->.
Qed.
End ContextFacts.

Section StreamFacts.
Variable ObjectId_fresh : nat → string.
Variable Date_now : nat → Z.
Variable toISOString : Z → string.
Variable Stream : Type.
Variable run_stream : string → list (string * JsVal) → Result Stream.

Abbreviation stream_turn :=
  (Streaming.handleStreamChat ObjectId_fresh Date_now toISOString Stream run_stream).

(** X28: a streamed turn on a reachable store records the message of the
    user, marked as a stream request, and hands the stream over without
    recording an answer; when the streamed run fails, the failure is
    recorded after the message of the user and the error is thrown on.
    The property being viewed is not part of what is sent. *)
Theorem streamed_turn_records (w : World) sessions req w' outcome :
  db w = Online sessions →
  stream_turn w req = (w', outcome) →
  ∃ sessions' sid mu,
    db w' = Online sessions'
    ∧ role mu = "user" ∧ content mu = VStr (message req)
    ∧ msg_metadata mu !! "stream_request" = Some (VBool true)
    ∧ (∀ s, sessionId req = Some s → s ≠ "" → sid = s)
    ∧ (∀ sid', sid' ≠ sid → sessions' !! sid' = sessions !! sid')
    ∧ match outcome with
      | Ok response =>
          Streaming.stream_sessionId response = sid
          ∧ stored_messages sessions' sid = stored_messages sessions sid ++ [mu]
      | Throw error =>
          ∃ ma,
            stored_messages sessions' sid
              = stored_messages sessions sid ++ [mu; ma]
            ∧ role ma = "assistant"
            ∧ content ma = VStr Streaming.stream_error_message
            ∧ msg_metadata ma !! "error" = Some (VBool true)
            ∧ msg_metadata ma !! "error_details" = Some (VStr error)
      end
    ∧ ∀ property,
        Streaming.enhance_stream (message req)
          (<["current_property" := property]> (context req))
        = Streaming.enhance_stream (message req) (context req).
Proof.
  intros Hdb. unfold Streaming.handleStreamChat.
  destruct (session_of _ w (sessionId req)) as [w1 sid] eqn:E1.
  pose proof (session_of_db _ _ _ _ _ E1) as Hdb1. rewrite Hdb in Hdb1.
  destruct (iso_now _ _ w1) as [w2 stamp] eqn:E2.
  pose proof (iso_now_db _ _ _ _ _ E2) as Hdb2. rewrite Hdb1 in Hdb2.
  destruct (addMessage _ _ w2 sid "user" _ _ _) as [w3 r3] eqn:E3.
  destruct (addMessage_appends _ _ _ _ _ _ _ _ _ _ _ Hdb2 E3)
    as (s3 & mu & Hdb3 & _ & _ & _ & Hru & Hcu & Hmu & (F3 & _ & M3 & _)).
  assert (∀ s, sessionId req = Some s → s ≠ "" → sid = s) as Hsid.
  { intros s Hs Hne. rewrite Hs in E1.
    by destruct (session_of_given _ _ _ _ _ Hne E1). }
  assert (∀ property,
            Streaming.enhance_stream (message req)
              (<["current_property" := property]> (context req))
            = Streaming.enhance_stream (message req) (context req)) as Henh.
  { intros property. unfold Streaming.enhance_stream, prop.
    by rewrite !lookup_insert_ne. }
  assert (msg_metadata mu !! "stream_request" = Some (VBool true)) as Hsr.
  { rewrite Hmu by done. by simplify_map_eq. }
  destruct (Streaming.streamChat _ _ _ _) as [stream|error].
  - destruct (iso_now _ _ w3) as [w4 s4] eqn:E4.
    pose proof (iso_now_db _ _ _ _ _ E4) as Hdb4. rewrite Hdb3 in Hdb4.
    intros [= <- <-]. exists s3, sid, mu. by repeat (split; [done|]).
  - destruct (addMessage _ _ w3 sid "assistant" _ _ _) as [w4 r4] eqn:E4.
    destruct (addMessage_appends _ _ _ _ _ _ _ _ _ _ _ Hdb3 E4)
      as (s4 & ma & Hdb4 & _ & _ & _ & Hra & Hca & Hma & (F4 & _ & M4 & _)).
    intros [= <- <-]. exists s4, sid, mu. repeat (split; [done|]).
    split; [intros sid' Hne; by rewrite F4, F3|].
    split; [|done]. exists ma.
    split; [by rewrite M4, M3, <- app_assoc|].
    split; [done|]. split; [done|].
    rewrite !Hma by done. by simplify_map_eq.
Qed.
End StreamFacts.

(** X29: the history route reads the limit of the query string as a
    number and falls back to 20 when it is missing, unparsable or 0; a
    positive limit gives the last messages of the session, a negative one
    its first ones, and the count is the number of messages given. *)
Theorem history_route_limits (w : World) sessions sid limit :
  db w = Online sessions →
  ∃ history,
    Streaming.history_route w sid limit = (history, length history)
    ∧ match parseInt_val limit with
      | Num k =>
          if 0 <? k then
            history = drop (length (stored_messages sessions sid) - Z.to_nat k)
                           (stored_messages sessions sid)
          else if k <? 0 then
            history = take (Z.to_nat (- k)) (stored_messages sessions sid)
          else
            history = drop (length (stored_messages sessions sid) - 20)
                           (stored_messages sessions sid)
      | NaN =>
          history = drop (length (stored_messages sessions sid) - 20)
                         (stored_messages sessions sid)
      end.
Proof.
  intros Hdb. unfold Streaming.history_route. eexists. split; [reflexivity|].
  unfold getHistory, getConversationHistory, Streaming.history_route_limit,
    stored_messages.
  rewrite Hdb. cbn [default].
  destruct (sessions !! sid) as [c|]; cbn [from_option].
  - destruct (parseInt_val limit) as [|k].
    + by rewrite (slice_projection_last 20) by lia.
    + destruct (Z.eqb_spec k 0) as [->|Hne].
      * by rewrite (slice_projection_last 20) by lia.
      * unfold id. destruct (Z.ltb_spec 0 k); [|destruct (Z.ltb_spec k 0); [|lia]].
        -- by rewrite slice_projection_last by lia.
        -- unfold slice_projection. by rewrite (proj2 (Z.leb_le 0 (- k))) by lia.
  - destruct (parseInt_val limit) as [|k]; [done|].
    destruct (0 <? k), (k <? 0), (k =? 0); simpl;
      by rewrite ?drop_nil, ?take_nil.
Qed.

(* ===================================================================== *)
(** * The further properties on concrete inputs                           *)
(* ===================================================================== *)

Lemma property_lookup_needs_a_text_witness :
  ∃ e,
    Lexical.getPropertyById true (λ _, Ok (Some listing_123)) (VNum (Num 123))
      = Throw e
    ∧ Lexical.handleGetPropertyDetails true (λ _, Ok (Some listing_123))
        (λ _, "{}") (VNum (Num 123))
      = "I encountered an error while getting property details: " +:+ e
          +:+ ". Please try again."
    ∧ (∀ findOne', Lexical.getPropertyById true findOne' (VNum (Num 123)) = Throw e)
    ∧ (true = false → e = "Database not connected")
    ∧ (true = true → e = "propertyId.match is not a function").
Proof.
  apply (property_lookup_needs_a_text true (λ _, Ok (Some listing_123)) (λ _, "{}")
           (VNum (Num 123))).
  intros s. discriminate.
Defined.

Lemma added_message_is_read_back_witness :
  ∃ w' sessions' m,
    addMessage numbered_oid tick_clock five_world "s1" "user" (VStr "hi") ∅ VNull
      = (w', Added (msg_id m))
    ∧ db w' = Online sessions'
    ∧ role m = "user" ∧ content m = VStr "hi"
    ∧ stored_messages sessions' "s1"
      = stored_messages {[ "s1" := five_messages ]} "s1" ++ [m]
    ∧ stored_total sessions' "s1"
      = stored_total {[ "s1" := five_messages ]} "s1" + 1
    ∧ (∀ sid', sid' ≠ "s1" →
         sessions' !! sid' = ({[ "s1" := five_messages ]} : gmap string Session) !! sid')
    ∧ (∀ k, 1 ≤ k →
         ∃ recent meta,
           getConversationHistory w' "s1" (Some k) = History recent meta
           ∧ last recent = Some m).
Proof.
  apply (added_message_is_read_back numbered_oid tick_clock five_world
           {[ "s1" := five_messages ]} "s1" "user" (VStr "hi") ∅ VNull).
  reflexivity.
Defined.

Lemma turn_appends_user_and_assistant_witness :
  ∃ sessions' mu ma,
    db pool_turn.1.1 = Online sessions'
    ∧ stored_messages sessions' (response_session pool_turn.2)
      = stored_messages {[ "s1" := five_messages ]} (response_session pool_turn.2)
          ++ [mu; ma]
    ∧ role mu = "user" ∧ content mu = VStr (message s1_request)
    ∧ role ma = "assistant" ∧ content ma = response_text pool_turn.2
    ∧ msg_metadata ma !! "error"
      = match pool_turn.2 with
        | Reply _ _ _ _ => None
        | Failure _ _ _ => Some (VBool true)
        end
    ∧ (∀ sid', sid' ≠ response_session pool_turn.2 →
         sessions' !! sid'
         = ({[ "s1" := five_messages ]} : gmap string Session) !! sid')
    ∧ (∀ s, sessionId s1_request = Some s → s ≠ "" →
         response_session pool_turn.2 = s).
Proof.
  apply (turn_appends_user_and_assistant numbered_oid tick_clock tick_text no_json
           answering_run false five_world {[ "s1" := five_messages ]} idle_agent
           s1_request pool_turn.1.1 pool_turn.1.2 pool_turn.2).
  - reflexivity.
  - vm_compute. reflexivity.
Defined.

Lemma session_owner_is_fixed_witness :
  ∃ sessions' c',
    db pool_turn.1.1 = Online sessions'
    ∧ sessions' !! response_session pool_turn.2 = Some c'
    ∧ Conversation.userId c' = Conversation.userId five_messages
    ∧ isAuthenticated c' = isAuthenticated five_messages
    ∧ userType (metadata c') = userType (metadata five_messages).
Proof.
  apply (session_owner_is_fixed numbered_oid tick_clock tick_text no_json
           answering_run false five_world {[ "s1" := five_messages ]} idle_agent
           s1_request pool_turn.1.1 pool_turn.1.2 pool_turn.2 five_messages).
  - reflexivity.
  - vm_compute. reflexivity.
  - vm_compute. reflexivity.
Defined.

Lemma counters_count_messages_witness :
  (∀ st req,
     counted (handleChatMessage numbered_oid tick_clock tick_text no_json
                answering_run false five_world st req).1.1)
  ∧ (∀ sid r text md uid,
       counted (addMessage numbered_oid tick_clock five_world sid r text md uid).1)
  ∧ (∀ sid patch, patch !! "totalMessages" = None →
       counted (updateConversationMetadata tick_clock five_world sid patch).1)
  ∧ (∀ sid, counted (Sessions.deleteConversation five_world sid).1).
Proof.
  apply (counters_count_messages numbered_oid tick_clock tick_text no_json
           answering_run false five_world).
  apply map_Forall_singleton. reflexivity.
Defined.

Lemma unreachable_store_does_not_fail_the_turn_witness :
  ∃ w' sid stamp ctx,
    handleChatMessage numbered_oid tick_clock tick_text no_json answering_run false
      offline_world idle_agent s1_request
    = (w', {| currentUserId := VStr "user-7"; lastSearchResults := None |},
       Reply (Some "Here are some ideas.") sid stamp ctx)
    ∧ db w' = Offline "connection refused".
Proof.
  apply (unreachable_store_does_not_fail_the_turn numbered_oid tick_clock tick_text
           no_json answering_run false offline_world "connection refused"
           idle_agent s1_request "and with a pool?"
           {| currentUserId := VStr "user-7"; lastSearchResults := None |}
           {| finalOutput := Some "Here are some ideas."; newItems := Some [] |}).
  - reflexivity.
  - reflexivity.
  - reflexivity.
Defined.

Lemma metadata_update_keeps_messages_witness :
  (∃ w' sessions',
     updateConversationMetadata tick_clock five_world "s1"
       {[ "lastUserMessage" := VStr "hi" ]} = (w', Updated)
     ∧ db w' = Online sessions'
     ∧ (({[ "s1" := five_messages ]} : gmap string Session) !! "s1" = None →
        sessions' = {[ "s1" := five_messages ]})
     ∧ (∀ sid', stored_messages sessions' sid'
                = stored_messages {[ "s1" := five_messages ]} sid'
                ∧ stored_total sessions' sid'
                  = stored_total {[ "s1" := five_messages ]} sid')
     ∧ (∀ c, ({[ "s1" := five_messages ]} : gmap string Session) !! "s1" = Some c →
          ∃ c', sessions' !! "s1" = Some c'
                ∧ merged (metadata c')
                  = {[ "lastUserMessage" := VStr "hi" ]} ∪ merged (metadata c)))
  ∧ (∀ z, ∃ w' sessions',
       updateConversationMetadata tick_clock five_world "s1"
         (<["totalMessages" := VNum (Num z)]> {[ "lastUserMessage" := VStr "hi" ]})
       = (w', Updated)
       ∧ db w' = Online sessions'
       ∧ (∀ sid', stored_messages sessions' sid'
                  = stored_messages {[ "s1" := five_messages ]} sid')
       ∧ (is_Some (({[ "s1" := five_messages ]} : gmap string Session) !! "s1") →
          stored_total sessions' "s1" = z)).
Proof.
  apply (metadata_update_keeps_messages tick_clock five_world
           {[ "s1" := five_messages ]} "s1" {[ "lastUserMessage" := VStr "hi" ]}).
  - reflexivity.
  - repeat split; vm_compute; reflexivity.
Defined.

Lemma deleted_session_starts_afresh_witness :
  ∃ w' sessions',
    Sessions.deleteConversation five_world "s1"
      = (w', Sessions.Deleted
               (if ({[ "s1" := five_messages ]} : gmap string Session) !! "s1"
                is Some _ then 1 else 0))
    ∧ db w' = Online sessions'
    ∧ sessions' !! "s1" = None
    ∧ (∀ sid', sid' ≠ "s1" →
         sessions' !! sid'
         = ({[ "s1" := five_messages ]} : gmap string Session) !! sid')
    ∧ getConversationHistory w' "s1" (Some 20) = History [] None
    ∧ ∃ w'' sessions'' m,
        addMessage numbered_oid tick_clock w' "s1" "user" (VStr "hi") ∅ VNull
          = (w'', Added (msg_id m))
        ∧ db w'' = Online sessions''
        ∧ stored_messages sessions'' "s1" = [m]
        ∧ stored_total sessions'' "s1" = 1.
Proof.
  apply (deleted_session_starts_afresh numbered_oid tick_clock five_world
           {[ "s1" := five_messages ]} "s1" "user" (VStr "hi") ∅ VNull (Some 20)).
  reflexivity.
Defined.

Lemma history_sent_to_the_agent_witness :
  (∃ older recent,
     stored_messages {[ "s1" := five_messages ]} "s1" = older ++ recent
     ∧ history_to_use five_world "s1" [] = (λ m, (role m, content m)) <$> recent
     ∧ length recent
       = (20 `min` length (stored_messages {[ "s1" := five_messages ]} "s1"))%nat)
  ∧ (∀ turn0 turns, history_to_use five_world "s1" (turn0 :: turns) = turn0 :: turns).
Proof.
  apply (history_sent_to_the_agent five_world {[ "s1" := five_messages ]} "s1").
  reflexivity.
Defined.

Lemma chat_reports_tool_use_witness :
  ∃ calls md,
    chat no_json answering_run idle_agent "a loft in Porto" [] VNull
      = (idle_agent, ChatOk (Some "Here are some ideas.") calls md)
    ∧ is_Some (md !! "search_performed")
    ∧ (Exists (λ call, name call = "searchRentals"
                       ∨ name call = "getPropertyDetails") calls →
       md !! "search_performed" = Some (VBool true))
    ∧ (calls = [] → ∃ flag, md = {[ "search_performed" := VBool flag ]}).
Proof.
  apply (chat_reports_tool_use no_json answering_run idle_agent "a loft in Porto"
           [] VNull idle_agent
           {| finalOutput := Some "Here are some ideas."; newItems := Some [] |}).
  reflexivity.
Defined.

Lemma unparsable_arguments_fall_back_witness :
  ∃ calls,
    extractToolCallsFromResult no_json broken_arguments_run = Some calls
    ∧ {| name := "searchRentals"; arguments := VStr "{query:" |} ∈ calls
    ∧ extractSearchMetadata idle_agent (Some calls) "a loft in Porto" !! "search_query"
      = Some (VStr "a loft in Porto")
    ∧ extractSearchMetadata idle_agent (Some calls) "a loft in Porto" !! "search_filters"
      = Some (VObj ∅)
    ∧ extractSearchMetadata idle_agent (Some calls) "a loft in Porto" !! "search_limit"
      = Some (VNum (Num 5)).
Proof.
  apply (unparsable_arguments_fall_back no_json idle_agent broken_arguments_run
           [] "{query:" [] "a loft in Porto").
  - reflexivity.
  - reflexivity.
  - constructor.
Defined.

Lemma search_results_reach_the_metadata_witness :
  extractSearchMetadata
    {| currentUserId := VNull; lastSearchResults := Some [lexical_new] |}
    (Some ([] ++ search_call "beach house" 5 :: [])) "a house by the beach"
    !! "rental_ids"
  = Some (VArr (hit_id <$> (if existsb description_breaks [lexical_new] then []
                            else [lexical_new])))
  ∧ currentUserId {| currentUserId := VNull; lastSearchResults := Some [lexical_new] |}
    = currentUserId idle_agent.
Proof.
  apply (search_results_reach_the_metadata (λ _ _ _, "[...]") idle_agent
           (VStr "beach house") (VObj ∅) (Ok [lexical_new])
           {| currentUserId := VNull; lastSearchResults := Some [lexical_new] |}
           "[...]" [] (search_call "beach house" 5) [] "a house by the beach").
  - reflexivity.
  - reflexivity.
  - constructor.
Defined.

Lemma viewed_property_without_features_fails_the_turn_witness :
  ∃ w' sid error,
    handleChatMessage numbered_oid tick_clock tick_text no_json answering_run false
      five_world idle_agent viewing_request
    = (w', idle_agent, Failure controller_error_message error sid)
    ∧ (false = false → error = None).
Proof.
  apply (viewed_property_without_features_fails_the_turn numbered_oid tick_clock
           tick_text no_json answering_run false five_world idle_agent
           viewing_request {[ "name" := VStr "Loft" ]}).
  - reflexivity.
  - reflexivity.
Defined.

Lemma streamed_turn_records_witness :
  ∃ sessions' sid mu,
    db failed_stream_turn.1 = Online sessions'
    ∧ role mu = "user" ∧ content mu = VStr (message s1_request)
    ∧ msg_metadata mu !! "stream_request" = Some (VBool true)
    ∧ (∀ s, sessionId s1_request = Some s → s ≠ "" → sid = s)
    ∧ (∀ sid', sid' ≠ sid →
         sessions' !! sid'
         = ({[ "s1" := five_messages ]} : gmap string Session) !! sid')
    ∧ match failed_stream_turn.2 with
      | Ok response =>
          Streaming.stream_sessionId response = sid
          ∧ stored_messages sessions' sid
            = stored_messages {[ "s1" := five_messages ]} sid ++ [mu]
      | Throw error =>
          ∃ ma,
            stored_messages sessions' sid
              = stored_messages {[ "s1" := five_messages ]} sid ++ [mu; ma]
            ∧ role ma = "assistant"
            ∧ content ma = VStr Streaming.stream_error_message
            ∧ msg_metadata ma !! "error" = Some (VBool true)
            ∧ msg_metadata ma !! "error_details" = Some (VStr error)
      end
    ∧ ∀ property,
        Streaming.enhance_stream (message s1_request)
          (<["current_property" := property]> (context s1_request))
        = Streaming.enhance_stream (message s1_request) (context s1_request).
Proof.
  apply (streamed_turn_records numbered_oid tick_clock tick_text string
           failing_stream five_world {[ "s1" := five_messages ]} s1_request
           failed_stream_turn.1 failed_stream_turn.2).
  - reflexivity.
  - vm_compute. reflexivity.
Defined.

Lemma history_route_limits_witness :
  ∃ history,
    Streaming.history_route five_world "s1" (VStr "-2") = (history, length history)
    ∧ match parseInt_val (VStr "-2") with
      | Num k =>
          if 0 <? k then
            history
            = drop (length (stored_messages {[ "s1" := five_messages ]} "s1")
                    - Z.to_nat k)
                   (stored_messages {[ "s1" := five_messages ]} "s1")
          else if k <? 0 then
            history
            = take (Z.to_nat (- k)) (stored_messages {[ "s1" := five_messages ]} "s1")
          else
            history
            = drop (length (stored_messages {[ "s1" := five_messages ]} "s1") - 20)
                   (stored_messages {[ "s1" := five_messages ]} "s1")
      | NaN =>
          history
          = drop (length (stored_messages {[ "s1" := five_messages ]} "s1") - 20)
                 (stored_messages {[ "s1" := five_messages ]} "s1")
      end.
Proof.
  apply (history_route_limits five_world {[ "s1" := five_messages ]} "s1" (VStr "-2")).
  reflexivity.
Defined.
